(** * Legrand PCB tester cell: the dual-machine sequencer

    A shallow embedding of [LegrandPCBv17/backend/sequencer.py] (class
    [Sequencer]) and the properties of its orchestration loop.

    Modelling conventions

    - Python [int] is [Z]; [None]-able attributes are [option].
    - [threading.Event] objects are booleans ([is_set()]).
    - The two per-machine attribute families ([tester_result1],
      [tester_result2], ...) are the two [Tester] records [st1] and [st2] of
      the sequencer; the field names are the source names without the digit.
      The source text for machine 2 is the text for machine 1 with the digit
      changed, so the per-machine blocks take the machine as a parameter.
    - Wall-clock readings ([time.time()]) and timeouts are integers, in
      milliseconds.
    - Text is [string], read as ASCII text.  [str.upper], [str.strip] and
      [str.format] are modelled on the part of their domain that the module
      [PyStr] names ([PyStr.is_ascii], [PyStr.plain_template]); a statement
      that depends on their result outside of it carries the restriction
      as a hypothesis.
    - Other threads (operator, adapter notifications, serial listeners) run
      only while the worker thread is inside [backend.start_plan] or
      [time.sleep]: each such point consumes one [Yield] of a schedule, which
      lists the calls made meanwhile.  A schedule that runs out is the only
      reason for a run of the model to give [None].
    - Everything observable ([log], adapter requests, sleeps, thread starts)
      is appended to an event trace. *)

From Stdlib Require Import ZArith String Ascii List Bool Lia DecimalString.
Import ListNotations.
Open Scope string_scope.
Open Scope Z_scope.

(** ** Python text primitives *)

Module PyStr.

(** Text all of whose characters are ASCII. *)
Definition is_ascii_char (c : ascii) : bool := Nat.ltb (nat_of_ascii c) 128.

Fixpoint is_ascii (s : string) : bool :=
  match s with
  | EmptyString => true
  | String c r => (is_ascii_char c && is_ascii r)%bool
  end.

Definition upper_char (c : ascii) : ascii :=
  let n := nat_of_ascii c in
  if (Nat.leb 97 n && Nat.leb n 122)%bool then ascii_of_nat (n - 32) else c.

(** [str.upper()] of ASCII text: the letters a-z become A-Z.  Python also
    maps letters outside ASCII (some to ASCII letters), which this function
    does not follow: it is [str.upper] on text that satisfies [is_ascii]. *)
Fixpoint upper (s : string) : string :=
  match s with
  | EmptyString => EmptyString
  | String c r => String (upper_char c) (upper r)
  end.

(** The ASCII characters for which [str.isspace()] holds. *)
Definition is_space (c : ascii) : bool :=
  let n := nat_of_ascii c in
  (Nat.eqb n 32 || (Nat.leb 9 n && Nat.leb n 13)
   || (Nat.leb 28 n && Nat.leb n 31))%bool.

Fixpoint lstrip (s : string) : string :=
  match s with
  | EmptyString => EmptyString
  | String c r => if is_space c then lstrip r else s
  end.

Fixpoint rstrip (s : string) : string :=
  match s with
  | EmptyString => EmptyString
  | String c r =>
      match rstrip r with
      | EmptyString => if is_space c then EmptyString else String c EmptyString
      | r' => String c r'
      end
  end.

(** [str.strip()] with no argument, of ASCII text: Python also strips
    white space outside ASCII, so this is [str.strip] on text that
    satisfies [is_ascii]. *)
Definition strip (s : string) : string := rstrip (lstrip s).

(** [needle in hay] *)
Fixpoint contains (needle hay : string) : bool :=
  (prefix needle hay
   || match hay with
      | EmptyString => false
      | String _ r => contains needle r
      end)%bool.

(** [str(n)] for an [int] *)
Definition of_int (n : Z) : string := NilZero.string_of_int (Z.to_int n).

(** [str(b)] for a [bool] *)
Definition of_bool (b : bool) : string := if b then "True" else "False".

(** [fmt.format(slot=n)] of a plain template: text without braces around
    any number of plain [{slot}] fields.  [skip] counts the characters of a
    field still to drop.  On other templates [str.format] raises (another
    field name, an unbalanced brace) or applies a conversion, a format
    specification or a doubled brace; this function follows none of that:
    it is [str.format] on templates that satisfy [plain_template]. *)
Fixpoint format_go (skip : nat) (slot fmt : string) : string :=
  match fmt with
  | EmptyString => EmptyString
  | String c r =>
      match skip with
      | S k => format_go k slot r
      | O => if prefix "{slot}" fmt
             then slot ++ format_go 5 slot r
             else String c (format_go 0 slot r)
      end
  end.

Definition format_slot (fmt : string) (slot : Z) : string :=
  format_go 0 (of_int slot) fmt.

(** Every brace of the template belongs to a plain [{slot}] field. *)
Fixpoint plain_go (skip : nat) (fmt : string) : bool :=
  match fmt with
  | EmptyString => true
  | String c r =>
      match skip with
      | S k => plain_go k r
      | O => if prefix "{slot}" fmt then plain_go 5 r
             else (negb (Ascii.eqb c "{") && negb (Ascii.eqb c "}")
                   && plain_go 0 r)%bool
      end
  end.

Definition plain_template (fmt : string) : bool := plain_go 0 fmt.

(** [f"{x:.0f}"] for [x] seconds given in milliseconds: round to the
    nearest integer, ties to even, sign kept. *)
Definition format_0f (ms : Z) : string :=
  let a := Z.abs ms in
  let q := a / 1000 in
  let r := a mod 1000 in
  let n := if r <? 500 then q
           else if 500 <? r then q + 1
           else if Z.even q then q else q + 1 in
  String.append (if ms <? 0 then "-" else "") (of_int n).

End PyStr.

(** ** Configuration *)

(** The [BackendEvents] names, as in the fallback class of the module. *)
Module BackendEvents.
Definition RUNNING := "RUNNING".
Definition STOPPED := "STOPPED".
Definition FAULT := "FAULT".
Definition LOG := "LOG".
End BackendEvents.

Inductive Machine := M1 | M2.

Definition machine_eqb (a b : Machine) : bool :=
  match a, b with
  | M1, M1 | M2, M2 => true
  | _, _ => false
  end.

(** The digit of a machine, as it appears in log lines. *)
Definition digit (m : Machine) : string :=
  match m with M1 => "1" | M2 => "2" end.

(** The per-machine fields of [SequencerConfig]. *)
Record MachineConfig := {
  total_slots : Z;
  plan_open_machine : string;
  plan_close_machine : string;
  plan_pick_fmt : string;
  plan_place_pass_fmt : string;
  plan_place_fail_fmt : string
}.

Record SequencerConfig := {
  mc1 : MachineConfig;
  mc2 : MachineConfig;
  plan_timeout_s : Z;
  recover_timeout_s : Z;
  test_timeout_s : Z
}.

Definition default_machine_config : MachineConfig :=
  {| total_slots := 1;
     plan_open_machine := "OpenMachine";
     plan_close_machine := "CloseMachine";
     plan_pick_fmt := "PickFromTray_{slot}";
     plan_place_pass_fmt := "PlaceToOutputPass";
     plan_place_fail_fmt := "PlaceToOutputFail" |}.

(** [SequencerConfig()] *)
Definition default_config : SequencerConfig :=
  {| mc1 := default_machine_config;
     mc2 := default_machine_config;
     plan_timeout_s := 120000;
     recover_timeout_s := 45000;
     test_timeout_s := 900000 |}.

Definition mc (m : Machine) (c : SequencerConfig) : MachineConfig :=
  match m with M1 => mc1 c | M2 => mc2 c end.

Definition set_total_slots (n : Z) (c : MachineConfig) : MachineConfig :=
  {| total_slots := n;
     plan_open_machine := plan_open_machine c;
     plan_close_machine := plan_close_machine c;
     plan_pick_fmt := plan_pick_fmt c;
     plan_place_pass_fmt := plan_place_pass_fmt c;
     plan_place_fail_fmt := plan_place_fail_fmt c |}.

Definition set_mc (m : Machine) (x : MachineConfig) (c : SequencerConfig)
  : SequencerConfig :=
  {| mc1 := match m with M1 => x | M2 => mc1 c end;
     mc2 := match m with M1 => mc2 c | M2 => x end;
     plan_timeout_s := plan_timeout_s c;
     recover_timeout_s := recover_timeout_s c;
     test_timeout_s := test_timeout_s c |}.

(** ** The sequencer object *)

(** The attributes that exist once per machine. *)
Record Tester := {
  tester_done_evt : bool;
  serial_th : bool;                (* [_serialN_th and _serialN_th.is_alive()] *)
  halt_serial : option bool;       (* [_halt_serialN]: [None] or an Event *)
  tester_commready : bool;
  tester_result : option string;
  tester_operating : bool;
  tester_loaded : bool;
  awaiting_result : bool;
  current_slotN : option Z         (* [current_slotN]; [None]: no such attribute yet *)
}.

Record Sequencer := {
  cfg : SequencerConfig;
  current_slot : Z;
  current_step : Z;
  _preamble_done : bool;
  _th : bool;                      (* [_th and _th.is_alive()] *)
  _fault : bool;
  _plan_done_evt : bool;
  _fault_evt : bool;
  _stop_flag : bool;
  _user_pause : bool;
  st1 : Tester;
  st2 : Tester
}.

Definition st (m : Machine) (s : Sequencer) : Tester :=
  match m with M1 => st1 s | M2 => st2 s end.

Definition capacity (m : Machine) (s : Sequencer) : Z :=
  total_slots (mc m (cfg s)).

(** Attribute assignment: one setter per attribute. *)

Definition set_tester_done_evt (v : bool) (t : Tester) : Tester :=
  {| tester_done_evt := v; serial_th := serial_th t;
     halt_serial := halt_serial t; tester_commready := tester_commready t;
     tester_result := tester_result t;
     tester_operating := tester_operating t;
     tester_loaded := tester_loaded t; awaiting_result := awaiting_result t;
     current_slotN := current_slotN t |}.

Definition set_serial_th (v : bool) (t : Tester) : Tester :=
  {| tester_done_evt := tester_done_evt t; serial_th := v;
     halt_serial := halt_serial t; tester_commready := tester_commready t;
     tester_result := tester_result t;
     tester_operating := tester_operating t;
     tester_loaded := tester_loaded t; awaiting_result := awaiting_result t;
     current_slotN := current_slotN t |}.

Definition set_halt_serial (v : option bool) (t : Tester) : Tester :=
  {| tester_done_evt := tester_done_evt t; serial_th := serial_th t;
     halt_serial := v; tester_commready := tester_commready t;
     tester_result := tester_result t;
     tester_operating := tester_operating t;
     tester_loaded := tester_loaded t; awaiting_result := awaiting_result t;
     current_slotN := current_slotN t |}.

Definition set_tester_commready (v : bool) (t : Tester) : Tester :=
  {| tester_done_evt := tester_done_evt t; serial_th := serial_th t;
     halt_serial := halt_serial t; tester_commready := v;
     tester_result := tester_result t;
     tester_operating := tester_operating t;
     tester_loaded := tester_loaded t; awaiting_result := awaiting_result t;
     current_slotN := current_slotN t |}.

Definition set_tester_result (v : option string) (t : Tester) : Tester :=
  {| tester_done_evt := tester_done_evt t; serial_th := serial_th t;
     halt_serial := halt_serial t; tester_commready := tester_commready t;
     tester_result := v; tester_operating := tester_operating t;
     tester_loaded := tester_loaded t; awaiting_result := awaiting_result t;
     current_slotN := current_slotN t |}.

Definition set_tester_operating (v : bool) (t : Tester) : Tester :=
  {| tester_done_evt := tester_done_evt t; serial_th := serial_th t;
     halt_serial := halt_serial t; tester_commready := tester_commready t;
     tester_result := tester_result t; tester_operating := v;
     tester_loaded := tester_loaded t; awaiting_result := awaiting_result t;
     current_slotN := current_slotN t |}.

Definition set_tester_loaded (v : bool) (t : Tester) : Tester :=
  {| tester_done_evt := tester_done_evt t; serial_th := serial_th t;
     halt_serial := halt_serial t; tester_commready := tester_commready t;
     tester_result := tester_result t;
     tester_operating := tester_operating t; tester_loaded := v;
     awaiting_result := awaiting_result t;
     current_slotN := current_slotN t |}.

Definition set_awaiting_result (v : bool) (t : Tester) : Tester :=
  {| tester_done_evt := tester_done_evt t; serial_th := serial_th t;
     halt_serial := halt_serial t; tester_commready := tester_commready t;
     tester_result := tester_result t;
     tester_operating := tester_operating t;
     tester_loaded := tester_loaded t; awaiting_result := v;
     current_slotN := current_slotN t |}.

Definition set_current_slotN (v : option Z) (t : Tester) : Tester :=
  {| tester_done_evt := tester_done_evt t; serial_th := serial_th t;
     halt_serial := halt_serial t; tester_commready := tester_commready t;
     tester_result := tester_result t;
     tester_operating := tester_operating t;
     tester_loaded := tester_loaded t; awaiting_result := awaiting_result t;
     current_slotN := v |}.

Definition set_cfg (v : SequencerConfig) (s : Sequencer) : Sequencer :=
  {| cfg := v; current_slot := current_slot s;
     current_step := current_step s; _preamble_done := _preamble_done s;
     _th := _th s; _fault := _fault s; _plan_done_evt := _plan_done_evt s;
     _fault_evt := _fault_evt s; _stop_flag := _stop_flag s;
     _user_pause := _user_pause s; st1 := st1 s; st2 := st2 s |}.

Definition set_current_slot (v : Z) (s : Sequencer) : Sequencer :=
  {| cfg := cfg s; current_slot := v; current_step := current_step s;
     _preamble_done := _preamble_done s; _th := _th s; _fault := _fault s;
     _plan_done_evt := _plan_done_evt s; _fault_evt := _fault_evt s;
     _stop_flag := _stop_flag s; _user_pause := _user_pause s; st1 := st1 s;
     st2 := st2 s |}.

Definition set_current_step (v : Z) (s : Sequencer) : Sequencer :=
  {| cfg := cfg s; current_slot := current_slot s; current_step := v;
     _preamble_done := _preamble_done s; _th := _th s; _fault := _fault s;
     _plan_done_evt := _plan_done_evt s; _fault_evt := _fault_evt s;
     _stop_flag := _stop_flag s; _user_pause := _user_pause s; st1 := st1 s;
     st2 := st2 s |}.

Definition set_preamble_done (v : bool) (s : Sequencer) : Sequencer :=
  {| cfg := cfg s; current_slot := current_slot s;
     current_step := current_step s; _preamble_done := v; _th := _th s;
     _fault := _fault s; _plan_done_evt := _plan_done_evt s;
     _fault_evt := _fault_evt s; _stop_flag := _stop_flag s;
     _user_pause := _user_pause s; st1 := st1 s; st2 := st2 s |}.

Definition set_th (v : bool) (s : Sequencer) : Sequencer :=
  {| cfg := cfg s; current_slot := current_slot s;
     current_step := current_step s; _preamble_done := _preamble_done s;
     _th := v; _fault := _fault s; _plan_done_evt := _plan_done_evt s;
     _fault_evt := _fault_evt s; _stop_flag := _stop_flag s;
     _user_pause := _user_pause s; st1 := st1 s; st2 := st2 s |}.

Definition set_fault (v : bool) (s : Sequencer) : Sequencer :=
  {| cfg := cfg s; current_slot := current_slot s;
     current_step := current_step s; _preamble_done := _preamble_done s;
     _th := _th s; _fault := v; _plan_done_evt := _plan_done_evt s;
     _fault_evt := _fault_evt s; _stop_flag := _stop_flag s;
     _user_pause := _user_pause s; st1 := st1 s; st2 := st2 s |}.

Definition set_plan_done_evt (v : bool) (s : Sequencer) : Sequencer :=
  {| cfg := cfg s; current_slot := current_slot s;
     current_step := current_step s; _preamble_done := _preamble_done s;
     _th := _th s; _fault := _fault s; _plan_done_evt := v;
     _fault_evt := _fault_evt s; _stop_flag := _stop_flag s;
     _user_pause := _user_pause s; st1 := st1 s; st2 := st2 s |}.

Definition set_fault_evt (v : bool) (s : Sequencer) : Sequencer :=
  {| cfg := cfg s; current_slot := current_slot s;
     current_step := current_step s; _preamble_done := _preamble_done s;
     _th := _th s; _fault := _fault s; _plan_done_evt := _plan_done_evt s;
     _fault_evt := v; _stop_flag := _stop_flag s;
     _user_pause := _user_pause s; st1 := st1 s; st2 := st2 s |}.

Definition set_stop_flag (v : bool) (s : Sequencer) : Sequencer :=
  {| cfg := cfg s; current_slot := current_slot s;
     current_step := current_step s; _preamble_done := _preamble_done s;
     _th := _th s; _fault := _fault s; _plan_done_evt := _plan_done_evt s;
     _fault_evt := _fault_evt s; _stop_flag := v;
     _user_pause := _user_pause s; st1 := st1 s; st2 := st2 s |}.

Definition set_user_pause (v : bool) (s : Sequencer) : Sequencer :=
  {| cfg := cfg s; current_slot := current_slot s;
     current_step := current_step s; _preamble_done := _preamble_done s;
     _th := _th s; _fault := _fault s; _plan_done_evt := _plan_done_evt s;
     _fault_evt := _fault_evt s; _stop_flag := _stop_flag s;
     _user_pause := v; st1 := st1 s; st2 := st2 s |}.

Definition set_st1 (v : Tester) (s : Sequencer) : Sequencer :=
  {| cfg := cfg s; current_slot := current_slot s;
     current_step := current_step s; _preamble_done := _preamble_done s;
     _th := _th s; _fault := _fault s; _plan_done_evt := _plan_done_evt s;
     _fault_evt := _fault_evt s; _stop_flag := _stop_flag s;
     _user_pause := _user_pause s; st1 := v; st2 := st2 s |}.

Definition set_st2 (v : Tester) (s : Sequencer) : Sequencer :=
  {| cfg := cfg s; current_slot := current_slot s;
     current_step := current_step s; _preamble_done := _preamble_done s;
     _th := _th s; _fault := _fault s; _plan_done_evt := _plan_done_evt s;
     _fault_evt := _fault_evt s; _stop_flag := _stop_flag s;
     _user_pause := _user_pause s; st1 := st1 s; st2 := v |}.

Definition set_st (m : Machine) (t : Tester) (s : Sequencer) : Sequencer :=
  match m with M1 => set_st1 t s | M2 => set_st2 t s end.

(** [self.<attr>N = v] for the machine [m]. *)
Definition upd_st (m : Machine) (f : Tester -> Tester) (s : Sequencer)
  : Sequencer :=
  set_st m (f (st m s)) s.

(** ** Observable effects *)

Inductive Target := TWorker | TSerial (m : Machine).

Inductive Event :=
| Log (msg : string)                            (* [self.log(msg)] *)
| StartPlan (plan_name : string) (speed : Z)    (* [backend.start_plan] *)
| BackendStop                                   (* [backend.stop()] *)
| Sleep (ms : Z)                                (* [time.sleep] *)
| ThreadStart (target : Target).                (* [Thread(target=...).start()] *)

Definition is_StartPlan (e : Event) : bool :=
  match e with StartPlan _ _ => true | _ => false end.

(** A method without waits: new object state and what it emitted. *)
Definition Act := Sequencer -> Sequencer * list Event.

Definition and_then (a b : Act) : Act :=
  fun s => let '(s1, e1) := a s in
           let '(s2, e2) := b s1 in (s2, (e1 ++ e2)%list).

Definition log (msg : string) : Act := fun s => (s, [Log msg]).

Definition assign (f : Sequencer -> Sequencer) : Act := fun s => (f s, []).

Notation "a >> b" := (and_then a b) (at level 61, left associativity).

(** ** Construction *)

Definition new_tester : Tester :=
  {| tester_done_evt := false; serial_th := true; halt_serial := None;
     tester_commready := false; tester_result := None;
     tester_operating := false; tester_loaded := false;
     awaiting_result := false; current_slotN := None |}.

(** [Sequencer.__init__]: the attribute values, then the two listener
    threads are started. *)
Definition init (config : SequencerConfig) : Sequencer * list Event :=
  ({| cfg := config; current_slot := 1; current_step := 0;
      _preamble_done := false; _th := false; _fault := false;
      _plan_done_evt := false; _fault_evt := false; _stop_flag := false;
      _user_pause := false; st1 := new_tester; st2 := new_tester |},
   [ThreadStart (TSerial M1); Log "[M1] listener started";
    ThreadStart (TSerial M2); Log "[M2] listener started"]).

(** The plan names fixed at construction ([plan_pick1], [plan_close1], ...). *)
Definition plan_pick (m : Machine) (s : Sequencer) (slot : Z) : string :=
  PyStr.format_slot (plan_pick_fmt (mc m (cfg s))) slot.
Definition plan_close (m : Machine) (s : Sequencer) : string :=
  plan_close_machine (mc m (cfg s)).
Definition plan_open (m : Machine) (s : Sequencer) : string :=
  plan_open_machine (mc m (cfg s)).
Definition plan_place_pass (m : Machine) (s : Sequencer) : string :=
  plan_place_pass_fmt (mc m (cfg s)).
Definition plan_place_fail (m : Machine) (s : Sequencer) : string :=
  plan_place_fail_fmt (mc m (cfg s)).

(** ** Public API *)

Definition start_listener (m : Machine) : Act := fun s =>
  if serial_th (st m s) then (s, [])
  else
    (upd_st m (fun t => set_serial_th true (set_halt_serial (Some false) t)) s,
     [ThreadStart (TSerial m);
      Log ("[M" ++ digit m ++ "] Serial listener started")]).

Definition stop_listener (m : Machine) : Act := fun s =>
  (match halt_serial (st m s) with
   | Some _ => upd_st m (set_halt_serial (Some true)) s
   | None => s
   end,
   [Log ("[M" ++ digit m ++ "] Serial listener stopped")]).

Definition start_seq_worker (total_slots : option Z) : Act := fun s =>
  let s1 :=
    match total_slots with
    | Some n =>
        let c1 := set_mc M1 (set_total_slots n (mc1 (cfg s))) (cfg s) in
        let c2 := set_mc M2 (set_total_slots n (mc2 c1)) c1 in
        set_cfg c2 s
    | None => s
    end in
  if _th s1 then (s1, [Log "Sequencer already running"])
  else
    (assign (set_stop_flag false)
     >> (fun s => (set_th true s, [ThreadStart TWorker]))
     >> start_listener M1
     >> start_listener M2
     >> (fun s => log ("Started (slot " ++ PyStr.of_int (current_slot s)
                       ++ ", step " ++ PyStr.of_int (current_step s) ++ ")") s))
      s1.

Definition stop : Act :=
  assign (set_stop_flag true)
  >> assign (set_plan_done_evt true)
  >> assign (set_fault_evt true)
  >> stop_listener M1
  >> stop_listener M2
  >> log "Sequencer Stop requested - breaking out".

Definition pause : Act := assign (set_user_pause true).

Definition resume : Act := assign (set_user_pause false).

(** [payload] is the truth value of the Python payload. *)
Definition on_backend_event (ev : string) (payload : bool) : Act :=
  if (ev =? BackendEvents.FAULT)%string then
    assign (set_fault payload) >> assign (set_fault_evt payload)
  else if (ev =? BackendEvents.STOPPED)%string then
    assign (set_plan_done_evt true)
  else assign (fun s => s).

Record StateReport := {
  slot : Z;
  step : Z;
  running : bool;
  preamble_done : bool
}.

Definition get_state (s : Sequencer) : StateReport :=
  {| slot := current_slot s; step := current_step s;
     running := _th s; preamble_done := _preamble_done s |}.

(** The per-machine assignments of [reset]. *)
Definition reset_tester (t : Tester) : Tester :=
  set_current_slotN (Some 1)
    (set_tester_loaded false
       (set_tester_operating false
          (set_tester_result None
             (set_tester_done_evt false t)))).

Definition reset : Act :=
  log "RESET SEQUENCER CALLED"
  >> assign (set_fault false)
  >> assign (set_plan_done_evt false)
  >> assign (set_fault_evt false)
  >> assign (set_user_pause false)
  >> assign (set_stop_flag false)
  >> assign (upd_st M1 reset_tester)
  >> assign (upd_st M2 reset_tester)
  >> assign (set_current_slot 1)
  >> assign (set_current_step 0)
  >> assign (set_preamble_done false)
  >> log "Sequencer reset: Reload Trays and Open Machines".

(** The normalisation at the head of [external_test_complete]. *)
Definition normalize (verdict : option string) : string :=
  let v := PyStr.upper (PyStr.strip (match verdict with
                                     | Some x => x
                                     | None => ""
                                     end)) in
  if PyStr.contains "PASS" v then "PASS"
  else if PyStr.contains "FAIL" v then "FAIL" else v.

(** The branch of [external_test_complete] for one machine. *)
Definition deliver (m : Machine) (v : string) : Act := fun s =>
  if negb (awaiting_result (st m s)) then
    log ("[M" ++ digit m ++ "] Ignored result (not awaiting)") s
  else
    (assign (upd_st m (set_awaiting_result false))
     >> assign (upd_st m (set_tester_result (Some v)))
     >> assign (upd_st m (set_tester_done_evt true))
     >> assign (upd_st m (set_tester_operating false))
     >> log ("[M" ++ digit m ++ "] External test result: " ++ v)) s.

Definition external_test_complete (machine_id : Z) (verdict : option string)
  : Act :=
  let v := normalize verdict in
  if machine_id =? 1 then deliver M1 v
  else if machine_id =? 2 then deliver M2 v
  else assign (fun s => s).

Definition _recover : Sequencer -> bool * Sequencer * list Event := fun s =>
  (false, s,
   [Log "Recovery blocked: requires human intervention (no auto clear / no auto enable)."]).

(** ** The other threads *)

(** What another thread can do to the object while the worker waits. *)
Inductive Call :=
| CallStart (total_slots : option Z)
| CallStop
| CallPause
| CallResume
| CallBackendEvent (ev : string) (payload : bool)
| CallReset
| CallTestComplete (machine_id : Z) (verdict : option string)
| ListenerExit (m : Machine).      (* a [_serial_worker] thread returns *)

Definition apply_call (c : Call) : Act :=
  match c with
  | CallStart n => start_seq_worker n
  | CallStop => stop
  | CallPause => pause
  | CallResume => resume
  | CallBackendEvent ev p => on_backend_event ev p
  | CallReset => reset
  | CallTestComplete i v => external_test_complete i v
  | ListenerExit m => assign (upd_st m (set_serial_th false))
  end.

Fixpoint apply_calls (cs : list Call) : Act :=
  match cs with
  | [] => assign (fun s => s)
  | c :: r => apply_call c >> apply_calls r
  end.

(** How the [try] block around [speed_fn()] and [backend.start_plan] ends. *)
Inductive StartOutcome :=
| SpeedRaises (e : string)
| StartRaises (speed : Z) (e : string)
| Started (speed : Z).

(** One point at which the worker thread lets the others run: the calls
    made meanwhile, the clock when it resumes and, when the point is a
    [start_plan] request, how the request ends. *)
Record Yield := {
  y_calls : list Call;
  y_clock : Z;
  y_start : StartOutcome
}.

Record World := {
  sq : Sequencer;
  clock : Z;
  trace : list Event
}.

Definition emit (es : list Event) (w : World) : World :=
  {| sq := sq w; clock := clock w; trace := (trace w ++ es)%list |}.

Definition act (a : Act) (w : World) : World :=
  let '(s, es) := a (sq w) in
  {| sq := s; clock := clock w; trace := (trace w ++ es)%list |}.

(** The worker resumes after the yield [y]. *)
Definition resume_after (y : Yield) (w : World) : World :=
  let w1 := act (apply_calls (y_calls y)) w in
  {| sq := sq w1; clock := y_clock y; trace := trace w1 |}.

(** [time.sleep(ms / 1000)] *)
Definition sleep (ms : Z) (y : Yield) (w : World) : World :=
  resume_after y (emit [Sleep ms] w).

(** ** Worker-side computations *)

Inductive Res (A : Type) :=
| Ok (a : A)
| Brk                      (* [break] out of the [while] of [_worker] *)
| Raise (e : string).      (* an exception no handler of the loop catches *)

Arguments Ok {A} a.
Arguments Brk {A}.
Arguments Raise {A} e.

(** A computation of the worker thread: it consumes yields of the schedule
    and gives [None] when the schedule runs out. *)
Definition Run (A : Type) := list Yield -> World -> option (Res A * list Yield * World).

Definition ret {A} (a : A) : Run A := fun sched w => Some (Ok a, sched, w).

Definition brk {A} : Run A := fun sched w => Some (Brk, sched, w).

Definition raise {A} (e : string) : Run A := fun sched w => Some (Raise e, sched, w).

Definition bind {A B} (m : Run A) (k : A -> Run B) : Run B :=
  fun sched w =>
    match m sched w with
    | None => None
    | Some (Ok a, sched', w') => k a sched' w'
    | Some (Brk, sched', w') => Some (Brk, sched', w')
    | Some (Raise e, sched', w') => Some (Raise e, sched', w')
    end.

Declare Scope run_scope.
Delimit Scope run_scope with run.
Notation "x <- m ;; k" := (bind m (fun x => k))
  (at level 80, m at next level, right associativity) : run_scope.
Notation "m ;; k" := (bind m (fun _ => k))
  (at level 80, right associativity) : run_scope.

Definition read : Run Sequencer := fun sched w => Some (Ok (sq w), sched, w).

Definition perform (a : Act) : Run unit := fun sched w => Some (Ok tt, sched, act a w).

Definition say (msg : string) : Run unit := perform (log msg).

Definition effect (e : Event) : Run unit := fun sched w => Some (Ok tt, sched, emit [e] w).

(** [time.sleep(ms / 1000)] as a step of the worker. *)
Definition nap (ms : Z) : Run unit := fun sched w =>
  match sched with
  | [] => None
  | y :: rest => Some (Ok tt, rest, sleep ms y w)
  end.

(** [_wait_if_user_paused] *)
Fixpoint _wait_if_user_paused (sched : list Yield) (w : World)
  : option (Res unit * list Yield * World) :=
  if (_user_pause (sq w) && negb (_stop_flag (sq w)))%bool then
    match sched with
    | [] => None
    | y :: rest => _wait_if_user_paused rest (sleep 50 y w)
    end
  else Some (Ok tt, sched, w).

(** The [while True] loop of [_run_micro_plan], entered at time [t0]. *)
Fixpoint poll (plan_name : string) (timeout_s t0 : Z)
  (sched : list Yield) (w : World) : option (Res bool * list Yield * World) :=
  if _fault_evt (sq w) then
    Some (Ok false, sched,
          emit [Log ("Plan '" ++ plan_name ++ "' interrupted by FAULT")] w)
  else if _plan_done_evt (sq w) then
    if _stop_flag (sq w) then
      Some (Ok false, sched,
            emit [Log ("<- Plan finished (Stop Requested): " ++ plan_name)] w)
    else
      Some (Ok true, sched, emit [Log ("← Plan finished: " ++ plan_name)] w)
  else if timeout_s <? clock w - t0 then
    Some (Ok false, sched,
          emit [Log ("Plan '" ++ plan_name ++ "' timeout ("
                     ++ PyStr.format_0f timeout_s ++ "s)");
                BackendStop] w)
  else if _stop_flag (sq w) then Some (Ok false, sched, w)
  else
    match sched with
    | [] => None
    | y :: rest => poll plan_name timeout_s t0 rest (sleep 50 y w)
    end.

(** The request of [_run_micro_plan]: [speed_fn()] and [start_plan] inside
    the [try]; [true] when the adapter accepted the plan. *)
Definition request (plan_name : string) : Run bool := fun sched w =>
  match sched with
  | [] => None
  | y :: rest =>
      match y_start y with
      | SpeedRaises e =>
          Some (Ok false, rest,
                emit [Log ("start_plan error: " ++ e)] (resume_after y w))
      | StartRaises speed e =>
          Some (Ok false, rest,
                emit [Log ("start_plan error: " ++ e)]
                  (resume_after y (emit [StartPlan plan_name speed] w)))
      | Started speed =>
          Some (Ok true, rest,
                resume_after y (emit [StartPlan plan_name speed] w))
      end
  end.

Definition _run_micro_plan (plan_name : string) (timeout_s : Z) : Run bool :=
  (say ("→ Start plan: " ++ plan_name) ;;
   perform (assign (set_plan_done_evt false)) ;;
   perform (assign (set_fault_evt false)) ;;
   started <- request plan_name ;;
   if negb started then ret false
   else fun sched w => poll plan_name timeout_s (clock w) sched w)%run.

(** ** The loop of [_worker] *)

Definition is_str (r : option string) : bool :=
  match r with Some _ => true | None => false end.

(** "absorb tester completions" for one machine *)
Definition absorb (m : Machine) : Run unit :=
  (s <- read ;;
   if tester_done_evt (st m s) then
     perform (assign (upd_st m (set_tester_done_evt false))) ;;
     perform (assign (upd_st m (set_tester_operating false)))
   else ret tt)%run.

(** "UNLOAD on result" for one machine *)
Definition unload (m : Machine) (progressed : bool) : Run bool :=
  (s <- read ;;
   if (tester_commready (st m s) && negb progressed
       && negb (tester_operating (st m s)) && tester_loaded (st m s)
       && is_str (tester_result (st m s)))%bool
   then
     opened <- _run_micro_plan (plan_open m s) (plan_timeout_s (cfg s)) ;;
     if negb opened then brk
     else
       s <- read ;;
       match tester_result (st m s) with
       | None => raise "AttributeError"
       | Some r =>
           let verdict := PyStr.upper (PyStr.strip r) in
           plan <- (if (verdict =? "PASS")%string then ret (plan_place_pass m s)
                    else if (verdict =? "FAIL")%string then ret (plan_place_fail m s)
                    else (say ("[M" ++ digit m ++ "] Invalid test result: " ++ r) ;;
                          brk)) ;;
           placed <- _run_micro_plan plan (plan_timeout_s (cfg s)) ;;
           if negb placed then brk
           else
             perform (assign (upd_st m (set_tester_loaded false))) ;;
             perform (assign (upd_st m (set_tester_result None))) ;;
             ret true
       end
   else ret progressed)%run.

(** "LOAD next PCB if idle & slots remain" for one machine *)
Definition load (m : Machine) (progressed : bool) : Run bool :=
  (s <- read ;;
   if (tester_commready (st m s) && negb progressed
       && negb (tester_operating (st m s)) && negb (tester_loaded (st m s)))%bool
   then
     match current_slotN (st m s) with
     | None => raise "AttributeError"
     | Some k =>
         if k <=? capacity m s then
           picked <- _run_micro_plan (plan_pick m s k) (plan_timeout_s (cfg s)) ;;
           if negb picked then brk
           else
             s <- read ;;
             closed <- _run_micro_plan (plan_close m s) (plan_timeout_s (cfg s)) ;;
             if negb closed then brk
             else
               perform (assign (upd_st m (set_awaiting_result true))) ;;
               s <- read ;;
               match current_slotN (st m s) with
               | None => raise "AttributeError"
               | Some k' =>
                   perform (assign (upd_st m (set_current_slotN (Some (k' + 1))))) ;;
                   perform (assign (upd_st m (set_tester_operating true))) ;;
                   perform (assign (upd_st m (set_tester_loaded true))) ;;
                   ret true
               end
         else ret progressed
     end
   else ret progressed)%run.

(** [mN_done] *)
Definition machine_done (m : Machine) : Run bool :=
  (s <- read ;;
   match current_slotN (st m s) with
   | None => raise "AttributeError"
   | Some k =>
       ret ((capacity m s <? k) && negb (tester_loaded (st m s))
            && negb (tester_operating (st m s)))%bool
   end)%run.

(** The four guarded blocks of one pass, in the order of the source. *)
Definition transitions : Run bool :=
  (p <- unload M1 false ;;
   p <- load M1 p ;;
   p <- unload M2 p ;;
   load M2 p)%run.

(** The end of one pass: the exit test and the idle sleep. *)
Definition finish_pass (progressed : bool) : Run unit :=
  (m1_done <- machine_done M1 ;;
   m2_done <- machine_done M2 ;;
   if (m1_done && m2_done)%bool then
     say "[SEQ] All slots processed for both machines — exiting." ;;
     brk
   else if negb progressed then nap 20
   else ret tt)%run.

(** What one pass does once it is past the pause and stop checks. *)
Definition after_checks : Run unit :=
  (absorb M1 ;;
   absorb M2 ;;
   progressed <- transitions ;;
   finish_pass progressed)%run.

(** The body of the [while not self._stop_flag] loop. *)
Definition loop_body : Run unit :=
  (_wait_if_user_paused ;;
   s <- read ;;
   if _stop_flag s then brk
   else after_checks)%run.

(** The [while] loop; [fuel] bounds the number of passes. *)
Fixpoint worker_loop (fuel : nat) : Run unit :=
  fun sched w =>
    match fuel with
    | O => None
    | S n =>
        if _stop_flag (sq w) then Some (Ok tt, sched, w)
        else
          match loop_body sched w with
          | None => None
          | Some (Ok _, sched', w') => worker_loop n sched' w'
          | Some (Brk, sched', w') => Some (Ok tt, sched', w')
          | Some (Raise e, sched', w') => Some (Raise e, sched', w')
          end
    end.

(** What [ping_serial] finds. *)
Inductive Ping :=
| PingOk
| PingNoPort                  (* no handle, or the port is not open *)
| PingError (e : string).     (* the write raised *)

Definition ping_serial (m : Machine) (p : Ping) : bool * list Event :=
  match p with
  | PingOk => (true, [])
  | PingNoPort => (false, [])
  | PingError e => (false, [Log ("[M" ++ digit m ++ "] ping failed: " ++ e)])
  end.

(** [_test_comms], given what the two pings find. *)
Definition _test_comms (p1 p2 : Ping) : Act := fun s =>
  let '(ok1, e1) := ping_serial M1 p1 in
  let s := upd_st M1 (set_tester_commready ok1) s in
  let '(ok2, e2) := ping_serial M2 p2 in
  let s := upd_st M2 (set_tester_commready ok2) s in
  (s, (e1 ++ e2 ++ [Log ("[SEQ] Comm check → M1: " ++ PyStr.of_bool ok1
                          ++ ", M2: " ++ PyStr.of_bool ok2)])%list).

(** [getattr(self, "current_slotN", 1)] written back to the attribute. *)
Definition persist_slot (m : Machine) : Act :=
  assign (upd_st m (fun t =>
    set_current_slotN (Some (match current_slotN t with
                             | Some k => k
                             | None => 1
                             end)) t)).

(** The statements of [_worker] before its [try]. *)
Definition worker_prologue (p1 p2 : Ping) : Act :=
  (fun s => log ("[SEQ] Worker alive: stop=" ++ PyStr.of_bool (_stop_flag s)) s)
  >> _test_comms p1 p2
  >> (fun s => log ("[SEQ] Comm Ready Status → M1: "
                    ++ PyStr.of_bool (tester_commready (st1 s))
                    ++ ", M2: " ++ PyStr.of_bool (tester_commready (st2 s))) s)
  >> (fun s => log ("[SEQ] Tray Sizes → M1: " ++ PyStr.of_int (capacity M1 s)
                    ++ ", M2: " ++ PyStr.of_int (capacity M2 s)) s)
  >> persist_slot M1
  >> persist_slot M2.

(** The [finally] block of [_worker]. *)
Definition worker_finally : Act :=
  log "Sequencer HAS ENDED"
  >> stop_listener M1
  >> stop_listener M2
  >> reset
  >> assign (set_th false).

(** The state in which the [while] loop of [_worker] is left. *)
Definition worker_try (p1 p2 : Ping) : Run unit :=
  (perform (worker_prologue p1 p2) ;;
   fun sched w => worker_loop (S (List.length sched)) sched w)%run.

(** [_worker]: the prologue, the loop, then the [finally] block whatever
    the loop did; an exception of the loop is raised again after it. *)
Definition _worker (p1 p2 : Ping) : Run unit :=
  fun sched w =>
    match worker_try p1 p2 sched w with
    | None => None
    | Some (r, sched', w') => Some (r, sched', act worker_finally w')
    end.

(** ** Vocabulary of the properties *)

(** The [machine_id] under which a machine is addressed. *)
Definition machine_id (m : Machine) : Z :=
  match m with M1 => 1 | M2 => 2 end.

(** A verdict token submitted for a machine, as a call. *)
Definition submit (d : Machine * option string) : Call :=
  CallTestComplete (machine_id (fst d)) (snd d).

(** The line logged for a verdict nobody waits for. *)
Definition ignored_line (m : Machine) : Event :=
  Log ("[M" ++ digit m ++ "] Ignored result (not awaiting)").

(** ** Example runs *)

(** The adapter reports that the plan is finished. *)
Definition plan_finished : Call := CallBackendEvent BackendEvents.STOPPED true.

(** The adapter raises a fault. *)
Definition fault_raised : Call := CallBackendEvent BackendEvents.FAULT true.

(** A yield at clock [t] during which the calls [cs] are made; a request
    made at it is accepted at speed 100. *)
Definition yield_at (t : Z) (cs : list Call) : Yield :=
  {| y_calls := cs; y_clock := t; y_start := Started 100 |}.

Definition world_of (s : Sequencer) : World :=
  {| sq := s; clock := 0; trace := [] |}.

(** A sequencer built from the default configuration. *)
Definition fresh : Sequencer := fst (init default_config).

(** The same after [start_seq_worker()]. *)
Definition started : Sequencer := fst (start_seq_worker None fresh).


(** Machine 1 is loaded (pick and close finish); the operator presses stop
    while machine 2 is being loaded. *)
Definition stopped_run_schedule : list Yield :=
  [yield_at 10 [plan_finished]; yield_at 20 [plan_finished];
   yield_at 30 [CallStop]].

(** That run up to the moment the loop is left. *)
Definition stopped_run_at_exit : option (Res unit * list Yield * World) :=
  worker_try PingOk PingOk stopped_run_schedule (world_of started).

(** That run including the [finally] block. *)
Definition stopped_run : option (Res unit * list Yield * World) :=
  _worker PingOk PingOk stopped_run_schedule (world_of started).

(** The world a finished run leaves. *)
Definition world_left_by (r : option (Res unit * list Yield * World)) : World :=
  match r with
  | Some (_, _, w) => w
  | None => world_of fresh
  end.

(** The object a finished run leaves. *)
Definition left_by (r : option (Res unit * list Yield * World)) : Sequencer :=
  sq (world_left_by r).

(** ** Vocabulary of the micro-plan runner *)

(** The world in which [_run_micro_plan] makes its first poll, after a
    request accepted at [speed] during the yield [y]. *)
Definition at_first_poll (plan_name : string) (speed : Z) (y : Yield)
  (w : World) : World :=
  resume_after y
    (emit [StartPlan plan_name speed]
       (act (assign (set_fault_evt false))
          (act (assign (set_plan_done_evt false))
             (act (log ("→ Start plan: " ++ plan_name)) w)))).

(** No exit condition of the poll loop holds in [w]. *)
Definition undecided (timeout_s t0 : Z) (w : World) : bool :=
  (negb (_fault_evt (sq w)) && negb (_plan_done_evt (sq w))
   && negb (timeout_s <? clock w - t0) && negb (_stop_flag (sq w)))%bool.

(** The world after the poll loop slept through the yields [ys], each of
    its polls before a sleep having been undecided. *)
Fixpoint waits (timeout_s t0 : Z) (ys : list Yield) (w : World) : option World :=
  match ys with
  | [] => Some w
  | y :: rest =>
      if undecided timeout_s t0 w then waits timeout_s t0 rest (sleep 50 y w)
      else None
  end.

(** An accepted request at clock 10, then one sleep during which the
    adapter reports both a fault and the end of the plan. *)
Definition fault_and_done_schedule : list Yield :=
  [yield_at 10 []; yield_at 60 [plan_finished; fault_raised]].

(** ** Vocabulary of the exit path *)

(** The report of [get_state()] for a sequencer that is not running and has
    its legacy counters at their initial values. *)
Definition idle_report : StateReport :=
  {| slot := 1; step := 0; running := false; preamble_done := false |}.

(** [es] requests no plan from the adapter. *)
Definition no_plan (es : list Event) : Prop :=
  Forall (fun e => is_StartPlan e = false) es.

(** The world of the poll that follows the sleep of
    [fault_and_done_schedule], for the plan "OpenMachine". *)
Definition fault_and_done_world : World :=
  sleep 50 (yield_at 60 [plan_finished; fault_raised])
    (at_first_poll "OpenMachine" 100 (yield_at 10 []) (world_of started)).

(** ** Vocabulary of invariants *)

(** Every call made during the yields of [sched] satisfies [Q]. *)
Definition quiet_calls (Q : Call -> Prop) (sched : list Yield) : Prop :=
  Forall (fun y => Forall Q (y_calls y)) sched.

(** The computation [c] keeps the property [P] of the object, as long as
    the other threads only make calls that satisfy [Q]. *)
Definition keeps {A : Type} (P : Sequencer -> Prop) (Q : Call -> Prop)
  (c : Run A) : Prop :=
  forall sched w r sched' w',
    quiet_calls Q sched -> P (sq w) ->
    c sched w = Some (r, sched', w') ->
    P (sq w') /\ quiet_calls Q sched'.

Definition any_call (c : Call) : Prop := True.

(** The states of the object in its life: construction, calls from other
    threads, and the worker's code run against any schedule. *)
Inductive reachable : Sequencer -> Prop :=
| reach_init (config : SequencerConfig) :
    reachable (fst (init config))
| reach_call (c : Call) (s : Sequencer) :
    reachable s -> reachable (fst (apply_call c s))
| reach_plan (plan_name : string) (timeout_s : Z) sched w r sched' w' :
    reachable (sq w) ->
    _run_micro_plan plan_name timeout_s sched w = Some (r, sched', w') ->
    reachable (sq w')
| reach_absorb (m : Machine) sched w r sched' w' :
    reachable (sq w) ->
    absorb m sched w = Some (r, sched', w') ->
    reachable (sq w')
| reach_unload (m : Machine) (p : bool) sched w r sched' w' :
    reachable (sq w) ->
    unload m p sched w = Some (r, sched', w') ->
    reachable (sq w')
| reach_load (m : Machine) (p : bool) sched w r sched' w' :
    reachable (sq w) ->
    load m p sched w = Some (r, sched', w') ->
    reachable (sq w')
| reach_pass sched w r sched' w' :
    reachable (sq w) ->
    loop_body sched w = Some (r, sched', w') ->
    reachable (sq w')
| reach_loop (p1 p2 : Ping) sched w r sched' w' :
    reachable (sq w) ->
    worker_try p1 p2 sched w = Some (r, sched', w') ->
    reachable (sq w')
| reach_worker (p1 p2 : Ping) sched w r sched' w' :
    reachable (sq w) ->
    _worker p1 p2 sched w = Some (r, sched', w') ->
    reachable (sq w').

(** What the verdict attribute of a machine can hold: nothing, or a token
    as [external_test_complete] normalises it. *)
Definition verdict_shape (r : option string) : Prop :=
  r = None \/ exists token : option string, r = Some (normalize token).

Definition verdicts_normalised (s : Sequencer) : Prop :=
  forall m : Machine, verdict_shape (tester_result (st m s)).

(** Both machines are loaded; the tester of machine 1 then answers
    "ERROR_9" and the operator presses stop. *)
Definition error_token_schedule : list Yield :=
  [yield_at 10 [plan_finished]; yield_at 20 [plan_finished];
   yield_at 30 [plan_finished]; yield_at 40 [plan_finished];
   yield_at 50 [CallTestComplete 1 (Some "ERROR_9"); CallStop]].

Definition error_token_run : option (Res unit * list Yield * World) :=
  worker_try PingOk PingOk error_token_schedule (world_of started).

(** Machine 1 holds a unit whose verdict PASS has been delivered. *)
Definition verdict_in : Sequencer :=
  upd_st M1 (fun t => set_tester_commready true
                        (set_tester_loaded true
                           (set_tester_result (Some "PASS")
                              (set_current_slotN (Some 2) t)))) fresh.

(** The open plan and the place plan both finish. *)
Definition two_plans_schedule : list Yield :=
  [yield_at 10 [plan_finished]; yield_at 20 [plan_finished]].

Definition unloaded_world : World :=
  match unload M1 false two_plans_schedule (world_of verdict_in) with
  | Some (_, _, w) => w
  | None => world_of fresh
  end.

(** ** Vocabulary of one pass of the loop *)

(** Both slot attributes exist, as they do once [_worker] has run its
    prologue. *)
Definition slots_exist (s : Sequencer) : Prop :=
  current_slotN (st M1 s) <> None /\ current_slotN (st M2 s) <> None.

(** The guard of "UNLOAD on result", without its [not progressed]. *)
Definition unload_guard (m : Machine) (s : Sequencer) : bool :=
  (tester_commready (st m s) && negb (tester_operating (st m s))
   && tester_loaded (st m s) && is_str (tester_result (st m s)))%bool.

(** The guard of "LOAD next PCB", without its [not progressed]. *)
Definition load_guard (m : Machine) (s : Sequencer) : bool :=
  (tester_commready (st m s) && negb (tester_operating (st m s))
   && negb (tester_loaded (st m s))
   && match current_slotN (st m s) with
      | Some k => k <=? capacity m s
      | None => false
      end)%bool.

Inductive Transition := Unload (m : Machine) | Load (m : Machine).

Definition guard (t : Transition) (s : Sequencer) : bool :=
  match t with
  | Unload m => unload_guard m s
  | Load m => load_guard m s
  end.

Definition scan_order : list Transition :=
  [Unload M1; Load M1; Unload M2; Load M2].

(** The first transition of the scan order whose guard holds. *)
Definition first_eligible (s : Sequencer) : option Transition :=
  find (fun t => guard t s) scan_order.

(** The block of the source that carries out a transition. *)
Definition attempt (t : Transition) : Run bool :=
  match t with
  | Unload m => unload m false
  | Load m => load m false
  end.

(** One pass as the specification words it: attempt the first eligible
    transition and no other; then the exit test, with the idle sleep when
    nothing was eligible. *)
Definition pass_by_first_eligible : Run unit :=
  (s <- read ;;
   match first_eligible s with
   | Some t => attempt t ;; finish_pass true
   | None => finish_pass false
   end)%run.

(** The world after "absorb tester completions" for one machine. *)
Definition absorb_world (m : Machine) (w : World) : World :=
  if tester_done_evt (st m (sq w)) then
    act (assign (upd_st m (set_tester_operating false)))
      (act (assign (upd_st m (set_tester_done_evt false))) w)
  else w.

(** The world after the absorb step of a pass. *)
Definition absorbed (w : World) : World :=
  absorb_world M2 (absorb_world M1 w).

(** The exit test of a pass ([m1_done and m2_done]) when the slot
    attributes exist. *)
Definition station_done (m : Machine) (s : Sequencer) : bool :=
  match current_slotN (st m s) with
  | Some k => ((capacity m s <? k) && negb (tester_loaded (st m s))
               && negb (tester_operating (st m s)))%bool
  | None => false
  end.

Definition all_done (s : Sequencer) : bool :=
  (station_done M1 s && station_done M2 s)%bool.

(** A started sequencer after the prologue of [_worker], both testers
    answering the ping. *)
Definition ready : Sequencer := fst (worker_prologue PingOk PingOk started).

(** ** Vocabulary of invalid verdicts *)

(** The trimmed, upper-cased text of a token contains neither PASS nor
    FAIL. *)
Definition unrecognised (token : option string) : Prop :=
  let v := PyStr.upper (PyStr.strip (match token with
                                     | Some x => x
                                     | None => ""
                                     end)) in
  PyStr.contains "PASS" v = false /\ PyStr.contains "FAIL" v = false.

(** A token of ASCII text (or no token). *)
Definition ascii_token (token : option string) : Prop :=
  match token with
  | Some x => PyStr.is_ascii x = true
  | None => True
  end.

(** The report of an invalid verdict. *)
Definition invalid_line (m : Machine) (r : string) : Event :=
  Log ("[M" ++ digit m ++ "] Invalid test result: " ++ r).

Definition is_invalid_report (e : Event) : bool :=
  match e with
  | Log msg => PyStr.contains "Invalid test result" msg
  | _ => false
  end.

(** The verdict [r] of machine [m] has been delivered and nothing is
    awaited any more; it may since have been cleared by a [reset]. *)
Definition verdict_held (m : Machine) (r : string) (s : Sequencer) : Prop :=
  awaiting_result (st m s) = false
  /\ (tester_result (st m s) = Some r \/ tester_result (st m s) = None).

(** [n] passes of the loop, none of which leaves it. *)
Fixpoint passes (n : nat) (sched : list Yield) (w : World)
  : option (list Yield * World) :=
  match n with
  | O => Some (sched, w)
  | S k =>
      match loop_body sched w with
      | Some (Ok _, sched', w') => passes k sched' w'
      | _ => None
      end
  end.

Definition world_after (r : option (list Yield * World)) : World :=
  match r with
  | Some (_, w) => w
  | None => world_of fresh
  end.

(** Both machines are loaded; during the idle sleep that follows, the
    tester of machine 1 answers "ERROR_9". *)
Definition loading_schedule : list Yield :=
  [yield_at 10 [plan_finished]; yield_at 20 [plan_finished];
   yield_at 30 [plan_finished]; yield_at 40 [plan_finished];
   yield_at 50 [CallTestComplete 1 (Some "ERROR_9")]].

(** The world in which both machines wait for their verdict. *)
Definition both_loaded : World :=
  world_after (passes 2 loading_schedule (world_of ready)).

(** The world at the start of the pass that follows the answer. *)
Definition answered : World :=
  world_after (passes 3 loading_schedule (world_of ready)).

(** The open plan of machine 1 finishes. *)
Definition open_finishes : list Yield := [yield_at 60 [plan_finished]].

Definition opened_world : World :=
  match _run_micro_plan "OpenMachine" 120000 open_finishes (absorbed answered) with
  | Some (_, _, w) => w
  | None => world_of fresh
  end.

(** The same run from the start of the worker, the adapter raising a
    fault during the open plan of machine 1. *)
Definition faulted_open_schedule : list Yield :=
  (loading_schedule ++ [yield_at 60 [fault_raised]])%list.

Definition faulted_open_run : option (Res unit * list Yield * World) :=
  _worker PingOk PingOk faulted_open_schedule (world_of started).

(** The line [msg] was logged. *)
Definition logged (msg : string) (es : list Event) : bool :=
  existsb (fun e => match e with
                    | Log x => (x =? msg)%string
                    | _ => false
                    end) es.

(** The plans requested, in order. *)
Definition plans_requested (es : list Event) : list string :=
  flat_map (fun e => match e with
                     | StartPlan plan_name _ => [plan_name]
                     | _ => []
                     end) es.

(** ** Vocabulary of empty trays *)

(** The machine holds no unit and runs no test, and its slot index, if it
    exists yet, is at least 1: the state of a machine between runs. *)
Definition at_rest (m : Machine) (s : Sequencer) : Prop :=
  tester_loaded (st m s) = false
  /\ tester_operating (st m s) = false
  /\ match current_slotN (st m s) with
     | Some k => 1 <= k
     | None => True
     end.

(** A machine with an empty tray, at rest inside a run. *)
Definition idle_empty (m : Machine) (s : Sequencer) : Prop :=
  capacity m s = 0
  /\ tester_loaded (st m s) = false
  /\ tester_operating (st m s) = false
  /\ exists k : Z, current_slotN (st m s) = Some k /\ 1 <= k.

(** A call that does not change the tray sizes. *)
Definition static_call (c : Call) : Prop :=
  match c with
  | CallStart (Some _) => False
  | _ => True
  end.

(** A sequencer started with both trays empty. *)
Definition started_empty : Sequencer := fst (start_seq_worker (Some 0) fresh).

(** ** Vocabulary of further properties *)

(** No other thread makes a call during the yields of [sched]. *)
Definition call_free (sched : list Yield) : Prop :=
  Forall (fun y => y_calls y = []) sched.


(** The slot index of a machine with a non-negative tray size stays
    between 1 and the size plus one. *)
Definition slot_bounded (m : Machine) (s : Sequencer) : Prop :=
  0 <= capacity m s
  /\ exists k : Z, current_slotN (st m s) = Some k /\ 1 <= k <= capacity m s + 1.

(** The object after a successful load of machine [m] whose slot index
    was [k]. *)
Definition loaded_state (m : Machine) (k : Z) (s : Sequencer) : Sequencer :=
  upd_st m (set_tester_loaded true)
    (upd_st m (set_tester_operating true)
       (upd_st m (set_current_slotN (Some (k + 1)))
          (upd_st m (set_awaiting_result true) s))).

(** The object after a completed unload of machine [m]. *)
Definition unloaded_state (m : Machine) (s : Sequencer) : Sequencer :=
  upd_st m (set_tester_result None) (upd_st m (set_tester_loaded false) s).

(** The place plan that the verdict selects. *)
Definition place_plan (m : Machine) (verdict : string) (s : Sequencer)
  : option string :=
  if (verdict =? "PASS")%string then Some (plan_place_pass m s)
  else if (verdict =? "FAIL")%string then Some (plan_place_fail m s)
  else None.

(** A yield during which the operator presses stop. *)
Definition stop_pressed : Yield := yield_at 60 [plan_finished; CallStop].

(** The world of a poll of the plan "OpenMachine" at clock 10 with nothing
    reported yet. *)
Definition polling : World :=
  at_first_poll "OpenMachine" 100 (yield_at 10 []) (world_of started).

(** A sequencer on which the adapter has raised a fault. *)
Definition faulted : Sequencer := fst (on_backend_event BackendEvents.FAULT true started).

(** The operator pauses; during the second sleep of the wait the operator
    resumes. *)
Definition paused_example : Sequencer := fst (pause started).

Definition resume_schedule : list Yield :=
  [yield_at 50 []; yield_at 100 [CallResume]; yield_at 150 []].

(** A world in which machine 1 can be loaded from slot 1. *)
Definition ready_world : World := world_of ready.

(** The world in which the pick plan of machine 1 has finished. *)
Definition picked_world : World :=
  match _run_micro_plan "PickFromTray_1" 120000 two_plans_schedule ready_world with
  | Some (_, _, w) => w
  | None => world_of fresh
  end.

(** The world in which the close plan of machine 1 has finished too. *)
Definition closed_world : World :=
  match _run_micro_plan "CloseMachine" 120000 [yield_at 20 [plan_finished]]
          picked_world with
  | Some (_, _, w) => w
  | None => world_of fresh
  end.

(** The world in which the open plan of the unit of [verdict_in] has
    finished, and the one in which its place plan has finished too. *)
Definition verdict_opened : World :=
  match _run_micro_plan "OpenMachine" 120000 two_plans_schedule
          (world_of verdict_in) with
  | Some (_, _, w) => w
  | None => world_of fresh
  end.

Definition verdict_placed : World :=
  match _run_micro_plan "PlaceToOutputPass" 120000 [yield_at 20 [plan_finished]]
          verdict_opened with
  | Some (_, _, w) => w
  | None => world_of fresh
  end.

(** No character of [s] is a brace. *)
Fixpoint brace_free (s : string) : bool :=
  match s with
  | EmptyString => true
  | String c r =>
      (negb (Ascii.eqb c "{") && (negb (Ascii.eqb c "}") && brace_free r))%bool
  end.

(** The counters that [get_state()] reports are at their initial values. *)
Definition legacy_counters_initial (s : Sequencer) : Prop :=
  current_slot s = 1 /\ current_step s = 0 /\ _preamble_done s = false.

(** Neither tester answered the ping. *)
Definition no_comm (s : Sequencer) : Prop :=
  tester_commready (st M1 s) = false /\ tester_commready (st M2 s) = false.

(** A started sequencer after the prologue of [_worker], no tester
    answering the ping. *)
Definition deaf : Sequencer := fst (worker_prologue PingNoPort PingNoPort started).

(** The computation [c] never gives back more of the schedule than it
    got. *)
Definition shrinks {A : Type} (c : Run A) : Prop :=
  forall sched w r sched' w',
    c sched w = Some (r, sched', w') ->
    (List.length sched' <= List.length sched)%nat.

(** When [c] ends normally it has consumed at least one yield. *)
Definition consumes {A : Type} (c : Run A) : Prop :=
  forall sched w a sched' w',
    c sched w = Some (Ok a, sched', w') ->
    (List.length sched' < List.length sched)%nat.

(** Run from an object with [Pre], among calls that satisfy [Q], the
    computation [c] leaves an object with [Post], however it ends. *)
Definition leads {A : Type} (Pre Post : Sequencer -> Prop) (Q : Call -> Prop)
  (c : Run A) : Prop :=
  forall sched w r sched' w',
    quiet_calls Q sched -> Pre (sq w) ->
    c sched w = Some (r, sched', w') ->
    Post (sq w') /\ quiet_calls Q sched'.


(** The slot index of a machine points into its tray. *)
Definition slot_within (m : Machine) (s : Sequencer) : Prop :=
  exists k : Z, current_slotN (st m s) = Some k /\ 1 <= k <= capacity m s.

(** What the ping of machine [m] finds, among the two of a run. *)
Definition ping_of (m : Machine) (p1 p2 : Ping) : Ping :=
  match m with M1 => p1 | M2 => p2 end.

(** * Properties *)

(** ** Basic facts about [Act] *)

Lemma and_then_eq (a b : Act) (s : Sequencer) :
  (a >> b) s = (fst (b (fst (a s))), (snd (a s) ++ snd (b (fst (a s))))%list).
Proof.
  unfold and_then. destruct (a s) as [s1 e1]. cbn.
  destruct (b s1) as [s2 e2]. reflexivity.
Qed.

Lemma st_set_st_same (m : Machine) (t : Tester) (s : Sequencer) :
  st m (set_st m t s) = t.
Proof. destruct m; reflexivity. Qed.

Lemma st_set_st_other (m m' : Machine) (t : Tester) (s : Sequencer) :
  m <> m' -> st m' (set_st m t s) = st m' s.
Proof. destruct m, m'; intros H; try reflexivity; congruence. Qed.

Lemma upd_st_id (m : Machine) (s : Sequencer) :
  upd_st m (fun t => t) s = s.
Proof. destruct m, s; reflexivity. Qed.

(** ** Recovery (C8) *)

(** C8. [_recover] returns [False] from every state, leaves the object as
    it was and emits one log line, the one that asks for human
    intervention: nothing is cleared, enabled or moved. *)
Theorem recover_always_false :
  forall s : Sequencer,
    _recover s =
      (false, s,
       [Log "Recovery blocked: requires human intervention (no auto clear / no auto enable)."]).
Proof. intros s. reflexivity. Qed.

(** ** A start request while the worker runs (C10) *)

Lemma capacity_set_cfg (m : Machine) (c : SequencerConfig) (s : Sequencer) :
  capacity m (set_cfg c s) = total_slots (mc m c).
Proof. reflexivity. Qed.



(** ** Verdict delivery (C5) *)

Lemma apply_calls_app (a b : list Call) (s : Sequencer) :
  apply_calls (a ++ b) s =
    (fst (apply_calls b (fst (apply_calls a s))),
     (snd (apply_calls a s) ++ snd (apply_calls b (fst (apply_calls a s))))%list).
Proof.
  revert s. induction a as [|c a IH]; intros s; cbn [apply_calls app].
  - unfold assign. cbn. destruct (apply_calls b s); reflexivity.
  - rewrite !and_then_eq. rewrite IH. cbn. now rewrite app_assoc.
Qed.

Lemma deliver_not_awaiting (m : Machine) (v : string) (s : Sequencer) :
  awaiting_result (st m s) = false ->
  deliver m v s = (s, [ignored_line m]).
Proof. intros H. unfold deliver. rewrite H. reflexivity. Qed.

Lemma external_test_complete_machine (m : Machine) (v : option string) :
  external_test_complete (machine_id m) v = deliver m (normalize v).
Proof. destruct m; reflexivity. Qed.

(** C5. In any sequence of verdict deliveries, a delivery that finds its
    machine not awaiting a result changes nothing of the object (so neither
    the verdict, nor loaded, testing, awaiting, nor anything an unload guard
    reads) and adds the one line "Ignored result (not awaiting)". *)
Theorem stale_verdict_is_discarded :
  forall (earlier : list (Machine * option string)) (m : Machine)
         (v : option string) (s : Sequencer),
    awaiting_result (st m (fst (apply_calls (map submit earlier) s))) = false ->
    apply_calls (map submit (earlier ++ [(m, v)])) s =
      (fst (apply_calls (map submit earlier) s),
       (snd (apply_calls (map submit earlier) s) ++ [ignored_line m])%list).
Proof.
  intros earlier m v s H.
  rewrite map_app, apply_calls_app. cbn [map apply_calls submit fst snd apply_call].
  rewrite and_then_eq, external_test_complete_machine.
  rewrite (deliver_not_awaiting _ _ _ H). reflexivity.
Qed.

Lemma stale_verdict_is_discarded_witness :
  awaiting_result
    (st M1 (fst (apply_calls (map submit [(M2, Some "PASS")]) fresh))) = false
  /\ apply_calls (map submit ([(M2, Some "PASS")] ++ [(M1, Some "FAIL")])) fresh =
      (fst (apply_calls (map submit [(M2, Some "PASS")]) fresh),
       (snd (apply_calls (map submit [(M2, Some "PASS")]) fresh)
          ++ [ignored_line M1])%list).
Proof.
  split; [reflexivity|].
  apply (stale_verdict_is_discarded [(M2, Some "PASS")] M1 (Some "FAIL") fresh).
  reflexivity.
Defined.

(** ** Reset (C2) *)

(** What [reset] assigns, attribute by attribute. *)
Lemma reset_assigns (s : Sequencer) :
  reset s =
    ({| cfg := cfg s; current_slot := 1; current_step := 0;
        _preamble_done := false; _th := _th s; _fault := false;
        _plan_done_evt := false; _fault_evt := false; _stop_flag := false;
        _user_pause := false;
        st1 := reset_tester (st1 s); st2 := reset_tester (st2 s) |},
     [Log "RESET SEQUENCER CALLED";
      Log "Sequencer reset: Reload Trays and Open Machines"]).
Proof. reflexivity. Qed.

Lemma reset_tester_assigns (t : Tester) :
  reset_tester t =
    {| tester_done_evt := false; serial_th := serial_th t;
       halt_serial := halt_serial t; tester_commready := tester_commready t;
       tester_result := None; tester_operating := false;
       tester_loaded := false; awaiting_result := awaiting_result t;
       current_slotN := Some 1 |}.
Proof. reflexivity. Qed.

(** C2 (the code departs from it). After a run that was stopped while
    machine 1 waited for its verdict, [reset()] leaves [awaiting_result1]
    set, although it is clear in a newly built sequencer; and from whatever
    state, [reset] never writes [awaiting_result]. *)
Theorem reset_leaves_awaiting_result :
  awaiting_result (st M1 (left_by stopped_run)) = true
  /\ awaiting_result (st M1 (fst (reset (left_by stopped_run)))) = true
  /\ awaiting_result (st M1 fresh) = false
  /\ forall (s : Sequencer) (m : Machine),
       awaiting_result (st m (fst (reset s))) = awaiting_result (st m s).
Proof.
  split; [vm_compute; reflexivity|].
  split; [vm_compute; reflexivity|].
  split; [reflexivity|].
  intros s m. rewrite reset_assigns. destruct m; reflexivity.
Qed.

(** ** The micro-plan runner (C3) *)

Lemma run_micro_plan_started (plan_name : string) (timeout_s speed : Z)
  (y : Yield) (sched : list Yield) (w : World) :
  y_start y = Started speed ->
  _run_micro_plan plan_name timeout_s (y :: sched) w =
    poll plan_name timeout_s (y_clock y) sched (at_first_poll plan_name speed y w).
Proof.
  intros Hy. unfold _run_micro_plan, bind, say, perform, request.
  cbn [negb]. rewrite Hy. reflexivity.
Qed.

Lemma poll_unfold (plan_name : string) (timeout_s t0 : Z)
  (sched : list Yield) (w : World) :
  poll plan_name timeout_s t0 sched w =
    if _fault_evt (sq w) then
      Some (Ok false, sched,
            emit [Log ("Plan '" ++ plan_name ++ "' interrupted by FAULT")] w)
    else if _plan_done_evt (sq w) then
      if _stop_flag (sq w) then
        Some (Ok false, sched,
              emit [Log ("<- Plan finished (Stop Requested): " ++ plan_name)] w)
      else
        Some (Ok true, sched, emit [Log ("← Plan finished: " ++ plan_name)] w)
    else if timeout_s <? clock w - t0 then
      Some (Ok false, sched,
            emit [Log ("Plan '" ++ plan_name ++ "' timeout ("
                       ++ PyStr.format_0f timeout_s ++ "s)");
                  BackendStop] w)
    else if _stop_flag (sq w) then Some (Ok false, sched, w)
    else
      match sched with
      | [] => None
      | y :: rest => poll plan_name timeout_s t0 rest (sleep 50 y w)
      end.
Proof. destruct sched; reflexivity. Qed.

Lemma poll_waits (plan_name : string) (timeout_s t0 : Z) (ys sched : list Yield) :
  forall w w' : World,
    waits timeout_s t0 ys w = Some w' ->
    poll plan_name timeout_s t0 (ys ++ sched) w =
      poll plan_name timeout_s t0 sched w'.
Proof.
  induction ys as [|y ys IH]; intros w w' H; cbn [waits] in H.
  - now inversion H.
  - destruct (undecided timeout_s t0 w) eqn:U; [|discriminate].
    unfold undecided in U.
    repeat (apply andb_prop in U; destruct U as [U ?]).
    rewrite negb_true_iff in *.
    cbn [app]. rewrite poll_unfold.
    repeat match goal with H : _ = false |- _ => rewrite H; clear H end.
    now apply IH.
Qed.

(** C3. A request accepted by the adapter, then any number of undecided
    polls, bring [_run_micro_plan] to a poll in the world [w']; there, in
    this order: a fault reported by the adapter gives [False] at once, even
    when the end of the plan was reported too; otherwise a reported end
    gives [False] when stop was requested and [True] when it was not;
    otherwise an elapsed time above the timeout gives [False] after a
    [backend.stop()]; and whenever stop is requested the poll gives
    [False] at once.  In each case no further yield is consumed. *)
Theorem run_micro_plan_poll_priority :
  forall (plan_name : string) (timeout_s speed : Z) (y : Yield)
         (ys sched : list Yield) (w w' : World),
    y_start y = Started speed ->
    waits timeout_s (y_clock y) ys (at_first_poll plan_name speed y w) = Some w' ->
    let result := _run_micro_plan plan_name timeout_s (y :: ys ++ sched) w in
    (_fault_evt (sq w') = true ->
     result = Some (Ok false, sched,
                    emit [Log ("Plan '" ++ plan_name ++ "' interrupted by FAULT")] w'))
    /\ (_fault_evt (sq w') = false -> _plan_done_evt (sq w') = true ->
        _stop_flag (sq w') = true ->
        result = Some (Ok false, sched,
                       emit [Log ("<- Plan finished (Stop Requested): " ++ plan_name)] w'))
    /\ (_fault_evt (sq w') = false -> _plan_done_evt (sq w') = true ->
        _stop_flag (sq w') = false ->
        result = Some (Ok true, sched,
                       emit [Log ("← Plan finished: " ++ plan_name)] w'))
    /\ (_fault_evt (sq w') = false -> _plan_done_evt (sq w') = false ->
        timeout_s < clock w' - y_clock y ->
        result = Some (Ok false, sched,
                       emit [Log ("Plan '" ++ plan_name ++ "' timeout ("
                                  ++ PyStr.format_0f timeout_s ++ "s)");
                             BackendStop] w'))
    /\ (_stop_flag (sq w') = true ->
        exists es : list Event, result = Some (Ok false, sched, emit es w')).
Proof.
  intros plan_name timeout_s speed y ys sched w w' Hy Hw result.
  assert (E : result = poll plan_name timeout_s (y_clock y) sched w').
  { unfold result. rewrite (run_micro_plan_started _ _ _ _ _ _ Hy).
    now apply poll_waits. }
  rewrite E, poll_unfold. clear E result.
  repeat split.
  - intros ->. reflexivity.
  - intros -> -> ->. reflexivity.
  - intros -> -> ->. reflexivity.
  - intros -> -> Ht. apply Z.ltb_lt in Ht. rewrite Ht. reflexivity.
  - intros Hs. rewrite Hs.
    destruct (_fault_evt (sq w')); [eexists; reflexivity|].
    destruct (_plan_done_evt (sq w')); [eexists; reflexivity|].
    destruct (timeout_s <? clock w' - y_clock y); [eexists; reflexivity|].
    exists []. unfold emit. rewrite app_nil_r. destruct w'; reflexivity.
Qed.

Lemma run_micro_plan_poll_priority_witness :
  y_start (yield_at 10 []) = Started 100
  /\ waits 120000 (y_clock (yield_at 10 []))
       [yield_at 60 [plan_finished; fault_raised]]
       (at_first_poll "OpenMachine" 100 (yield_at 10 []) (world_of started))
     = Some fault_and_done_world
  /\ _fault_evt (sq fault_and_done_world) = true
  /\ _plan_done_evt (sq fault_and_done_world) = true
  /\ _run_micro_plan "OpenMachine" 120000
       (yield_at 10 [] :: [yield_at 60 [plan_finished; fault_raised]] ++ [])
       (world_of started)
     = Some (Ok false, [],
             emit [Log ("Plan '" ++ "OpenMachine" ++ "' interrupted by FAULT")]
               fault_and_done_world).
Proof.
  split; [reflexivity|]. split; [reflexivity|].
  split; [reflexivity|]. split; [reflexivity|].
  exact (proj1 (run_micro_plan_poll_priority "OpenMachine" 120000 100
                  (yield_at 10 []) [yield_at 60 [plan_finished; fault_raised]]
                  [] (world_of started) fault_and_done_world
                  eq_refl eq_refl) eq_refl).
Defined.

(** ** The exit path of the worker (C1) *)

Lemma act_sq (a : Act) (w : World) : sq (act a w) = fst (a (sq w)).
Proof. unfold act. destruct (a (sq w)). reflexivity. Qed.

Lemma act_trace (a : Act) (w : World) :
  trace (act a w) = (trace w ++ snd (a (sq w)))%list.
Proof. unfold act. destruct (a (sq w)). reflexivity. Qed.

Lemma act_clock (a : Act) (w : World) : clock (act a w) = clock w.
Proof. unfold act. destruct (a (sq w)). reflexivity. Qed.

Lemma stop_listener_fst (m : Machine) (s : Sequencer) :
  fst (stop_listener m s) =
    upd_st m (fun t => match halt_serial t with
                       | Some _ => set_halt_serial (Some true) t
                       | None => t
                       end) s.
Proof.
  unfold stop_listener. cbn [fst]. unfold upd_st.
  destruct (halt_serial (st m s)); [reflexivity|].
  destruct m, s; reflexivity.
Qed.

(** The object after the [finally] block, whatever it was before. *)
Lemma worker_finally_state (s : Sequencer) (m : Machine) :
  let s' := fst (worker_finally s) in
  tester_loaded (st m s') = false
  /\ tester_operating (st m s') = false
  /\ tester_result (st m s') = None
  /\ tester_done_evt (st m s') = false
  /\ current_slotN (st m s') = Some 1
  /\ _stop_flag s' = false
  /\ _user_pause s' = false
  /\ get_state s' = idle_report.
Proof.
  unfold worker_finally. rewrite !and_then_eq. cbn [fst snd log assign].
  rewrite reset_assigns. cbn [fst].
  destruct m; cbn; repeat split.
Qed.

Lemma worker_finally_logs_only (s : Sequencer) :
  no_plan (snd (worker_finally s)).
Proof.
  unfold worker_finally, no_plan. rewrite !and_then_eq. cbn.
  repeat constructor.
Qed.

Lemma worker_exit (p1 p2 : Ping) (sched sched' : list Yield) (w w' : World)
  (r : Res unit) :
  _worker p1 p2 sched w = Some (r, sched', w') ->
  exists w_exit : World,
    worker_try p1 p2 sched w = Some (r, sched', w_exit)
    /\ w' = act worker_finally w_exit.
Proof.
  unfold _worker. intros H.
  destruct (worker_try p1 p2 sched w) as [[[r0 s0] w0]|]; [|discriminate].
  inversion H; subst. now exists w0.
Qed.

(** C1 (as the code has it). However the loop of [_worker] is left, the
    [finally] block then calls [reset()]: for both machines loaded, testing
    and the verdict are cleared and the slot index is back at 1, stop and
    pause are cleared, and [get_state()] reports slot 1, step 0, not
    running; the exit path requests no plan. *)
Theorem worker_exit_resets_stations :
  forall (p1 p2 : Ping) (sched sched' : list Yield) (w w' : World)
         (r : Res unit) (m : Machine),
    _worker p1 p2 sched w = Some (r, sched', w') ->
    tester_loaded (st m (sq w')) = false
    /\ tester_operating (st m (sq w')) = false
    /\ tester_result (st m (sq w')) = None
    /\ current_slotN (st m (sq w')) = Some 1
    /\ _stop_flag (sq w') = false
    /\ _user_pause (sq w') = false
    /\ get_state (sq w') = idle_report
    /\ exists w_exit : World,
         worker_try p1 p2 sched w = Some (r, sched', w_exit)
         /\ trace w' = (trace w_exit ++ snd (worker_finally (sq w_exit)))%list
         /\ no_plan (snd (worker_finally (sq w_exit))).
Proof.
  intros p1 p2 sched sched' w w' r m H.
  destruct (worker_exit _ _ _ _ _ _ _ H) as (w_exit & Htry & ->).
  rewrite act_sq.
  destruct (worker_finally_state (sq w_exit) m)
    as (Hl & Ho & Hr & _ & Hs & Hstop & Hp & Hg).
  repeat (split; [assumption|]).
  exists w_exit. split; [assumption|]. split.
  - apply act_trace.
  - apply worker_finally_logs_only.
Qed.

Lemma worker_exit_resets_stations_witness :
  _worker PingOk PingOk stopped_run_schedule (world_of started)
  = Some (Ok tt, [], world_left_by stopped_run)
  /\ tester_loaded (st M1 (sq (world_left_by stopped_run))) = false
  /\ tester_operating (st M1 (sq (world_left_by stopped_run))) = false
  /\ tester_result (st M1 (sq (world_left_by stopped_run))) = None
  /\ current_slotN (st M1 (sq (world_left_by stopped_run))) = Some 1
  /\ _stop_flag (sq (world_left_by stopped_run)) = false
  /\ _user_pause (sq (world_left_by stopped_run)) = false
  /\ get_state (sq (world_left_by stopped_run)) = idle_report
  /\ exists w_exit : World,
       worker_try PingOk PingOk stopped_run_schedule (world_of started)
       = Some (Ok tt, [], w_exit)
       /\ trace (world_left_by stopped_run)
          = (trace w_exit ++ snd (worker_finally (sq w_exit)))%list
       /\ no_plan (snd (worker_finally (sq w_exit))).
Proof.
  split; [vm_compute; reflexivity|].
  apply (worker_exit_resets_stations PingOk PingOk stopped_run_schedule []
           (world_of started) (world_left_by stopped_run) (Ok tt) M1).
  vm_compute; reflexivity.
Defined.

(** C1 (as the spec has it) fails: in the run stopped while machine 2 is
    being loaded, machine 1 is loaded, testing and at slot 2 when the loop
    is left, and not loaded, not testing and at slot 1 once the worker has
    ended; [get_state()] then reports the initial counters. *)
Lemma exit_path_rewinds_loaded_station :
  tester_loaded (st M1 (left_by stopped_run_at_exit)) = true
  /\ tester_operating (st M1 (left_by stopped_run_at_exit)) = true
  /\ current_slotN (st M1 (left_by stopped_run_at_exit)) = Some 2
  /\ tester_loaded (st M1 (left_by stopped_run)) = false
  /\ tester_operating (st M1 (left_by stopped_run)) = false
  /\ current_slotN (st M1 (left_by stopped_run)) = Some 1
  /\ get_state (left_by stopped_run) = idle_report.
Proof. vm_compute. repeat split. Qed.

(** ** Keeping a property of the object through the worker's code *)

Lemma emit_sq (es : list Event) (w : World) : sq (emit es w) = sq w.
Proof. reflexivity. Qed.

Lemma quiet_calls_any (sched : list Yield) : quiet_calls any_call sched.
Proof.
  unfold quiet_calls. apply Forall_forall. intros y _.
  apply Forall_forall. intros c _. exact I.
Qed.

Section Keeping.

Variable P : Sequencer -> Prop.
Variable Q : Call -> Prop.

Hypothesis call_keeps :
  forall (c : Call) (s : Sequencer), Q c -> P s -> P (fst (apply_call c s)).
Hypothesis clear_done_keeps :
  forall s : Sequencer, P s -> P (set_plan_done_evt false s).
Hypothesis clear_fault_keeps :
  forall s : Sequencer, P s -> P (set_fault_evt false s).

Lemma apply_calls_keeps (cs : list Call) :
  forall s : Sequencer, Forall Q cs -> P s -> P (fst (apply_calls cs s)).
Proof.
  induction cs as [|c cs IH]; intros s HQ HP; cbn [apply_calls].
  - exact HP.
  - rewrite and_then_eq. cbn [fst]. inversion HQ; subst.
    apply IH; [assumption|]. now apply call_keeps.
Qed.

Lemma resume_after_keeps (y : Yield) (w : World) :
  Forall Q (y_calls y) -> P (sq w) -> P (sq (resume_after y w)).
Proof.
  intros HQ HP. unfold resume_after. cbn [sq]. rewrite act_sq.
  now apply apply_calls_keeps.
Qed.

Lemma sleep_keeps (ms : Z) (y : Yield) (w : World) :
  Forall Q (y_calls y) -> P (sq w) -> P (sq (sleep ms y w)).
Proof. intros HQ HP. unfold sleep. now apply resume_after_keeps. Qed.

Lemma keeps_ret {A : Type} (a : A) : keeps P Q (ret a).
Proof. intros sched w r sched' w' Hq HP H. inversion H; subst. now split. Qed.

Lemma keeps_brk {A : Type} : keeps P Q (@brk A).
Proof. intros sched w r sched' w' Hq HP H. inversion H; subst. now split. Qed.

Lemma keeps_raise {A : Type} (e : string) : keeps P Q (@raise A e).
Proof. intros sched w r sched' w' Hq HP H. inversion H; subst. now split. Qed.

Lemma keeps_bind {A B : Type} (c : Run A) (k : A -> Run B) :
  keeps P Q c -> (forall a : A, keeps P Q (k a)) -> keeps P Q (bind c k).
Proof.
  intros Hc Hk sched w r sched' w' Hq HP H. unfold bind in H.
  destruct (c sched w) as [[[ra s1] w1]|] eqn:E; [|discriminate].
  destruct (Hc _ _ _ _ _ Hq HP E) as [HP1 Hq1].
  destruct ra; [now apply (Hk a _ _ _ _ _ Hq1 HP1 H) | |];
    inversion H; subst; now split.
Qed.

(** A [read] followed by code that may use what it read about a state
    with the property. *)
Lemma keeps_read {B : Type} (k : Sequencer -> Run B) :
  (forall s : Sequencer, P s -> keeps P Q (k s)) -> keeps P Q (bind read k).
Proof.
  intros Hk sched w r sched' w' Hq HP H. unfold bind, read in H.
  now apply (Hk (sq w) HP _ _ _ _ _ Hq HP H).
Qed.

Lemma keeps_perform (a : Act) :
  (forall s : Sequencer, P s -> P (fst (a s))) -> keeps P Q (perform a).
Proof.
  intros Ha sched w r sched' w' Hq HP H. unfold perform in H.
  inversion H; subst. rewrite act_sq. split; [now apply Ha | assumption].
Qed.

Lemma keeps_say (msg : string) : keeps P Q (say msg).
Proof. apply keeps_perform. intros s HP. exact HP. Qed.

Lemma keeps_wait : keeps P Q _wait_if_user_paused.
Proof.
  intros sched. induction sched as [|y rest IH]; intros w r sched' w' Hq HP H;
    cbn [_wait_if_user_paused] in H;
    destruct (_user_pause (sq w) && negb (_stop_flag (sq w)))%bool;
    try discriminate; try (inversion H; subst; now split).
  inversion Hq; subst.
  eapply IH; [eassumption| |exact H]. now apply sleep_keeps.
Qed.

Lemma keeps_poll (plan_name : string) (timeout_s t0 : Z) :
  keeps P Q (poll plan_name timeout_s t0).
Proof.
  intros sched. induction sched as [|y rest IH]; intros w r sched' w' Hq HP H;
    rewrite poll_unfold in H;
    destruct (_fault_evt (sq w)); try (inversion H; subst; now split);
    destruct (_plan_done_evt (sq w));
    try (destruct (_stop_flag (sq w)); inversion H; subst; now split);
    destruct (timeout_s <? clock w - t0); try (inversion H; subst; now split);
    destruct (_stop_flag (sq w)); try (inversion H; subst; now split);
    try discriminate.
  inversion Hq; subst.
  eapply IH; [eassumption| |exact H]. now apply sleep_keeps.
Qed.

Lemma keeps_nap (ms : Z) : keeps P Q (nap ms).
Proof.
  intros sched w r sched' w' Hq HP H. unfold nap in H.
  destruct sched as [|y rest]; [discriminate|].
  inversion Hq; subst. inversion H; subst.
  split; [now apply sleep_keeps | assumption].
Qed.

Lemma keeps_request (plan_name : string) : keeps P Q (request plan_name).
Proof.
  intros sched w r sched' w' Hq HP H. unfold request in H.
  destruct sched as [|y rest]; [discriminate|].
  inversion Hq; subst.
  destruct (y_start y); inversion H; subst; (split; [|assumption]);
    rewrite ?emit_sq; apply resume_after_keeps; assumption.
Qed.

Lemma keeps_run_micro_plan (plan_name : string) (timeout_s : Z) :
  keeps P Q (_run_micro_plan plan_name timeout_s).
Proof.
  unfold _run_micro_plan.
  apply keeps_bind; [apply keeps_say|intros _].
  apply keeps_bind; [apply keeps_perform; exact clear_done_keeps|intros _].
  apply keeps_bind; [apply keeps_perform; exact clear_fault_keeps|intros _].
  apply keeps_bind; [apply keeps_request|intros started].
  destruct started; cbn [negb].
  - intros sched w r sched' w' Hq HP H.
    now apply (keeps_poll _ _ _ _ _ _ _ _ Hq HP H).
  - apply keeps_ret.
Qed.

End Keeping.

(** ** The verdict attribute (C6) *)

(** Case analysis on the whole object, for the methods that only assign. *)
Ltac open_object s :=
  let t1 := fresh "t1" in
  let t2 := fresh "t2" in
  destruct s as [? ? ? ? ? ? ? ? ? ? t1 t2]; destruct t1, t2.

Ltac split_ifs :=
  repeat match goal with
         | |- context [if ?b then _ else _] => destruct b
         | |- context [match ?o with Some _ => _ | None => _ end] => destruct o
         end.

Lemma result_after_start (n : option Z) (s : Sequencer) (m : Machine) :
  tester_result (st m (fst (start_seq_worker n s))) = tester_result (st m s).
Proof.
  open_object s. unfold start_seq_worker, and_then, start_listener.
  destruct n, m; cbn; split_ifs; reflexivity.
Qed.

(** What a call of another thread does to the verdict and awaiting
    attributes of a machine: nothing, or the verdict is cleared ([reset]),
    or an awaited verdict is stored in normalised form. *)
Lemma call_on_verdict (c : Call) (s : Sequencer) (m : Machine) :
  let s' := fst (apply_call c s) in
  (tester_result (st m s') = tester_result (st m s)
   /\ awaiting_result (st m s') = awaiting_result (st m s))
  \/ (tester_result (st m s') = None
      /\ awaiting_result (st m s') = awaiting_result (st m s))
  \/ (awaiting_result (st m s) = true
      /\ awaiting_result (st m s') = false
      /\ exists token : option string,
           tester_result (st m s') = Some (normalize token)).
Proof.
  destruct c; cbn [apply_call].
  - left. split; [apply result_after_start|].
    open_object s. unfold start_seq_worker, and_then, start_listener.
    destruct total_slots0, m; cbn; split_ifs; reflexivity.
  - left. open_object s. unfold stop, and_then, stop_listener.
    destruct m; cbn; split_ifs; split; reflexivity.
  - left. destruct m; split; reflexivity.
  - left. destruct m; split; reflexivity.
  - left. unfold on_backend_event.
    destruct (ev =? BackendEvents.FAULT)%string;
      [|destruct (ev =? BackendEvents.STOPPED)%string];
      destruct m; split; reflexivity.
  - right; left. rewrite reset_assigns. destruct m; split; reflexivity.
  - unfold external_test_complete.
    destruct (machine_id0 =? 1); [|destruct (machine_id0 =? 2)];
      try (left; destruct m; split; reflexivity);
      unfold deliver;
      match goal with |- context [awaiting_result (st ?k s)] =>
        destruct (awaiting_result (st k s)) eqn:E end;
      cbn [negb]; try (left; split; reflexivity);
      destruct m; try (left; split; reflexivity);
      right; right; (split; [exact E|]); (split; [reflexivity|]);
      exists verdict; reflexivity.
  - left. destruct m, m0; split; reflexivity.
Qed.

Lemma verdicts_call_keeps (c : Call) (s : Sequencer) :
  any_call c -> verdicts_normalised s ->
  verdicts_normalised (fst (apply_call c s)).
Proof.
  intros _ H m. specialize (H m).
  destruct (call_on_verdict c s m) as [[E _]|[[E _]|(_ & _ & tok & E)]];
    rewrite E.
  - exact H.
  - now left.
  - right. now exists tok.
Qed.

(** An assignment of the worker that leaves the verdicts alone or clears
    one keeps them normalised. *)
Lemma verdicts_frame (f : Sequencer -> Sequencer) (s : Sequencer) :
  (forall m, tester_result (st m (f s)) = tester_result (st m s)
             \/ tester_result (st m (f s)) = None) ->
  verdicts_normalised s -> verdicts_normalised (f s).
Proof.
  intros Hf H m. destruct (Hf m) as [E|E]; rewrite E; [apply H | now left].
Qed.

Ltac verdicts_assign :=
  intros ? ?; cbn [assign fst]; apply verdicts_frame; [|assumption];
  let k := fresh "k" in
  intros k;
  match goal with
  | |- context [upd_st ?m _ _] => destruct m, k; auto
  | |- _ => destruct k; auto
  end.

Lemma verdicts_run_micro_plan (plan_name : string) (timeout_s : Z) :
  keeps verdicts_normalised any_call (_run_micro_plan plan_name timeout_s).
Proof.
  apply keeps_run_micro_plan.
  - exact verdicts_call_keeps.
  - intros s H m. specialize (H m). destruct m; exact H.
  - intros s H m. specialize (H m). destruct m; exact H.
Qed.

Ltac verdicts_keeps :=
  repeat first
    [ apply keeps_ret | apply keeps_brk | apply keeps_raise | apply keeps_say
    | apply verdicts_run_micro_plan
    | apply keeps_nap; exact verdicts_call_keeps
    | apply keeps_wait; exact verdicts_call_keeps
    | apply keeps_perform; verdicts_assign
    | apply keeps_read; intros ? ?
    | apply keeps_bind; [|intros ?]
    | match goal with
      | |- keeps _ _ (if ?b then _ else _) => destruct b
      | |- keeps _ _ (match ?o with Some _ => _ | None => _ end) => destruct o
      end ].

Lemma verdicts_absorb (m : Machine) :
  keeps verdicts_normalised any_call (absorb m).
Proof. unfold absorb. verdicts_keeps. Qed.

Lemma verdicts_unload (m : Machine) (p : bool) :
  keeps verdicts_normalised any_call (unload m p).
Proof. unfold unload. verdicts_keeps. Qed.

Lemma verdicts_load (m : Machine) (p : bool) :
  keeps verdicts_normalised any_call (load m p).
Proof. unfold load. verdicts_keeps. Qed.

Lemma verdicts_loop_body : keeps verdicts_normalised any_call loop_body.
Proof.
  unfold loop_body, after_checks, transitions, finish_pass, machine_done.
  repeat first
    [ apply verdicts_absorb | apply verdicts_unload | apply verdicts_load
    | apply keeps_ret | apply keeps_brk | apply keeps_raise | apply keeps_say
    | apply keeps_nap; exact verdicts_call_keeps
    | apply keeps_wait; exact verdicts_call_keeps
    | apply keeps_read; intros ? ?
    | apply keeps_bind; [|intros ?]
    | match goal with
      | |- keeps _ _ (if ?b then _ else _) => destruct b
      | |- keeps _ _ (match ?o with Some _ => _ | None => _ end) => destruct o
      end ].
Qed.

Lemma keeps_worker_loop (P : Sequencer -> Prop) (Q : Call -> Prop) :
  keeps P Q loop_body -> forall fuel : nat, keeps P Q (worker_loop fuel).
Proof.
  intros Hb fuel. induction fuel as [|n IH];
    intros sched w r sched' w' Hq HP H; cbn [worker_loop] in H;
    [discriminate|].
  destruct (_stop_flag (sq w)); [inversion H; subst; now split|].
  destruct (loop_body sched w) as [[[rb sb] wb]|] eqn:E; [|discriminate].
  destruct (Hb _ _ _ _ _ Hq HP E) as [HP1 Hq1].
  destruct rb; [now apply (IH _ _ _ _ _ Hq1 HP1 H) | |];
    inversion H; subst; now split.
Qed.

Lemma keeps_worker_try (P : Sequencer -> Prop) (Q : Call -> Prop)
  (p1 p2 : Ping) :
  (forall s, P s -> P (fst (worker_prologue p1 p2 s))) ->
  keeps P Q loop_body -> keeps P Q (worker_try p1 p2).
Proof.
  intros Hp Hb sched w r sched' w' Hq HP H.
  unfold worker_try, bind, perform in H.
  apply (keeps_worker_loop P Q Hb _ _ _ _ _ _ Hq) in H; [exact H|].
  rewrite act_sq. now apply Hp.
Qed.

Lemma keeps_worker (P : Sequencer -> Prop) (Q : Call -> Prop) (p1 p2 : Ping) :
  (forall s, P s -> P (fst (worker_prologue p1 p2 s))) ->
  (forall s, P s -> P (fst (worker_finally s))) ->
  keeps P Q loop_body -> keeps P Q (_worker p1 p2).
Proof.
  intros Hp Hf Hb sched w r sched' w' Hq HP H.
  destruct (worker_exit _ _ _ _ _ _ _ H) as (w_exit & Htry & ->).
  destruct (keeps_worker_try P Q p1 p2 Hp Hb _ _ _ _ _ Hq HP Htry) as [H1 H2].
  rewrite act_sq. split; [now apply Hf | assumption].
Qed.

Lemma result_after_prologue (p1 p2 : Ping) (s : Sequencer) (m : Machine) :
  tester_result (st m (fst (worker_prologue p1 p2 s))) = tester_result (st m s).
Proof. open_object s. destruct p1, p2, m; reflexivity. Qed.

Lemma verdicts_prologue (p1 p2 : Ping) (s : Sequencer) :
  verdicts_normalised s -> verdicts_normalised (fst (worker_prologue p1 p2 s)).
Proof. intros H m. rewrite result_after_prologue. apply H. Qed.

Lemma verdicts_finally (s : Sequencer) :
  verdicts_normalised s -> verdicts_normalised (fst (worker_finally s)).
Proof.
  intros _ m. destruct (worker_finally_state s m) as (_ & _ & E & _).
  rewrite E. now left.
Qed.

Lemma reachable_verdicts (s : Sequencer) :
  reachable s -> verdicts_normalised s.
Proof.
  induction 1 as [config | c s _ IH
                 | plan_name timeout_s sched w r sched' w' _ IH H
                 | m sched w r sched' w' _ IH H
                 | m p sched w r sched' w' _ IH H
                 | m p sched w r sched' w' _ IH H
                 | sched w r sched' w' _ IH H
                 | p1 p2 sched w r sched' w' _ IH H
                 | p1 p2 sched w r sched' w' _ IH H].
  - intros m. left. destruct m; reflexivity.
  - now apply verdicts_call_keeps.
  - exact (proj1 (verdicts_run_micro_plan _ _ _ _ _ _ _ (quiet_calls_any _) IH H)).
  - exact (proj1 (verdicts_absorb _ _ _ _ _ _ (quiet_calls_any _) IH H)).
  - exact (proj1 (verdicts_unload _ _ _ _ _ _ _ (quiet_calls_any _) IH H)).
  - exact (proj1 (verdicts_load _ _ _ _ _ _ _ (quiet_calls_any _) IH H)).
  - exact (proj1 (verdicts_loop_body _ _ _ _ _ (quiet_calls_any _) IH H)).
  - exact (proj1 (keeps_worker_try _ any_call p1 p2 (verdicts_prologue p1 p2)
                    verdicts_loop_body _ _ _ _ _ (quiet_calls_any _) IH H)).
  - exact (proj1 (keeps_worker _ any_call p1 p2 (verdicts_prologue p1 p2)
                    verdicts_finally verdicts_loop_body
                    _ _ _ _ _ (quiet_calls_any _) IH H)).
Qed.

(** ** Inverting a finished computation *)

Lemma bind_Ok_inv {A B : Type} (c : Run A) (k : A -> Run B)
  (sched sched' : list Yield) (w w' : World) (b : B) :
  bind c k sched w = Some (Ok b, sched', w') ->
  exists a s1 w1, c sched w = Some (Ok a, s1, w1)
                  /\ k a s1 w1 = Some (Ok b, sched', w').
Proof.
  unfold bind. intros H.
  destruct (c sched w) as [[[ra s1] w1]|]; [|discriminate].
  destruct ra; try discriminate. now exists a, s1, w1.
Qed.

Lemma normalize_cases (token : option string) :
  let v := PyStr.upper (PyStr.strip (match token with
                                     | Some x => x
                                     | None => ""
                                     end)) in
  normalize token = "PASS"
  \/ normalize token = "FAIL"
  \/ (PyStr.contains "PASS" v = false /\ PyStr.contains "FAIL" v = false
      /\ normalize token = v).
Proof.
  cbn zeta. unfold normalize.
  destruct (PyStr.contains "PASS" _) eqn:E1; [now left|].
  destruct (PyStr.contains "FAIL" _) eqn:E2; [now right; left|].
  right; right. repeat split.
Qed.

(** A completed unload leaves the machine empty and without verdict. *)
Lemma unload_done (m : Machine) (sched sched' : list Yield) (w w' : World) :
  unload m false sched w = Some (Ok true, sched', w') ->
  tester_result (st m (sq w')) = None /\ tester_loaded (st m (sq w')) = false.
Proof.
  unfold unload. intros H.
  apply bind_Ok_inv in H. destruct H as (s & s1 & w1 & Hr & H).
  destruct (_ && _)%bool in H; [|discriminate].
  apply bind_Ok_inv in H. destruct H as (opened & s2 & w2 & _ & H).
  destruct opened; [|discriminate]. cbn [negb] in H.
  apply bind_Ok_inv in H. destruct H as (s3 & s4 & w3 & _ & H).
  destruct (tester_result (st m s3)) as [r0|]; [|discriminate].
  apply bind_Ok_inv in H. destruct H as (plan & s5 & w4 & _ & H).
  apply bind_Ok_inv in H. destruct H as (placed & s6 & w5 & _ & H).
  destruct placed; [|discriminate]. cbn [negb] in H.
  unfold bind, perform, ret in H. inversion H; subst.
  rewrite !act_sq. cbn [assign fst].
  destruct m; split; reflexivity.
Qed.

(** C6 (as the code has it). In every reachable state the verdict
    attribute of a machine is empty or holds a token as
    [external_test_complete] normalises it: "PASS", "FAIL", or, for a token
    that contains neither once trimmed and upper-cased, that trimmed
    upper-cased text itself; and a completed unload (the unit has been
    placed) leaves the verdict empty and the machine not loaded. *)
Theorem verdict_is_empty_or_normalised_token :
  forall (s : Sequencer) (m : Machine),
    reachable s ->
    (tester_result (st m s) = None
     \/ exists token : option string,
          tester_result (st m s) = Some (normalize token)
          /\ (normalize token = "PASS"
              \/ normalize token = "FAIL"
              \/ (PyStr.contains "PASS" (normalize token) = false
                  /\ PyStr.contains "FAIL" (normalize token) = false
                  /\ normalize token
                     = PyStr.upper (PyStr.strip (match token with
                                                 | Some x => x
                                                 | None => ""
                                                 end)))))
    /\ forall sched sched' w w',
         sq w = s ->
         unload m false sched w = Some (Ok true, sched', w') ->
         tester_result (st m (sq w')) = None
         /\ tester_loaded (st m (sq w')) = false.
Proof.
  intros s m Hs. split.
  - destruct (reachable_verdicts s Hs m) as [E|[token E]]; [now left|].
    right. exists token. split; [exact E|].
    destruct (normalize_cases token) as [N|[N|(N1 & N2 & N)]];
      [now left | now right; left |].
    right; right. rewrite N. repeat split; assumption.
  - intros sched sched' w w' _ H. now apply unload_done with sched sched' w.
Qed.

Lemma verdict_is_empty_or_normalised_token_witness :
  reachable (left_by error_token_run)
  /\ (tester_result (st M1 (left_by error_token_run)) = None
      \/ exists token : option string,
           tester_result (st M1 (left_by error_token_run)) = Some (normalize token)
           /\ (normalize token = "PASS"
               \/ normalize token = "FAIL"
               \/ (PyStr.contains "PASS" (normalize token) = false
                   /\ PyStr.contains "FAIL" (normalize token) = false
                   /\ normalize token
                      = PyStr.upper (PyStr.strip (match token with
                                                  | Some x => x
                                                  | None => ""
                                                  end))))).
Proof.
  assert (R : reachable (left_by error_token_run)).
  { apply (reach_loop PingOk PingOk error_token_schedule (world_of started)
             (Ok tt) [] (world_left_by error_token_run)).
    - apply (reach_call (CallStart None) fresh). apply reach_init.
    - vm_compute. reflexivity. }
  split; [exact R|].
  exact (proj1 (verdict_is_empty_or_normalised_token
                  (left_by error_token_run) M1 R)).
Defined.

(** C6 (as the spec has it) fails: in a run in which the tester of machine
    1 answers "ERROR_9" while the machine waits for its verdict, the verdict
    attribute of machine 1 holds "ERROR_9", which is neither PASS nor
    FAIL. *)
Lemma verdict_can_hold_unrecognised_token :
  reachable (left_by error_token_run)
  /\ tester_result (st M1 (left_by error_token_run)) = Some "ERROR_9"
  /\ "ERROR_9" <> "PASS" /\ "ERROR_9" <> "FAIL".
Proof.
  split; [|split; [vm_compute; reflexivity | split; discriminate]].
  apply (reach_loop PingOk PingOk error_token_schedule (world_of started)
           (Ok tt) [] (world_left_by error_token_run)).
  - apply (reach_call (CallStart None) fresh). apply reach_init.
  - vm_compute. reflexivity.
Qed.

(** ** One pass attempts one transition (C7) *)

Lemma absorb_eq (m : Machine) (sched : list Yield) (w : World) :
  absorb m sched w = Some (Ok tt, sched, absorb_world m w).
Proof.
  unfold absorb, absorb_world, bind, read, perform.
  destruct (tester_done_evt (st m (sq w))); reflexivity.
Qed.

Lemma absorb_world_slot (m k : Machine) (w : World) :
  current_slotN (st k (sq (absorb_world m w))) = current_slotN (st k (sq w)).
Proof.
  unfold absorb_world. destruct (tester_done_evt (st m (sq w))); [|reflexivity].
  rewrite !act_sq. cbn [assign fst]. destruct m, k; reflexivity.
Qed.

Lemma absorbed_slots (w : World) :
  slots_exist (sq w) -> slots_exist (sq (absorbed w)).
Proof.
  unfold slots_exist, absorbed. now rewrite !absorb_world_slot.
Qed.

Lemma unload_progressed (m : Machine) (sched : list Yield) (w : World) :
  unload m true sched w = Some (Ok true, sched, w).
Proof.
  unfold unload, bind, read. cbn [negb].
  now rewrite andb_false_r.
Qed.

Lemma load_progressed (m : Machine) (sched : list Yield) (w : World) :
  load m true sched w = Some (Ok true, sched, w).
Proof.
  unfold load, bind, read. cbn [negb].
  now rewrite andb_false_r.
Qed.

Lemma unload_condition (m : Machine) (s : Sequencer) :
  (tester_commready (st m s) && negb false
   && negb (tester_operating (st m s)) && tester_loaded (st m s)
   && is_str (tester_result (st m s)))%bool = unload_guard m s.
Proof. unfold unload_guard. cbn [negb]. now rewrite andb_true_r. Qed.

Lemma unload_skip (m : Machine) (sched : list Yield) (w : World) :
  unload_guard m (sq w) = false ->
  unload m false sched w = Some (Ok false, sched, w).
Proof.
  intros G. unfold unload, bind at 1, read.
  rewrite unload_condition, G. reflexivity.
Qed.

Lemma load_skip (m : Machine) (sched : list Yield) (w : World) :
  current_slotN (st m (sq w)) <> None ->
  load_guard m (sq w) = false ->
  load m false sched w = Some (Ok false, sched, w).
Proof.
  intros Hk G. unfold load, bind at 1, read. unfold load_guard in G.
  cbn [negb]. rewrite andb_true_r.
  destruct (tester_commready (st m (sq w)) && negb (tester_operating (st m (sq w)))
            && negb (tester_loaded (st m (sq w))))%bool; [|reflexivity].
  destruct (current_slotN (st m (sq w))) as [k|]; [|congruence].
  cbn [andb] in G. rewrite G. reflexivity.
Qed.

(** A block entered with its guard true ends with [progressed = True]
    when it ends normally. *)
Lemma unload_sets_progressed (m : Machine) (sched sched' : list Yield)
  (w w' : World) (b : bool) :
  unload_guard m (sq w) = true ->
  unload m false sched w = Some (Ok b, sched', w') -> b = true.
Proof.
  intros G H. unfold unload in H.
  apply bind_Ok_inv in H. destruct H as (s & s1 & w1 & Hr & H).
  unfold read in Hr. inversion Hr; subst.
  rewrite unload_condition, G in H.
  apply bind_Ok_inv in H. destruct H as (opened & s2 & w2 & _ & H).
  destruct opened; [|discriminate]. cbn [negb] in H.
  apply bind_Ok_inv in H. destruct H as (s3 & s4 & w3 & _ & H).
  destruct (tester_result (st m s3)) as [r0|]; [|discriminate].
  apply bind_Ok_inv in H. destruct H as (plan & s5 & w4 & _ & H).
  apply bind_Ok_inv in H. destruct H as (placed & s6 & w5 & _ & H).
  destruct placed; [|discriminate]. cbn [negb] in H.
  unfold bind, perform, ret in H. now inversion H.
Qed.

Lemma load_sets_progressed (m : Machine) (sched sched' : list Yield)
  (w w' : World) (b : bool) :
  load_guard m (sq w) = true ->
  load m false sched w = Some (Ok b, sched', w') -> b = true.
Proof.
  intros G H. unfold load in H. unfold load_guard in G.
  apply bind_Ok_inv in H. destruct H as (s & s1 & w1 & Hr & H).
  unfold read in Hr. inversion Hr; subst.
  cbn [negb] in H. rewrite andb_true_r in H.
  apply andb_prop in G. destruct G as [G1 G2]. rewrite G1 in H.
  destruct (current_slotN (st m (sq w1))) as [k|]; [|discriminate].
  rewrite G2 in H.
  apply bind_Ok_inv in H. destruct H as (picked & s2 & w2 & _ & H).
  destruct picked; [|discriminate]. cbn [negb] in H.
  apply bind_Ok_inv in H. destruct H as (s3 & s4 & w3 & _ & H).
  apply bind_Ok_inv in H. destruct H as (closed & s5 & w4 & _ & H).
  destruct closed; [|discriminate]. cbn [negb] in H.
  apply bind_Ok_inv in H. destruct H as (u & s6 & w5 & _ & H).
  apply bind_Ok_inv in H. destruct H as (s7 & s8 & w6 & _ & H).
  destruct (current_slotN (st m s7)) as [k'|]; [|discriminate].
  unfold bind, perform, ret in H. now inversion H.
Qed.

Lemma attempt_sets_progressed (t : Transition) (sched sched' : list Yield)
  (w w' : World) (b : bool) :
  guard t (sq w) = true ->
  attempt t sched w = Some (Ok b, sched', w') -> b = true.
Proof.
  destruct t; cbn [guard attempt].
  - apply unload_sets_progressed.
  - apply load_sets_progressed.
Qed.

Lemma pass_by_first_eligible_eq (sched : list Yield) (w : World) :
  pass_by_first_eligible sched w =
    match first_eligible (sq w) with
    | Some t => bind (attempt t) (fun _ => finish_pass true) sched w
    | None => finish_pass false sched w
    end.
Proof.
  unfold pass_by_first_eligible, bind at 1, read.
  destruct (first_eligible (sq w)); reflexivity.
Qed.

(** The four guarded blocks in sequence do what the first eligible
    transition alone does. *)
Lemma transitions_first_eligible (sched : list Yield) (w : World) :
  slots_exist (sq w) ->
  bind transitions finish_pass sched w = pass_by_first_eligible sched w.
Proof.
  intros [K1 K2]. rewrite pass_by_first_eligible_eq.
  unfold first_eligible, scan_order. cbn [find guard].
  unfold transitions, bind.
  destruct (unload_guard M1 (sq w)) eqn:U1.
  { cbn [attempt].
    destruct (unload M1 false sched w) as [[[r s1] w1]|] eqn:E; [|reflexivity].
    destruct r as [b| |e]; [|reflexivity..].
    rewrite (unload_sets_progressed _ _ _ _ _ _ U1 E).
    now rewrite load_progressed, unload_progressed, load_progressed. }
  rewrite (unload_skip _ _ _ U1).
  destruct (load_guard M1 (sq w)) eqn:L1.
  { cbn [attempt].
    destruct (load M1 false sched w) as [[[r s1] w1]|] eqn:E; [|reflexivity].
    destruct r as [b| |e]; [|reflexivity..].
    rewrite (load_sets_progressed _ _ _ _ _ _ L1 E).
    now rewrite unload_progressed, load_progressed. }
  rewrite (load_skip _ _ _ K1 L1).
  destruct (unload_guard M2 (sq w)) eqn:U2.
  { cbn [attempt].
    destruct (unload M2 false sched w) as [[[r s1] w1]|] eqn:E; [|reflexivity].
    destruct r as [b| |e]; [|reflexivity..].
    rewrite (unload_sets_progressed _ _ _ _ _ _ U2 E).
    now rewrite load_progressed. }
  rewrite (unload_skip _ _ _ U2).
  destruct (load_guard M2 (sq w)) eqn:L2.
  { cbn [attempt].
    destruct (load M2 false sched w) as [[[r s1] w1]|] eqn:E; [|reflexivity].
    destruct r as [b| |e]; [|reflexivity..].
    now rewrite (load_sets_progressed _ _ _ _ _ _ L2 E). }
  now rewrite (load_skip _ _ _ K2 L2).
Qed.

Lemma after_checks_eq (sched : list Yield) (w : World) :
  after_checks sched w = bind transitions finish_pass sched (absorbed w).
Proof.
  unfold after_checks, bind at 1. rewrite absorb_eq.
  unfold bind at 1. rewrite absorb_eq. reflexivity.
Qed.

(** A pass in terms of the first eligible transition (shared by the
    properties of the loop). *)
Lemma after_checks_first_eligible (sched : list Yield) (w : World) :
  slots_exist (sq w) ->
  after_checks sched w = pass_by_first_eligible sched (absorbed w).
Proof.
  intros K. rewrite after_checks_eq.
  apply transitions_first_eligible. now apply absorbed_slots.
Qed.

Lemma machine_done_eq (m : Machine) (sched : list Yield) (w : World) :
  current_slotN (st m (sq w)) <> None ->
  machine_done m sched w = Some (Ok (station_done m (sq w)), sched, w).
Proof.
  intros K. unfold machine_done, station_done, bind, read.
  destruct (current_slotN (st m (sq w))); [reflexivity|congruence].
Qed.

Lemma finish_pass_eq (p : bool) (sched : list Yield) (w : World) :
  slots_exist (sq w) ->
  finish_pass p sched w =
    if all_done (sq w) then
      Some (Brk, sched,
            emit [Log "[SEQ] All slots processed for both machines — exiting."] w)
    else if negb p then nap 20 sched w
    else Some (Ok tt, sched, w).
Proof.
  intros [K1 K2]. unfold finish_pass, bind at 1.
  rewrite (machine_done_eq M1 _ _ K1). unfold bind at 1.
  rewrite (machine_done_eq M2 _ _ K2). unfold all_done.
  destruct (station_done M1 (sq w) && station_done M2 (sq w))%bool;
    [reflexivity|].
  destruct p; reflexivity.
Qed.

(** C7. Once a pass has absorbed the tester completions, it does what the
    first transition of the scan order (unload 1, load 1, unload 2, load 2)
    whose guard holds does, and attempts no other; when no guard holds it
    requests nothing and either leaves the loop (both machines done) or
    sleeps 20 ms. *)
Theorem pass_attempts_first_eligible_only :
  forall (sched : list Yield) (w : World),
    slots_exist (sq w) ->
    after_checks sched w = pass_by_first_eligible sched (absorbed w)
    /\ (forall t : Transition,
          first_eligible (sq (absorbed w)) = Some t ->
          after_checks sched w
          = bind (attempt t) (fun _ => finish_pass true) sched (absorbed w))
    /\ (first_eligible (sq (absorbed w)) = None ->
        after_checks sched w
        = if all_done (sq (absorbed w)) then
            Some (Brk, sched,
                  emit [Log "[SEQ] All slots processed for both machines — exiting."]
                    (absorbed w))
          else
            match sched with
            | [] => None
            | y :: rest => Some (Ok tt, rest, sleep 20 y (absorbed w))
            end).
Proof.
  intros sched w K.
  pose proof (after_checks_first_eligible sched w K) as E.
  split; [exact E|]. rewrite E, pass_by_first_eligible_eq. split.
  - intros t Ht. now rewrite Ht.
  - intros Hn. rewrite Hn.
    rewrite (finish_pass_eq false _ _ (absorbed_slots _ K)). reflexivity.
Qed.

Lemma pass_attempts_first_eligible_only_witness :
  slots_exist (sq (world_of ready))
  /\ after_checks two_plans_schedule (world_of ready)
     = pass_by_first_eligible two_plans_schedule (absorbed (world_of ready))
  /\ first_eligible (sq (absorbed (world_of ready))) = Some (Load M1)
  /\ after_checks two_plans_schedule (world_of ready)
     = bind (attempt (Load M1)) (fun _ => finish_pass true)
         two_plans_schedule (absorbed (world_of ready)).
Proof.
  assert (K : slots_exist (sq (world_of ready))) by (split; discriminate).
  split; [exact K|].
  split; [exact (proj1 (pass_attempts_first_eligible_only
                          two_plans_schedule (world_of ready) K))|].
  split; [reflexivity|].
  exact (proj1 (proj2 (pass_attempts_first_eligible_only
                         two_plans_schedule (world_of ready) K))
           (Load M1) eq_refl).
Defined.

(** ** Normalised text *)

Lemma upper_char_idem (c : ascii) :
  PyStr.upper_char (PyStr.upper_char c) = PyStr.upper_char c.
Proof. destruct c as [[] [] [] [] [] [] [] []]; reflexivity. Qed.

Lemma is_space_upper_char (c : ascii) :
  PyStr.is_space (PyStr.upper_char c) = PyStr.is_space c.
Proof. destruct c as [[] [] [] [] [] [] [] []]; reflexivity. Qed.

Lemma upper_idem (s : string) : PyStr.upper (PyStr.upper s) = PyStr.upper s.
Proof.
  induction s as [|c r IH]; cbn [PyStr.upper]; [reflexivity|].
  now rewrite upper_char_idem, IH.
Qed.

Lemma lstrip_upper (s : string) :
  PyStr.lstrip (PyStr.upper s) = PyStr.upper (PyStr.lstrip s).
Proof.
  induction s as [|c r IH]; cbn [PyStr.upper PyStr.lstrip]; [reflexivity|].
  rewrite is_space_upper_char. destruct (PyStr.is_space c); [exact IH|reflexivity].
Qed.

Lemma rstrip_upper (s : string) :
  PyStr.rstrip (PyStr.upper s) = PyStr.upper (PyStr.rstrip s).
Proof.
  induction s as [|c r IH]; cbn [PyStr.upper PyStr.rstrip]; [reflexivity|].
  rewrite IH, is_space_upper_char.
  destruct (PyStr.rstrip r); cbn [PyStr.upper];
    [destruct (PyStr.is_space c)|]; reflexivity.
Qed.

Lemma strip_upper (s : string) :
  PyStr.strip (PyStr.upper s) = PyStr.upper (PyStr.strip s).
Proof. unfold PyStr.strip. now rewrite lstrip_upper, rstrip_upper. Qed.

Lemma rstrip_idem (s : string) : PyStr.rstrip (PyStr.rstrip s) = PyStr.rstrip s.
Proof.
  induction s as [|c r IH]; cbn [PyStr.rstrip]; [reflexivity|].
  destruct (PyStr.rstrip r) as [|c' r'] eqn:E.
  - destruct (PyStr.is_space c) eqn:S; cbn [PyStr.rstrip]; [reflexivity|].
    now rewrite S.
  - cbn [PyStr.rstrip]. cbn [PyStr.rstrip] in IH.
    now rewrite IH.
Qed.

Lemma lstrip_head (s r : string) (c : ascii) :
  PyStr.lstrip s = String c r -> PyStr.is_space c = false.
Proof.
  induction s as [|a t IH]; cbn [PyStr.lstrip]; [discriminate|].
  destruct (PyStr.is_space a) eqn:S; [exact IH|].
  intros H. inversion H; subst. exact S.
Qed.

Lemma rstrip_head (c : ascii) (r : string) :
  PyStr.is_space c = false ->
  exists r', PyStr.rstrip (String c r) = String c r'.
Proof.
  intros S. cbn [PyStr.rstrip].
  destruct (PyStr.rstrip r); [rewrite S|]; eexists; reflexivity.
Qed.

Lemma strip_idem (s : string) : PyStr.strip (PyStr.strip s) = PyStr.strip s.
Proof.
  unfold PyStr.strip. destruct (PyStr.lstrip s) as [|c r] eqn:E; [reflexivity|].
  pose proof (lstrip_head _ _ _ E) as S.
  destruct (rstrip_head c r S) as [r' Hr]. rewrite Hr.
  cbn [PyStr.lstrip]. rewrite S, <- Hr. apply rstrip_idem.
Qed.

(** Trimming and upper-casing a text that already is trimmed and
    upper-cased changes nothing. *)
Lemma normal_text_fixed (x : string) :
  PyStr.upper (PyStr.strip (PyStr.upper (PyStr.strip x)))
  = PyStr.upper (PyStr.strip x).
Proof. now rewrite strip_upper, upper_idem, strip_idem. Qed.

Lemma unrecognised_normalize (token : option string) :
  unrecognised token ->
  normalize token = PyStr.upper (PyStr.strip (match token with
                                              | Some x => x
                                              | None => ""
                                              end))
  /\ (PyStr.upper (PyStr.strip (normalize token)) =? "PASS")%string = false
  /\ (PyStr.upper (PyStr.strip (normalize token)) =? "FAIL")%string = false.
Proof.
  intros [N1 N2].
  assert (E : normalize token
              = PyStr.upper (PyStr.strip (match token with
                                          | Some x => x
                                          | None => ""
                                          end))).
  { unfold normalize. now rewrite N1, N2. }
  split; [exact E|]. rewrite E, normal_text_fixed.
  split; apply String.eqb_neq; intros C; rewrite C in *; discriminate.
Qed.

(** ** An invalid verdict (C4) *)

Lemma held_call_keeps (m : Machine) (r : string) (c : Call) (s : Sequencer) :
  any_call c -> verdict_held m r s -> verdict_held m r (fst (apply_call c s)).
Proof.
  intros _ [A R]. unfold verdict_held.
  destruct (call_on_verdict c s m) as [[E1 E2]|[[E1 E2]|(C & _)]].
  - now rewrite E1, E2.
  - rewrite E1, E2. split; [assumption | now right].
  - congruence.
Qed.

Lemma held_run_micro_plan (m : Machine) (r plan_name : string) (timeout_s : Z) :
  keeps (verdict_held m r) any_call (_run_micro_plan plan_name timeout_s).
Proof.
  apply keeps_run_micro_plan.
  - apply held_call_keeps.
  - intros s H. destruct m; exact H.
  - intros s H. destruct m; exact H.
Qed.

Lemma absorb_world_verdict (m k : Machine) (w : World) :
  tester_result (st k (sq (absorb_world m w))) = tester_result (st k (sq w))
  /\ awaiting_result (st k (sq (absorb_world m w))) = awaiting_result (st k (sq w)).
Proof.
  unfold absorb_world. destruct (tester_done_evt (st m (sq w))); [|now split].
  rewrite !act_sq. cbn [assign fst]. destruct m, k; split; reflexivity.
Qed.

Lemma absorbed_verdict (k : Machine) (w : World) :
  tester_result (st k (sq (absorbed w))) = tester_result (st k (sq w))
  /\ awaiting_result (st k (sq (absorbed w))) = awaiting_result (st k (sq w)).
Proof.
  unfold absorbed.
  destruct (absorb_world_verdict M2 k (absorb_world M1 w)) as [-> ->].
  apply absorb_world_verdict.
Qed.

Lemma first_eligible_guard (s : Sequencer) (t : Transition) :
  first_eligible s = Some t -> guard t s = true.
Proof.
  unfold first_eligible. intros H. now apply find_some in H.
Qed.

(** What an accepted delivery leaves in the attributes of its machine. *)
Lemma deliver_awaiting (m : Machine) (token : option string) (s : Sequencer) :
  awaiting_result (st m s) = true ->
  let s1 := fst (external_test_complete (machine_id m) token s) in
  tester_result (st m s1) = Some (normalize token)
  /\ awaiting_result (st m s1) = false
  /\ tester_operating (st m s1) = false
  /\ tester_loaded (st m s1) = tester_loaded (st m s)
  /\ tester_commready (st m s1) = tester_commready (st m s).
Proof.
  intros A. rewrite external_test_complete_machine. unfold deliver.
  rewrite A. cbn [negb]. destruct m; cbn; repeat split.
Qed.

(** The unload block on a verdict that is neither PASS nor FAIL. *)
Lemma unload_unrecognised (m : Machine) (token : option string)
  (sched sched1 : list Yield) (w w1 : World) (opened : bool) :
  unrecognised token ->
  unload_guard m (sq w) = true ->
  tester_result (st m (sq w)) = Some (normalize token) ->
  awaiting_result (st m (sq w)) = false ->
  _run_micro_plan (plan_open m (sq w)) (plan_timeout_s (cfg (sq w))) sched w
  = Some (Ok opened, sched1, w1) ->
  (opened = false /\ unload m false sched w = Some (Brk, sched1, w1))
  \/ (opened = true /\ tester_result (st m (sq w1)) = Some (normalize token)
      /\ unload m false sched w
         = Some (Brk, sched1, emit [invalid_line m (normalize token)] w1))
  \/ (opened = true /\ tester_result (st m (sq w1)) = None
      /\ unload m false sched w = Some (Raise "AttributeError", sched1, w1)).
Proof.
  intros U G R A Hopen.
  destruct (unrecognised_normalize token U) as (_ & NP & NF).
  assert (Hheld : verdict_held m (normalize token) (sq w1)).
  { apply (held_run_micro_plan m (normalize token) _ _ _ _ _ _ _
             (quiet_calls_any sched)) in Hopen; [apply Hopen|].
    split; [exact A | now left]. }
  remember (unload m false sched w) as u eqn:Hu.
  unfold unload, bind at 1, read in Hu. rewrite unload_condition, G in Hu.
  unfold bind at 1 in Hu. rewrite Hopen in Hu.
  destruct opened; cbn [negb] in Hu; [|left; split; [reflexivity|exact Hu]].
  right. unfold bind at 1, read in Hu.
  destruct Hheld as [_ [E|E]]; rewrite E in Hu.
  - left. split; [reflexivity|]. split; [exact E|].
    cbn zeta in Hu. unfold bind at 1 in Hu. rewrite NP, NF in Hu. exact Hu.
  - right. split; [reflexivity|]. split; [exact E|]. exact Hu.
Qed.

Lemma loop_body_unpaused (sched : list Yield) (w : World) :
  _user_pause (sq w) = false -> _stop_flag (sq w) = false ->
  loop_body sched w = after_checks sched w.
Proof.
  intros Hp Hs. unfold loop_body, bind at 1.
  destruct sched; cbn [_wait_if_user_paused]; rewrite Hp; cbn [andb];
    unfold bind at 1, read; now rewrite Hs.
Qed.

Lemma worker_loop_pass (fuel : nat) (sched : list Yield) (w : World) :
  _stop_flag (sq w) = false ->
  worker_loop (S fuel) sched w =
    match loop_body sched w with
    | None => None
    | Some (Ok _, sched', w') => worker_loop fuel sched' w'
    | Some (Brk, sched', w') => Some (Ok tt, sched', w')
    | Some (Raise e, sched', w') => Some (Raise e, sched', w')
    end.
Proof. intros Hs. cbn [worker_loop]. now rewrite Hs. Qed.

(** C4 (as the code has it). A token of ASCII text whose trimmed,
    upper-cased text contains neither PASS nor FAIL, delivered to a machine
    that awaits its verdict, is stored as the verdict.  In the pass in
    which the unload of that machine is the first eligible transition, the
    open plan of the machine is run first; the loop is then left at once,
    in one of three ways: silently when the open plan did not complete;
    with the line "Invalid test result" when it completed and the verdict
    is still stored; by an [AttributeError], without that line, when it
    completed and the verdict was cleared meanwhile (a [reset] during the
    open plan).  No place plan is requested, and the [finally] block that
    follows requests no plan. *)
Theorem invalid_verdict_aborts_after_open :
  forall (m : Machine) (token : option string) (s : Sequencer),
    ascii_token token ->
    awaiting_result (st m s) = true ->
    unrecognised token ->
    (let s1 := fst (external_test_complete (machine_id m) token s) in
     tester_result (st m s1) = Some (normalize token)
     /\ awaiting_result (st m s1) = false
     /\ tester_operating (st m s1) = false
     /\ tester_loaded (st m s1) = tester_loaded (st m s)
     /\ tester_commready (st m s1) = tester_commready (st m s))
    /\ (forall (w w1 : World) (sched sched1 : list Yield) (opened : bool)
               (fuel : nat),
          tester_result (st m (sq w)) = Some (normalize token) ->
          awaiting_result (st m (sq w)) = false ->
          slots_exist (sq w) ->
          _user_pause (sq w) = false ->
          _stop_flag (sq w) = false ->
          first_eligible (sq (absorbed w)) = Some (Unload m) ->
          _run_micro_plan (plan_open m (sq (absorbed w)))
            (plan_timeout_s (cfg (sq (absorbed w)))) sched (absorbed w)
          = Some (Ok opened, sched1, w1) ->
          (opened = false
           /\ worker_loop (S fuel) sched w = Some (Ok tt, sched1, w1))
          \/ (opened = true
              /\ tester_result (st m (sq w1)) = Some (normalize token)
              /\ worker_loop (S fuel) sched w
                 = Some (Ok tt, sched1,
                         emit [invalid_line m (normalize token)] w1))
          \/ (opened = true
              /\ tester_result (st m (sq w1)) = None
              /\ worker_loop (S fuel) sched w
                 = Some (Raise "AttributeError", sched1, w1)))
    /\ (forall s' : Sequencer, no_plan (snd (worker_finally s'))).
Proof.
  intros m token s _ A U.
  split; [now apply deliver_awaiting|].
  split; [|exact worker_finally_logs_only].
  intros w w1 sched sched1 opened fuel R A' K Hp Hs F Hopen.
  destruct (absorbed_verdict m w) as [ER EA].
  pose proof (first_eligible_guard _ _ F) as G. cbn [guard] in G.
  rewrite (worker_loop_pass fuel sched w Hs).
  rewrite (loop_body_unpaused sched w Hp Hs).
  rewrite (after_checks_first_eligible sched w K).
  rewrite pass_by_first_eligible_eq, F. cbn [attempt]. unfold bind.
  destruct (unload_unrecognised m token sched sched1 (absorbed w) w1 opened
              U G) as [(-> & E)|[(-> & E1 & E)|(-> & E1 & E)]];
    try congruence; rewrite E; auto.
Qed.

Lemma invalid_verdict_aborts_after_open_witness :
  ascii_token (Some "ERROR_9")
  /\ awaiting_result (st M1 (sq both_loaded)) = true
  /\ unrecognised (Some "ERROR_9")
  /\ tester_result
       (st M1 (fst (external_test_complete (machine_id M1) (Some "ERROR_9")
                      (sq both_loaded))))
     = Some (normalize (Some "ERROR_9"))
  /\ worker_loop 1 open_finishes answered
     = Some (Ok tt, [],
             emit [invalid_line M1 (normalize (Some "ERROR_9"))] opened_world).
Proof.
  assert (A : awaiting_result (st M1 (sq both_loaded)) = true)
    by (vm_compute; reflexivity).
  assert (U : unrecognised (Some "ERROR_9"))
    by (split; vm_compute; reflexivity).
  pose proof (invalid_verdict_aborts_after_open M1 (Some "ERROR_9")
                (sq both_loaded) eq_refl A U) as T.
  split; [reflexivity|].
  split; [exact A|]. split; [exact U|]. split; [exact (proj1 (proj1 T))|].
  assert (R : tester_result (st M1 (sq answered))
              = Some (normalize (Some "ERROR_9")))
    by (vm_compute; reflexivity).
  assert (A' : awaiting_result (st M1 (sq answered)) = false)
    by (vm_compute; reflexivity).
  assert (K : slots_exist (sq answered)) by (split; vm_compute; discriminate).
  assert (Hp : _user_pause (sq answered) = false) by (vm_compute; reflexivity).
  assert (Hs : _stop_flag (sq answered) = false) by (vm_compute; reflexivity).
  assert (F : first_eligible (sq (absorbed answered)) = Some (Unload M1))
    by (vm_compute; reflexivity).
  assert (O : _run_micro_plan (plan_open M1 (sq (absorbed answered)))
                (plan_timeout_s (cfg (sq (absorbed answered))))
                open_finishes (absorbed answered)
              = Some (Ok true, [], opened_world))
    by (vm_compute; reflexivity).
  destruct (proj1 (proj2 T) answered opened_world open_finishes [] true 0%nat
              R A' K Hp Hs F O)
    as [[C _]|[(_ & _ & E)|(_ & C & _)]].
  - discriminate C.
  - exact E.
  - vm_compute in C. discriminate C.
Defined.

(** C4 (as the spec has it) fails: machine 1 awaits its verdict, "ERROR_9"
    is delivered and accepted, and the adapter raises a fault during the
    open plan that the worker then runs for machine 1; the run ends after
    that plan and no line reports an invalid verdict. *)
Lemma invalid_verdict_without_report :
  faulted_open_run = Some (Ok tt, [], world_left_by faulted_open_run)
  /\ logged "[M1] External test result: ERROR_9"
       (trace (world_left_by faulted_open_run)) = true
  /\ plans_requested (trace (world_left_by faulted_open_run))
     = ["PickFromTray_1"; "CloseMachine"; "PickFromTray_1"; "CloseMachine";
        "OpenMachine"]
  /\ logged "Plan 'OpenMachine' interrupted by FAULT"
       (trace (world_left_by faulted_open_run)) = true
  /\ existsb is_invalid_report (trace (world_left_by faulted_open_run)) = false.
Proof.
  split; [vm_compute; reflexivity|].
  split; [vm_compute; reflexivity|].
  split; [vm_compute; reflexivity|].
  split; vm_compute; reflexivity.
Qed.

(** ** Empty trays (C9) *)

Lemma machine_eq_dec (a b : Machine) : {a = b} + {a <> b}.
Proof. decide equality. Qed.

Lemma prologue_idle_empty (m : Machine) (s : Sequencer) (p1 p2 : Ping) :
  capacity m s = 0 -> at_rest m s ->
  idle_empty m (fst (worker_prologue p1 p2 s)).
Proof.
  intros C (L & O & K). unfold idle_empty.
  assert (E : forall k : Machine,
             capacity k (fst (worker_prologue p1 p2 s)) = capacity k s
             /\ tester_loaded (st k (fst (worker_prologue p1 p2 s)))
                = tester_loaded (st k s)
             /\ tester_operating (st k (fst (worker_prologue p1 p2 s)))
                = tester_operating (st k s)
             /\ current_slotN (st k (fst (worker_prologue p1 p2 s)))
                = Some (match current_slotN (st k s) with
                        | Some x => x
                        | None => 1
                        end)).
  { intros k. open_object s. destruct p1, p2, k; repeat split. }
  destruct (E m) as (-> & -> & -> & ->). repeat (split; [assumption|]).
  eexists. split; [reflexivity|].
  destruct (current_slotN (st m s)); [exact K | lia].
Qed.

Lemma idle_empty_done (m : Machine) (s : Sequencer) :
  idle_empty m s -> station_done m s = true.
Proof.
  intros (C & L & O & k & K & Hk). unfold station_done.
  rewrite K, C, L, O.
  replace (0 <? k) with true by (symmetry; apply Z.ltb_lt; lia).
  reflexivity.
Qed.

Lemma idle_empty_unload (m : Machine) (p : bool) (sched : list Yield) (w : World) :
  idle_empty m (sq w) -> unload m p sched w = Some (Ok p, sched, w).
Proof.
  intros (_ & L & _). unfold unload, bind, read. rewrite L.
  now rewrite andb_false_r.
Qed.

Lemma idle_empty_load (m : Machine) (p : bool) (sched : list Yield) (w : World) :
  idle_empty m (sq w) -> load m p sched w = Some (Ok p, sched, w).
Proof.
  intros (C & L & O & k & K & Hk). unfold load, bind, read.
  destruct (_ && _ && _ && _)%bool; [|reflexivity].
  rewrite K, C. replace (k <=? 0) with false; [reflexivity|].
  symmetry. apply Z.leb_gt. lia.
Qed.

Lemma idle_call_keeps (m : Machine) (c : Call) (s : Sequencer) :
  static_call c -> idle_empty m s -> idle_empty m (fst (apply_call c s)).
Proof.
  intros Hc (C & L & O & k & K & Hk). unfold idle_empty.
  destruct c as [n| | | |ev payload| |i v|j]; cbn [apply_call static_call] in *.
  - destruct n; [contradiction|].
    open_object s. unfold start_seq_worker, and_then, start_listener.
    destruct m; cbn in *; split_ifs; cbn; eauto 10.
  - open_object s. unfold stop, and_then, stop_listener.
    destruct m; cbn in *; split_ifs; cbn; eauto 10.
  - destruct m; cbn in *; eauto 10.
  - destruct m; cbn in *; eauto 10.
  - unfold on_backend_event.
    destruct (ev =? BackendEvents.FAULT)%string;
      [|destruct (ev =? BackendEvents.STOPPED)%string];
      destruct m; cbn in *; eauto 10.
  - rewrite reset_assigns.
    destruct m; cbn in *;
      (split; [assumption
              | split; [reflexivity
                       | split; [reflexivity
                                | exists 1; split; [reflexivity | lia]]]]).
  - unfold external_test_complete.
    destruct (i =? 1); [|destruct (i =? 2)];
      unfold deliver;
      try match goal with |- context [awaiting_result (st ?x s)] =>
            destruct (awaiting_result (st x s)) end;
      destruct m; cbn in *; eauto 10.
  - destruct m, j; cbn in *; eauto 10.
Qed.

Lemma idle_upd_other (m k : Machine) (f : Tester -> Tester) (s : Sequencer) :
  k <> m -> idle_empty m s -> idle_empty m (upd_st k f s).
Proof.
  intros N H. destruct k, m; try congruence; destruct s; exact H.
Qed.

Lemma idle_run_micro_plan (m : Machine) (plan_name : string) (timeout_s : Z) :
  keeps (idle_empty m) static_call (_run_micro_plan plan_name timeout_s).
Proof.
  apply keeps_run_micro_plan.
  - apply idle_call_keeps.
  - intros s H. destruct m; exact H.
  - intros s H. destruct m; exact H.
Qed.

Lemma idle_absorb (m k : Machine) :
  keeps (idle_empty m) static_call (absorb k).
Proof.
  intros sched w r sched' w' Hq HP H. rewrite absorb_eq in H.
  inversion H; subst. split; [|assumption].
  unfold absorb_world. destruct (tester_done_evt (st k (sq w))); [|exact HP].
  rewrite !act_sq. cbn [assign fst].
  destruct HP as (C & L & O & x & K & Hx).
  destruct k, m; destruct (sq w) as [? ? ? ? ? ? ? ? ? ? [] []];
    cbn in *; repeat split; eauto.
Qed.

Ltac idle_keeps N :=
  repeat first
    [ apply keeps_ret | apply keeps_brk | apply keeps_raise | apply keeps_say
    | apply idle_run_micro_plan
    | apply keeps_perform; intros ? ?; cbn [assign fst];
      apply idle_upd_other; [exact N | assumption]
    | apply keeps_read; intros ? ?
    | apply keeps_bind; [|intros ?]
    | match goal with
      | |- keeps _ _ (if ?b then _ else _) => destruct b
      | |- keeps _ _ (match ?o with Some _ => _ | None => _ end) => destruct o
      end ].

Lemma keeps_skip {A : Type} (P : Sequencer -> Prop) (Q : Call -> Prop)
  (c : Run A) :
  (forall sched w, P (sq w) -> exists a, c sched w = Some (Ok a, sched, w)) ->
  keeps P Q c.
Proof.
  intros Hc sched w r sched' w' Hq HP H.
  destruct (Hc sched w HP) as [a E]. rewrite E in H. inversion H; subst.
  now split.
Qed.

Lemma idle_unload (m k : Machine) (p : bool) :
  keeps (idle_empty m) static_call (unload k p).
Proof.
  destruct (machine_eq_dec k m) as [->|N].
  - apply keeps_skip. intros sched w H. exists p. now apply idle_empty_unload.
  - unfold unload. idle_keeps N.
Qed.

Lemma idle_load (m k : Machine) (p : bool) :
  keeps (idle_empty m) static_call (load k p).
Proof.
  destruct (machine_eq_dec k m) as [->|N].
  - apply keeps_skip. intros sched w H. exists p. now apply idle_empty_load.
  - unfold load. idle_keeps N.
Qed.

Lemma idle_loop_body (m : Machine) :
  keeps (idle_empty m) static_call loop_body.
Proof.
  unfold loop_body, after_checks, transitions, finish_pass, machine_done.
  repeat first
    [ apply idle_absorb | apply idle_unload | apply idle_load
    | apply keeps_ret | apply keeps_brk | apply keeps_raise | apply keeps_say
    | apply keeps_nap; apply idle_call_keeps
    | apply keeps_wait; apply idle_call_keeps
    | apply keeps_read; intros ? ?
    | apply keeps_bind; [|intros ?]
    | match goal with
      | |- keeps _ _ (if ?b then _ else _) => destruct b
      | |- keeps _ _ (match ?o with Some _ => _ | None => _ end) => destruct o
      end ].
Qed.

Lemma plans_requested_app (a b : list Event) :
  plans_requested (a ++ b) = (plans_requested a ++ plans_requested b)%list.
Proof. apply flat_map_app. Qed.

Lemma no_plan_requested (es : list Event) :
  no_plan es -> plans_requested es = [].
Proof.
  induction 1 as [|e es He _ IH]; [reflexivity|].
  cbn [plans_requested flat_map]. fold (plans_requested es). rewrite IH.
  destruct e; try reflexivity; discriminate.
Qed.

Lemma prologue_logs_only (p1 p2 : Ping) (s : Sequencer) :
  no_plan (snd (worker_prologue p1 p2 s)).
Proof.
  unfold worker_prologue, no_plan. rewrite !and_then_eq.
  destruct p1, p2; cbn; repeat constructor.
Qed.

Lemma prologue_flags (p1 p2 : Ping) (s : Sequencer) :
  _user_pause (fst (worker_prologue p1 p2 s)) = _user_pause s
  /\ _stop_flag (fst (worker_prologue p1 p2 s)) = _stop_flag s.
Proof. open_object s. destruct p1, p2; split; reflexivity. Qed.

Lemma absorb_world_trace (m : Machine) (w : World) :
  trace (absorb_world m w) = trace w.
Proof.
  unfold absorb_world. destruct (tester_done_evt (st m (sq w))); [|reflexivity].
  rewrite !act_trace. cbn. now rewrite !app_nil_r.
Qed.

Lemma absorbed_trace (w : World) : trace (absorbed w) = trace w.
Proof. unfold absorbed. now rewrite !absorb_world_trace. Qed.

Lemma absorbed_idle (m : Machine) (w : World) :
  idle_empty m (sq w) -> idle_empty m (sq (absorbed w)).
Proof.
  intros H. unfold absorbed.
  assert (S1 : idle_empty m (sq (absorb_world M1 w))).
  { exact (proj1 (idle_absorb m M1 [] w (Ok tt) [] _ (Forall_nil _) H
                    (absorb_eq M1 [] w))). }
  exact (proj1 (idle_absorb m M2 [] _ (Ok tt) [] _ (Forall_nil _) S1
                  (absorb_eq M2 [] _))).
Qed.

Lemma idle_slot_exists (m : Machine) (s : Sequencer) :
  idle_empty m s -> current_slotN (st m s) <> None.
Proof. intros (_ & _ & _ & k & K & _). congruence. Qed.

(** With both trays empty a pass leaves the loop without a request. *)
Lemma empty_pass (sched : list Yield) (w : World) :
  idle_empty M1 (sq w) -> idle_empty M2 (sq w) ->
  _user_pause (sq w) = false -> _stop_flag (sq w) = false ->
  loop_body sched w
  = Some (Brk, sched,
          emit [Log "[SEQ] All slots processed for both machines — exiting."]
            (absorbed w)).
Proof.
  intros I1 I2 Hp Hs.
  rewrite (loop_body_unpaused _ _ Hp Hs), after_checks_eq.
  pose proof (absorbed_idle M1 w I1) as A1.
  pose proof (absorbed_idle M2 w I2) as A2.
  unfold transitions, bind.
  rewrite (idle_empty_unload M1 false _ _ A1), (idle_empty_load M1 false _ _ A1).
  rewrite (idle_empty_unload M2 false _ _ A2), (idle_empty_load M2 false _ _ A2).
  rewrite finish_pass_eq
    by (split; [now apply idle_slot_exists | now apply idle_slot_exists]).
  unfold all_done.
  now rewrite (idle_empty_done M1 _ A1), (idle_empty_done M2 _ A2).
Qed.

Lemma empty_run (s : Sequencer) (p1 p2 : Ping) (sched : list Yield)
  (clk : Z) (tr : list Event) :
  capacity M1 s = 0 -> capacity M2 s = 0 ->
  at_rest M1 s -> at_rest M2 s -> _user_pause s = false ->
  exists w' : World,
    _worker p1 p2 sched {| sq := s; clock := clk; trace := tr |}
    = Some (Ok tt, sched, w')
    /\ plans_requested (trace w') = plans_requested tr.
Proof.
  intros C1 C2 R1 R2 Hp.
  set (w := {| sq := s; clock := clk; trace := tr |}).
  set (w1 := act (worker_prologue p1 p2) w).
  assert (I1 : idle_empty M1 (sq w1))
    by (unfold w1; rewrite act_sq; now apply prologue_idle_empty).
  assert (I2 : idle_empty M2 (sq w1))
    by (unfold w1; rewrite act_sq; now apply prologue_idle_empty).
  assert (Hp1 : _user_pause (sq w1) = false).
  { unfold w1. rewrite act_sq.
    exact (eq_trans (proj1 (prologue_flags p1 p2 (sq w))) Hp). }
  assert (T1 : plans_requested (trace w1) = plans_requested tr).
  { unfold w1. rewrite act_trace, plans_requested_app.
    rewrite (no_plan_requested _ (prologue_logs_only p1 p2 _)).
    unfold w. cbn [trace]. apply app_nil_r. }
  assert (L : exists w2,
             worker_loop (S (List.length sched)) sched w1 = Some (Ok tt, sched, w2)
             /\ plans_requested (trace w2) = plans_requested tr).
  { destruct (_stop_flag (sq w1)) eqn:Hs.
    - exists w1. cbn [worker_loop]. rewrite Hs. now split.
    - eexists. rewrite (worker_loop_pass _ _ _ Hs).
      rewrite (empty_pass _ _ I1 I2 Hp1 Hs). split; [reflexivity|].
      cbn [emit trace]. rewrite plans_requested_app, absorbed_trace, T1.
      apply app_nil_r. }
  destruct L as (w2 & E & T2).
  exists (act worker_finally w2). split.
  - unfold _worker, worker_try, bind, perform. fold w w1. now rewrite E.
  - rewrite act_trace, plans_requested_app, T2.
    rewrite (no_plan_requested _ (worker_finally_logs_only _)).
    apply app_nil_r.
Qed.

(** C9. A machine whose tray is empty when the worker starts satisfies the
    exit test of the loop from the first pass on, its unload and load
    blocks do nothing in any pass (no plan is requested for it), and this
    stays so through the whole loop as long as no call changes the tray
    sizes; when both trays are empty and the run is not paused, the worker
    ends without consuming a yield and without a single request to the
    adapter. *)
Theorem empty_tray_runs_no_plan :
  forall (m : Machine) (s : Sequencer) (p1 p2 : Ping),
    capacity m s = 0 ->
    at_rest m s ->
    idle_empty m (fst (worker_prologue p1 p2 s))
    /\ (forall w : World,
          idle_empty m (sq w) ->
          station_done m (sq w) = true
          /\ forall (p : bool) (sched : list Yield),
               unload m p sched w = Some (Ok p, sched, w)
               /\ load m p sched w = Some (Ok p, sched, w))
    /\ (forall fuel : nat, keeps (idle_empty m) static_call (worker_loop fuel))
    /\ (forall (m' : Machine) (sched : list Yield) (clk : Z) (tr : list Event),
          m' <> m -> capacity m' s = 0 -> at_rest m' s ->
          _user_pause s = false ->
          exists w' : World,
            _worker p1 p2 sched {| sq := s; clock := clk; trace := tr |}
            = Some (Ok tt, sched, w')
            /\ plans_requested (trace w') = plans_requested tr).
Proof.
  intros m s p1 p2 C R.
  split; [now apply prologue_idle_empty|].
  split.
  { intros w I. split; [now apply idle_empty_done|].
    intros p sched. split;
      [now apply idle_empty_unload | now apply idle_empty_load]. }
  split.
  { intros fuel. apply keeps_worker_loop. apply idle_loop_body. }
  intros m' sched clk tr N C' R' Hp.
  destruct m, m'; try congruence; now apply empty_run.
Qed.

Lemma empty_tray_runs_no_plan_witness :
  capacity M1 started_empty = 0
  /\ at_rest M1 started_empty
  /\ idle_empty M1 (fst (worker_prologue PingOk PingOk started_empty))
  /\ exists w' : World,
       _worker PingOk PingOk [] (world_of started_empty) = Some (Ok tt, [], w')
       /\ plans_requested (trace w') = plans_requested [].
Proof.
  assert (C : capacity M1 started_empty = 0) by reflexivity.
  assert (R : at_rest M1 started_empty) by (repeat split).
  pose proof (empty_tray_runs_no_plan M1 started_empty PingOk PingOk C R) as T.
  split; [exact C|]. split; [exact R|]. split; [exact (proj1 T)|].
  apply (proj2 (proj2 (proj2 T)) M2 [] 0 []).
  - discriminate.
  - reflexivity.
  - repeat split.
  - reflexivity.
Defined.


(** * Further properties of the sequencer *)

(** ** Control plane *)

Lemma stop_state (s : Sequencer) :
  fst (stop s) =
    upd_st M2 (fun t => match halt_serial t with
                        | Some _ => set_halt_serial (Some true) t
                        | None => t
                        end)
      (upd_st M1 (fun t => match halt_serial t with
                           | Some _ => set_halt_serial (Some true) t
                           | None => t
                           end)
         (set_fault_evt true (set_plan_done_evt true (set_stop_flag true s)))).
Proof.
  unfold stop. rewrite !and_then_eq. cbn [fst assign log].
  now rewrite !stop_listener_fst.
Qed.

(** X1. [stop()] requests the stop and sets both wake-up events; a second
    [stop()] leaves the object exactly as the first left it. *)
Theorem stop_is_idempotent :
  forall s : Sequencer,
    _stop_flag (fst (stop s)) = true
    /\ _plan_done_evt (fst (stop s)) = true
    /\ _fault_evt (fst (stop s)) = true
    /\ fst (stop (fst (stop s))) = fst (stop s).
Proof.
  intros s. rewrite !stop_state.
  destruct s as [? ? ? ? ? ? ? ? ? ? [? ? h1 ? ? ? ? ? ?] [? ? h2 ? ? ? ? ? ?]].
  split; [reflexivity|]. split; [reflexivity|]. split; [reflexivity|].
  destruct h1, h2; reflexivity.
Qed.

(** X2. [reset()] applied twice gives the object that one [reset()]
    gives. *)
Theorem reset_is_idempotent :
  forall s : Sequencer, fst (reset (fst (reset s))) = fst (reset s).
Proof. intros s. rewrite !reset_assigns. reflexivity. Qed.

Lemma sleep_sq (ms : Z) (y : Yield) (w : World) :
  sq (sleep ms y w) = fst (apply_calls (y_calls y) (sq w)).
Proof. unfold sleep, resume_after. cbn [sq]. now rewrite act_sq. Qed.

Lemma sleep_clock (ms : Z) (y : Yield) (w : World) :
  clock (sleep ms y w) = y_clock y.
Proof. reflexivity. Qed.

Lemma sleep_trace (ms : Z) (y : Yield) (w : World) :
  trace (sleep ms y w)
  = (trace w ++ [Sleep ms] ++ snd (apply_calls (y_calls y) (sq w)))%list.
Proof.
  unfold sleep, resume_after. cbn [trace]. rewrite act_trace. cbn [emit trace sq].
  now rewrite <- app_assoc.
Qed.

Lemma undecided_flags (timeout_s t0 : Z) (w : World) :
  undecided timeout_s t0 w = true ->
  _fault_evt (sq w) = false /\ _plan_done_evt (sq w) = false
  /\ (timeout_s <? clock w - t0) = false /\ _stop_flag (sq w) = false.
Proof.
  unfold undecided. intros U.
  repeat (apply andb_prop in U; destruct U as [U ?]).
  rewrite negb_true_iff in *. now repeat split.
Qed.

Lemma poll_undecided (plan_name : string) (timeout_s t0 : Z) (y : Yield)
  (rest : list Yield) (w : World) :
  undecided timeout_s t0 w = true ->
  poll plan_name timeout_s t0 (y :: rest) w
  = poll plan_name timeout_s t0 rest (sleep 50 y w).
Proof.
  intros U. destruct (undecided_flags _ _ _ U) as (F & D & T & S).
  rewrite poll_unfold, F, D, T, S. reflexivity.
Qed.

(** X3. A [stop()] made while [_run_micro_plan] sleeps between two polls
    (and not followed by another call in that sleep) ends the plan at the
    very next poll with [False]; the line logged is the one of a fault,
    because [stop()] sets the fault event to wake the runner. *)
Theorem stop_ends_plan_at_next_poll :
  forall (plan_name : string) (timeout_s t0 : Z) (y : Yield)
         (rest : list Yield) (w : World) (before : list Call),
    undecided timeout_s t0 w = true ->
    y_calls y = (before ++ [CallStop])%list ->
    poll plan_name timeout_s t0 (y :: rest) w
    = Some (Ok false, rest,
            emit [Log ("Plan '" ++ plan_name ++ "' interrupted by FAULT")]
              (sleep 50 y w))
    /\ _stop_flag (sq (sleep 50 y w)) = true.
Proof.
  intros plan_name timeout_s t0 y rest w before U Hy.
  assert (E : sq (sleep 50 y w)
              = fst (stop (fst (apply_calls before (sq w))))).
  { rewrite sleep_sq, Hy, apply_calls_app. cbn [fst apply_calls apply_call].
    now rewrite and_then_eq. }
  rewrite (poll_undecided _ _ _ _ _ _ U), poll_unfold, E, stop_state.
  split; reflexivity.
Qed.

Lemma stop_ends_plan_at_next_poll_witness :
  undecided 120000 10 polling = true
  /\ y_calls stop_pressed = ([plan_finished] ++ [CallStop])%list
  /\ poll "OpenMachine" 120000 10 (stop_pressed :: []) polling
     = Some (Ok false, [],
             emit [Log ("Plan '" ++ "OpenMachine" ++ "' interrupted by FAULT")]
               (sleep 50 stop_pressed polling))
  /\ _stop_flag (sq (sleep 50 stop_pressed polling)) = true.
Proof.
  assert (U : undecided 120000 10 polling = true) by (vm_compute; reflexivity).
  split; [exact U|]. split; [reflexivity|].
  exact (stop_ends_plan_at_next_poll "OpenMachine" 120000 10 stop_pressed []
           polling [plan_finished] U eq_refl).
Defined.

(** ** The micro-plan runner, further *)

(** What a finished poll loop tells. *)
Lemma poll_result (plan_name : string) (timeout_s t0 : Z) :
  forall (sched sched' : list Yield) (w w' : World) (r : Res bool),
    poll plan_name timeout_s t0 sched w = Some (r, sched', w') ->
    (exists b : bool, r = Ok b)
    /\ (r = Ok true ->
        _plan_done_evt (sq w') = true /\ _fault_evt (sq w') = false
        /\ _stop_flag (sq w') = false)
    /\ (List.length sched' <= List.length sched)%nat.
Proof.
  intros sched. induction sched as [|y rest IH]; intros sched' w w' r H;
    rewrite poll_unfold in H;
    destruct (_fault_evt (sq w)) eqn:F;
    try (inversion H; subst; split; [eexists; reflexivity|];
         split; [discriminate | apply Nat.le_refl]);
    destruct (_plan_done_evt (sq w)) eqn:D;
    try (destruct (_stop_flag (sq w)) eqn:S; inversion H; subst;
         (split; [eexists; reflexivity|]);
         (split; [try discriminate; intros _; now repeat split
                 | apply Nat.le_refl]));
    destruct (timeout_s <? clock w - t0);
    try (inversion H; subst; split; [eexists; reflexivity|];
         split; [discriminate | apply Nat.le_refl]);
    destruct (_stop_flag (sq w));
    try (inversion H; subst; split; [eexists; reflexivity|];
         split; [discriminate | apply Nat.le_refl]);
    try discriminate.
  destruct (IH _ _ _ _ H) as (A & B & C).
  split; [exact A|]. split; [exact B|]. cbn [List.length]. lia.
Qed.

(** The poll loop returns at the latest at the poll that follows a yield
    whose clock reading is past the deadline. *)
Lemma poll_total (plan_name : string) (timeout_s t0 : Z) (ys : list Yield)
  (y : Yield) (rest : list Yield) (w : World) :
  timeout_s < y_clock y - t0 ->
  exists (b : bool) (sched' : list Yield) (w' : World),
    poll plan_name timeout_s t0 (ys ++ y :: rest) w = Some (Ok b, sched', w')
    /\ (List.length rest <= List.length sched')%nat.
Proof.
  intros T. revert w.
  assert (Last : forall w : World,
             clock w = y_clock y ->
             exists (b : bool) (w' : World),
               poll plan_name timeout_s t0 rest w = Some (Ok b, rest, w')).
  { intros w C. rewrite poll_unfold, C.
    destruct (_fault_evt (sq w)); [eexists _, _; reflexivity|].
    destruct (_plan_done_evt (sq w));
      [destruct (_stop_flag (sq w)); eexists _, _; reflexivity|].
    apply Z.ltb_lt in T. rewrite T. eexists _, _; reflexivity. }
  induction ys as [|x ys IH]; intros w; cbn [app].
  - rewrite poll_unfold.
    destruct (_fault_evt (sq w));
      [eexists _, _, _; split; [reflexivity | cbn [List.length]; lia]|].
    destruct (_plan_done_evt (sq w));
      [destruct (_stop_flag (sq w)); eexists _, _, _;
       (split; [reflexivity | cbn [List.length]; lia])|].
    destruct (timeout_s <? clock w - t0);
      [eexists _, _, _; split; [reflexivity | cbn [List.length]; lia]|].
    destruct (_stop_flag (sq w));
      [eexists _, _, _; split; [reflexivity | cbn [List.length]; lia]|].
    destruct (Last (sleep 50 y w) (sleep_clock 50 y w)) as (b & w' & E).
    exists b, rest, w'. split; [exact E | apply Nat.le_refl].
  - rewrite poll_unfold.
    destruct (_fault_evt (sq w));
      [eexists _, _, _; split;
       [reflexivity | cbn [List.length]; rewrite length_app; cbn; lia]|].
    destruct (_plan_done_evt (sq w));
      [destruct (_stop_flag (sq w)); eexists _, _, _;
       (split; [reflexivity
               | cbn [List.length]; rewrite length_app; cbn; lia])|].
    destruct (timeout_s <? clock w - t0);
      [eexists _, _, _; split;
       [reflexivity | cbn [List.length]; rewrite length_app; cbn; lia]|].
    destruct (_stop_flag (sq w));
      [eexists _, _, _; split;
       [reflexivity | cbn [List.length]; rewrite length_app; cbn; lia]|].
    apply IH.
Qed.


(** X4. [_run_micro_plan] returns a truth value, never a [break] or an
    exception: once the request has returned, it has returned by the first
    poll whose clock reading exceeds the time of the request by more than
    the timeout.  It gives [True] only after a request the adapter
    accepted, at a poll where the end of the plan is reported, no fault is
    reported and no stop is requested; it then has let the other threads
    run at least once. *)
Theorem plan_success_means_completion :
  forall (plan_name : string) (timeout_s : Z) (w : World),
    (forall (y0 y : Yield) (ys rest : list Yield),
       timeout_s < y_clock y - y_clock y0 ->
       exists (b : bool) (sched' : list Yield) (w' : World),
         _run_micro_plan plan_name timeout_s (y0 :: ys ++ y :: rest) w
         = Some (Ok b, sched', w')
         /\ (List.length rest <= List.length sched')%nat)
    /\ (forall (sched sched' : list Yield) (w' : World) (r : Res bool),
          _run_micro_plan plan_name timeout_s sched w = Some (r, sched', w') ->
          (exists b : bool, r = Ok b)
          /\ (r = Ok true ->
              _plan_done_evt (sq w') = true /\ _fault_evt (sq w') = false
              /\ _stop_flag (sq w') = false
              /\ (List.length sched' < List.length sched)%nat
              /\ exists (y : Yield) (speed : Z),
                   List.hd_error sched = Some y /\ y_start y = Started speed)).
Proof.
  intros plan_name timeout_s w. split.
  - intros y0 y ys rest T.
    destruct (y_start y0) as [e|speed e|speed] eqn:Y.
    + unfold _run_micro_plan, bind, say, perform, request.
      rewrite Y. cbn [negb]. eexists _, _, _. split; [reflexivity|].
      rewrite length_app. cbn [List.length]. lia.
    + unfold _run_micro_plan, bind, say, perform, request.
      rewrite Y. cbn [negb]. eexists _, _, _. split; [reflexivity|].
      rewrite length_app. cbn [List.length]. lia.
    + rewrite (run_micro_plan_started _ _ _ _ _ _ Y).
      now apply poll_total.
  - intros sched sched' w' r H.
    destruct sched as [|y rest]; [discriminate H|].
    destruct (y_start y) as [e|speed e|speed] eqn:Y.
    + unfold _run_micro_plan, bind, say, perform, request in H.
      rewrite Y in H. cbn in H. inversion H; subst.
      split; [eexists; reflexivity | discriminate].
    + unfold _run_micro_plan, bind, say, perform, request in H.
      rewrite Y in H. cbn in H. inversion H; subst.
      split; [eexists; reflexivity | discriminate].
    + rewrite (run_micro_plan_started _ _ _ _ _ _ Y) in H.
      destruct (poll_result _ _ _ _ _ _ _ _ H) as (A & B & C).
      split; [exact A|]. intros R. destruct (B R) as (B1 & B2 & B3).
      repeat (split; [assumption|]). split; [cbn [List.length]; lia|].
      now exists y, speed.
Qed.

Lemma plan_success_means_completion_witness :
  100 < y_clock (yield_at 160 []) - y_clock (yield_at 10 [])
  /\ exists (b : bool) (sched' : list Yield) (w' : World),
       _run_micro_plan "OpenMachine" 100
         (yield_at 10 [] :: [yield_at 60 []; yield_at 110 []]
                            ++ yield_at 160 [] :: [yield_at 210 []])
         (world_of started)
       = Some (Ok b, sched', w')
       /\ (List.length [yield_at 210 []] <= List.length sched')%nat.
Proof.
  assert (T : 100 < y_clock (yield_at 160 []) - y_clock (yield_at 10 []))
    by (cbn; lia).
  split; [exact T|].
  exact (proj1 (plan_success_means_completion "OpenMachine" 100
                  (world_of started))
           (yield_at 10 []) (yield_at 160 [])
           [yield_at 60 []; yield_at 110 []] [yield_at 210 []] T).
Defined.

(** X5. A fault raised before a plan is requested is forgotten by the
    runner: [_run_micro_plan] clears the fault event on entry and never
    reads [_fault], so with the adapter accepting the request and then
    reporting the end of the plan it gives [True] while [_fault] keeps its
    value. *)
Theorem fault_before_request_is_forgotten :
  forall (plan_name : string) (timeout_s speed : Z) (y : Yield)
         (rest : list Yield) (w : World),
    y_start y = Started speed ->
    y_calls y = [plan_finished] ->
    _stop_flag (sq w) = false ->
    exists w' : World,
      _run_micro_plan plan_name timeout_s (y :: rest) w = Some (Ok true, rest, w')
      /\ _fault (sq w') = _fault (sq w)
      /\ _fault_evt (sq w') = false.
Proof.
  intros plan_name timeout_s speed y rest w Y C S.
  rewrite (run_micro_plan_started _ _ _ _ _ _ Y), poll_unfold.
  assert (E : sq (at_first_poll plan_name speed y w)
              = set_plan_done_evt true
                  (set_fault_evt false (set_plan_done_evt false (sq w)))).
  { unfold at_first_poll, resume_after. cbn [sq]. rewrite act_sq, C.
    cbn [emit sq]. rewrite !act_sq. reflexivity. }
  rewrite E. cbn [_fault_evt _plan_done_evt _stop_flag set_plan_done_evt
                    set_fault_evt].
  rewrite S. eexists. split; [reflexivity|]. cbn [emit sq]. rewrite E.
  split; reflexivity.
Qed.

Lemma fault_before_request_is_forgotten_witness :
  y_start (yield_at 10 [plan_finished]) = Started 100
  /\ y_calls (yield_at 10 [plan_finished]) = [plan_finished]
  /\ _stop_flag (sq (world_of faulted)) = false
  /\ _fault (sq (world_of faulted)) = true
  /\ exists w' : World,
       _run_micro_plan "OpenMachine" 120000 (yield_at 10 [plan_finished] :: [])
         (world_of faulted) = Some (Ok true, [], w')
       /\ _fault (sq w') = _fault (sq (world_of faulted))
       /\ _fault_evt (sq w') = false.
Proof.
  split; [reflexivity|]. split; [reflexivity|]. split; [reflexivity|].
  split; [reflexivity|].
  exact (fault_before_request_is_forgotten "OpenMachine" 120000 100
           (yield_at 10 [plan_finished]) [] (world_of faulted)
           eq_refl eq_refl eq_refl).
Defined.

(** No public method requests a plan from the adapter. *)
Lemma call_requests_no_plan (c : Call) (s : Sequencer) :
  plans_requested (snd (apply_call c s)) = [].
Proof.
  destruct c as [n| | | |ev payload| |i v|j]; cbn [apply_call].
  - open_object s. unfold start_seq_worker, and_then, start_listener.
    destruct n; cbn; split_ifs; reflexivity.
  - open_object s. unfold stop, and_then, stop_listener.
    cbn; split_ifs; reflexivity.
  - reflexivity.
  - reflexivity.
  - unfold on_backend_event.
    destruct (ev =? BackendEvents.FAULT)%string;
      [|destruct (ev =? BackendEvents.STOPPED)%string]; reflexivity.
  - reflexivity.
  - unfold external_test_complete.
    destruct (i =? 1); [|destruct (i =? 2)]; unfold deliver;
      try match goal with |- context [awaiting_result (st ?x s)] =>
            destruct (awaiting_result (st x s)) end;
      reflexivity.
  - reflexivity.
Qed.

Lemma calls_request_no_plan (cs : list Call) :
  forall s : Sequencer, plans_requested (snd (apply_calls cs s)) = [].
Proof.
  induction cs as [|c cs IH]; intros s; cbn [apply_calls]; [reflexivity|].
  rewrite and_then_eq. cbn [snd]. rewrite plans_requested_app.
  now rewrite call_requests_no_plan, IH.
Qed.

Lemma sleep_requests_no_plan (ms : Z) (y : Yield) (w : World) :
  plans_requested (trace (sleep ms y w)) = plans_requested (trace w).
Proof.
  rewrite sleep_trace, !plans_requested_app, calls_request_no_plan.
  cbn. now rewrite app_nil_r.
Qed.

(** What the last call of a yield leaves, when it is [resume()] or
    [stop()]. *)
Lemma released_after (y : Yield) (before : list Call) (c : Call) (ms : Z)
  (w : World) :
  y_calls y = (before ++ [c])%list ->
  c = CallResume \/ c = CallStop ->
  _user_pause (sq (sleep ms y w)) = false \/ _stop_flag (sq (sleep ms y w)) = true.
Proof.
  intros Hy [->| ->]; rewrite sleep_sq, Hy, apply_calls_app;
    cbn [fst apply_calls apply_call]; rewrite and_then_eq; cbn [fst assign].
  - left. reflexivity.
  - right. rewrite stop_state. reflexivity.
Qed.

Lemma wait_released (sched : list Yield) (w : World) :
  _user_pause (sq w) = false \/ _stop_flag (sq w) = true ->
  _wait_if_user_paused sched w = Some (Ok tt, sched, w).
Proof.
  intros H.
  assert (E : (_user_pause (sq w) && negb (_stop_flag (sq w)))%bool = false)
    by (destruct H as [-> | ->]; [reflexivity | apply andb_false_r]).
  destruct sched; cbn [_wait_if_user_paused]; now rewrite E.
Qed.

(** X6. [_wait_if_user_paused] returns at once, having consumed nothing,
    when the run is not paused or stop is requested.  While the run is
    paused and no stop is requested, each round is one sleep of 50 ms.  It
    has returned at the latest after the sleep during which [resume()] or
    [stop()] is the last call.  When it returns, the run is not paused or
    stop is requested, and no plan has been requested meanwhile. *)
Theorem pause_holds_the_worker :
  forall (sched : list Yield) (w : World),
    ((_user_pause (sq w) = false \/ _stop_flag (sq w) = true) ->
     _wait_if_user_paused sched w = Some (Ok tt, sched, w))
    /\ (_user_pause (sq w) = true -> _stop_flag (sq w) = false ->
        forall (y : Yield) (rest : list Yield),
          sched = y :: rest ->
          _wait_if_user_paused sched w
          = _wait_if_user_paused rest (sleep 50 y w))
    /\ (forall (ys : list Yield) (y : Yield) (rest : list Yield)
               (before : list Call) (c : Call),
          sched = (ys ++ y :: rest)%list ->
          y_calls y = (before ++ [c])%list ->
          c = CallResume \/ c = CallStop ->
          exists (sched' : list Yield) (w' : World),
            _wait_if_user_paused sched w = Some (Ok tt, sched', w')
            /\ (List.length rest <= List.length sched')%nat)
    /\ (forall (r : Res unit) (sched' : list Yield) (w' : World),
          _wait_if_user_paused sched w = Some (r, sched', w') ->
          r = Ok tt
          /\ (_user_pause (sq w') = false \/ _stop_flag (sq w') = true)
          /\ plans_requested (trace w') = plans_requested (trace w)).
Proof.
  intros sched w.
  split; [apply wait_released|].
  split.
  { intros P S y rest ->. cbn [_wait_if_user_paused]. now rewrite P, S. }
  split.
  { intros ys y rest before c -> Hy Hc. revert w.
    induction ys as [|x ys IH]; intros w; cbn [app _wait_if_user_paused];
      destruct (_user_pause (sq w) && negb (_stop_flag (sq w)))%bool.
    - rewrite (wait_released rest _ (released_after y before c 50 w Hy Hc)).
      eexists _, _. split; [reflexivity | apply Nat.le_refl].
    - eexists _, _. split; [reflexivity | cbn [List.length]; lia].
    - apply IH.
    - eexists _, _. split; [reflexivity|].
      cbn [List.length]. rewrite length_app. cbn [List.length]. lia. }
  revert w. induction sched as [|y rest IH]; intros w r sched' w' H;
    cbn [_wait_if_user_paused] in H;
    destruct (_user_pause (sq w)) eqn:P; destruct (_stop_flag (sq w)) eqn:S;
    cbn [andb negb] in H; try discriminate;
    try (inversion H; subst; rewrite ?P, ?S;
         repeat split; auto; fail).
  destruct (IH _ _ _ _ H) as (A & B & C).
  split; [exact A|]. split; [exact B|].
  now rewrite C, sleep_requests_no_plan.
Qed.

Lemma pause_holds_the_worker_witness :
  _user_pause (sq (world_of paused_example)) = true
  /\ _stop_flag (sq (world_of paused_example)) = false
  /\ _wait_if_user_paused resume_schedule (world_of paused_example)
     = _wait_if_user_paused [yield_at 100 [CallResume]; yield_at 150 []]
         (sleep 50 (yield_at 50 []) (world_of paused_example))
  /\ exists (sched' : list Yield) (w' : World),
       _wait_if_user_paused resume_schedule (world_of paused_example)
       = Some (Ok tt, sched', w')
       /\ (List.length [yield_at 150 []] <= List.length sched')%nat.
Proof.
  split; [reflexivity|]. split; [reflexivity|].
  split.
  - exact (proj1 (proj2 (pause_holds_the_worker resume_schedule
                           (world_of paused_example)))
             eq_refl eq_refl (yield_at 50 [])
             [yield_at 100 [CallResume]; yield_at 150 []] eq_refl).
  - exact (proj1 (proj2 (proj2 (pause_holds_the_worker resume_schedule
                                  (world_of paused_example))))
             [yield_at 50 []] (yield_at 100 [CallResume]) [yield_at 150 []]
             [] CallResume eq_refl eq_refl (or_introl eq_refl)).
Defined.

(** X7. Whatever the adapter does, the poll loop of [_run_micro_plan] has
    returned by the first poll whose clock reading exceeds the start time
    by more than the timeout: it consumes no yield after the one that
    brings this reading. *)
Theorem poll_returns_by_deadline :
  forall (plan_name : string) (timeout_s t0 : Z) (ys : list Yield) (y : Yield)
         (rest : list Yield) (w : World),
    timeout_s < y_clock y - t0 ->
    exists (b : bool) (sched' : list Yield) (w' : World),
      poll plan_name timeout_s t0 (ys ++ y :: rest) w = Some (Ok b, sched', w')
      /\ (List.length rest <= List.length sched')%nat.
Proof. exact poll_total. Qed.

Lemma poll_returns_by_deadline_witness :
  100 < y_clock (yield_at 160 []) - 10
  /\ exists (b : bool) (sched' : list Yield) (w' : World),
       poll "OpenMachine" 100 10
         ([yield_at 60 []; yield_at 110 []] ++ yield_at 160 [] :: [yield_at 210 []])
         polling = Some (Ok b, sched', w')
       /\ (List.length [yield_at 210 []] <= List.length sched')%nat.
Proof.
  assert (T : 100 < y_clock (yield_at 160 []) - 10) by (cbn; lia).
  split; [exact T|].
  exact (poll_returns_by_deadline "OpenMachine" 100 10
           [yield_at 60 []; yield_at 110 []] (yield_at 160 [])
           [yield_at 210 []] polling T).
Defined.

(** ** The transitions of a machine *)

Lemma load_condition (m : Machine) (s : Sequencer) :
  load_guard m s = true ->
  (tester_commready (st m s) && negb false
   && negb (tester_operating (st m s)) && negb (tester_loaded (st m s)))%bool
  = true
  /\ exists k : Z, current_slotN (st m s) = Some k /\ (k <=? capacity m s) = true.
Proof.
  unfold load_guard. intros G. apply andb_prop in G. destruct G as [G1 G2].
  cbn [negb]. rewrite andb_true_r. split; [exact G1|].
  destruct (current_slotN (st m s)) as [k|]; [|discriminate].
  now exists k.
Qed.

(** X8. With a plain pick template, a load whose pick and close plans both
    complete marks the machine as awaiting its verdict, testing and loaded,
    and advances its slot index by one (from the value it has after the
    plans); nothing else changes and nothing is logged by the block itself.
    When the pick plan or the close plan does not complete, the loop is
    left with the object as that plan left it. *)
Theorem load_marks_machine_and_advances_slot :
  forall (m : Machine) (sched s1 : list Yield) (w w1 : World) (k : Z)
         (picked : bool),
    PyStr.plain_template (plan_pick_fmt (mc m (cfg (sq w)))) = true ->
    load_guard m (sq w) = true ->
    current_slotN (st m (sq w)) = Some k ->
    _run_micro_plan (plan_pick m (sq w) k) (plan_timeout_s (cfg (sq w))) sched w
    = Some (Ok picked, s1, w1) ->
    (picked = false -> load m false sched w = Some (Brk, s1, w1))
    /\ (picked = true ->
        forall (closed : bool) (s2 : list Yield) (w2 : World),
          _run_micro_plan (plan_close m (sq w1)) (plan_timeout_s (cfg (sq w1)))
            s1 w1 = Some (Ok closed, s2, w2) ->
          (closed = false -> load m false sched w = Some (Brk, s2, w2))
          /\ (closed = true ->
              forall k' : Z,
                current_slotN (st m (sq w2)) = Some k' ->
                exists w' : World,
                  load m false sched w = Some (Ok true, s2, w')
                  /\ sq w' = loaded_state m k' (sq w2)
                  /\ trace w' = trace w2 /\ clock w' = clock w2)).
Proof.
  intros m sched s1 w w1 k picked _ G K Hpick.
  destruct (load_condition _ _ G) as (C & k0 & K0 & Hk).
  assert (k0 = k) by congruence. subst k0.
  remember (load m false sched w) as u eqn:Hu.
  unfold load, bind at 1, read in Hu. rewrite C, K, Hk in Hu.
  unfold bind at 1 in Hu. rewrite Hpick in Hu.
  split.
  - intros ->. exact Hu.
  - intros -> closed s2 w2 Hclose. cbn [negb] in Hu.
    unfold bind at 1, read in Hu. unfold bind at 1 in Hu.
    rewrite Hclose in Hu. split.
    + intros ->. exact Hu.
    + intros -> k' K'. cbn [negb] in Hu.
      unfold bind at 1, perform in Hu. unfold bind at 1, read in Hu.
      assert (E : current_slotN
                    (st m (sq (act (assign (upd_st m (set_awaiting_result true))) w2)))
                  = Some k').
      { rewrite act_sq. cbn [assign fst]. rewrite <- K'.
        destruct m; reflexivity. }
      rewrite E in Hu. unfold bind, perform, ret in Hu.
      eexists. split; [exact Hu|].
      rewrite !act_sq, !act_trace, !act_clock. cbn [assign fst snd].
      rewrite !app_nil_r. repeat split.
Qed.

Lemma load_marks_machine_and_advances_slot_witness :
  PyStr.plain_template (plan_pick_fmt (mc M1 (cfg (sq ready_world)))) = true
  /\ load_guard M1 (sq ready_world) = true
  /\ current_slotN (st M1 (sq ready_world)) = Some 1
  /\ exists w' : World,
       load M1 false two_plans_schedule ready_world = Some (Ok true, [], w')
       /\ sq w' = loaded_state M1 1 (sq closed_world)
       /\ trace w' = trace closed_world /\ clock w' = clock closed_world.
Proof.
  assert (G : load_guard M1 (sq ready_world) = true) by (vm_compute; reflexivity).
  assert (K : current_slotN (st M1 (sq ready_world)) = Some 1)
    by (vm_compute; reflexivity).
  assert (P : _run_micro_plan (plan_pick M1 (sq ready_world) 1)
                (plan_timeout_s (cfg (sq ready_world))) two_plans_schedule
                ready_world
              = Some (Ok true, [yield_at 20 [plan_finished]], picked_world))
    by (vm_compute; reflexivity).
  assert (C : _run_micro_plan (plan_close M1 (sq picked_world))
                (plan_timeout_s (cfg (sq picked_world)))
                [yield_at 20 [plan_finished]] picked_world
              = Some (Ok true, [], closed_world))
    by (vm_compute; reflexivity).
  assert (K' : current_slotN (st M1 (sq closed_world)) = Some 1)
    by (vm_compute; reflexivity).
  split; [reflexivity|]. split; [exact G|]. split; [exact K|].
  exact (proj2 (proj2 (load_marks_machine_and_advances_slot M1
                         two_plans_schedule _ ready_world picked_world 1 true
                         eq_refl G K P) eq_refl true [] closed_world C)
           eq_refl 1 K').
Defined.

(** X9. In an unload whose open plan completed, the verdict read after
    that plan selects the place plan: PASS the place-on-pass plan, FAIL the
    place-on-fail plan.  When the place plan completes the machine is no
    longer loaded and its verdict is cleared, nothing else changes and
    nothing is logged by the block itself; when it does not, the loop is
    left with the object as the place plan left it (the block assigns
    nothing then). *)
Theorem unload_places_by_verdict :
  forall (m : Machine) (sched s1 s2 : list Yield) (w w1 w2 : World)
         (r plan : string) (placed : bool),
    unload_guard m (sq w) = true ->
    _run_micro_plan (plan_open m (sq w)) (plan_timeout_s (cfg (sq w))) sched w
    = Some (Ok true, s1, w1) ->
    tester_result (st m (sq w1)) = Some r ->
    place_plan m (PyStr.upper (PyStr.strip r)) (sq w1) = Some plan ->
    _run_micro_plan plan (plan_timeout_s (cfg (sq w1))) s1 w1
    = Some (Ok placed, s2, w2) ->
    (placed = false -> unload m false sched w = Some (Brk, s2, w2))
    /\ (placed = true ->
        exists w' : World,
          unload m false sched w = Some (Ok true, s2, w')
          /\ sq w' = unloaded_state m (sq w2)
          /\ trace w' = trace w2 /\ clock w' = clock w2).
Proof.
  intros m sched s1 s2 w w1 w2 r plan placed G Hopen R Hplan Hplace.
  remember (unload m false sched w) as u eqn:Hu.
  unfold unload, bind at 1, read in Hu. rewrite unload_condition, G in Hu.
  unfold bind at 1 in Hu. rewrite Hopen in Hu. cbn [negb] in Hu.
  unfold bind at 1, read in Hu. rewrite R in Hu. cbn zeta in Hu.
  unfold place_plan in Hplan.
  unfold bind at 1 in Hu.
  destruct (PyStr.upper (PyStr.strip r) =? "PASS")%string;
    [|destruct (PyStr.upper (PyStr.strip r) =? "FAIL")%string;
      [|discriminate Hplan]];
    inversion Hplan; subst plan; unfold ret at 1 in Hu;
    unfold bind at 1 in Hu; rewrite Hplace in Hu;
    (split;
     [ intros ->; exact Hu
     | intros ->; cbn [negb] in Hu; unfold bind, perform, ret in Hu;
       eexists; split; [exact Hu|];
       rewrite !act_sq, !act_trace, !act_clock; cbn [assign fst snd];
       rewrite !app_nil_r; repeat split ]).
Qed.

Lemma unload_places_by_verdict_witness :
  unload_guard M1 (sq (world_of verdict_in)) = true
  /\ place_plan M1 (PyStr.upper (PyStr.strip "PASS")) (sq verdict_opened)
     = Some "PlaceToOutputPass"
  /\ exists w' : World,
       unload M1 false two_plans_schedule (world_of verdict_in)
       = Some (Ok true, [], w')
       /\ sq w' = unloaded_state M1 (sq verdict_placed)
       /\ trace w' = trace verdict_placed /\ clock w' = clock verdict_placed.
Proof.
  assert (G : unload_guard M1 (sq (world_of verdict_in)) = true)
    by (vm_compute; reflexivity).
  assert (O : _run_micro_plan (plan_open M1 (sq (world_of verdict_in)))
                (plan_timeout_s (cfg (sq (world_of verdict_in))))
                two_plans_schedule (world_of verdict_in)
              = Some (Ok true, [yield_at 20 [plan_finished]], verdict_opened))
    by (vm_compute; reflexivity).
  assert (R : tester_result (st M1 (sq verdict_opened)) = Some "PASS")
    by (vm_compute; reflexivity).
  assert (L : place_plan M1 (PyStr.upper (PyStr.strip "PASS")) (sq verdict_opened)
              = Some "PlaceToOutputPass")
    by (vm_compute; reflexivity).
  assert (P : _run_micro_plan "PlaceToOutputPass"
                (plan_timeout_s (cfg (sq verdict_opened)))
                [yield_at 20 [plan_finished]] verdict_opened
              = Some (Ok true, [], verdict_placed))
    by (vm_compute; reflexivity).
  split; [exact G|]. split; [exact L|].
  exact (proj2 (unload_places_by_verdict M1 two_plans_schedule _ [] _ _ _
                  "PASS" "PlaceToOutputPass" true G O R L P) eq_refl).
Defined.

(** ** Verdict tokens and plan names *)

(** X10. For a token of ASCII text, the verdict that
    [external_test_complete] stores is a fixed point of both normalisations
    of the code: the worker's [strip().upper()] gives it back unchanged,
    and delivering it again as a token stores the same verdict. *)
Theorem stored_verdict_is_normal_form :
  forall token : option string,
    ascii_token token ->
    PyStr.upper (PyStr.strip (normalize token)) = normalize token
    /\ normalize (Some (normalize token)) = normalize token.
Proof.
  intros token _.
  assert (F : PyStr.upper (PyStr.strip (normalize token)) = normalize token).
  { destruct (normalize_cases token) as [N|[N|(_ & _ & N)]].
    - rewrite N. reflexivity.
    - rewrite N. reflexivity.
    - rewrite N. apply normal_text_fixed. }
  split; [exact F|].
  unfold normalize at 1. rewrite F.
  destruct (normalize_cases token) as [N|[N|(N1 & N2 & N)]].
  - rewrite N. reflexivity.
  - rewrite N. reflexivity.
  - rewrite N, N1, N2. reflexivity.
Qed.

Lemma stored_verdict_is_normal_form_witness :
  ascii_token (Some "  error_9 ")
  /\ PyStr.upper (PyStr.strip (normalize (Some "  error_9 ")))
     = normalize (Some "  error_9 ")
  /\ normalize (Some (normalize (Some "  error_9 ")))
     = normalize (Some "  error_9 ").
Proof.
  split; [reflexivity|].
  exact (stored_verdict_is_normal_form (Some "  error_9 ") eq_refl).
Defined.

Lemma append_empty_r (s : string) : (s ++ "")%string = s.
Proof. induction s as [|c r IH]; cbn; [reflexivity | now rewrite IH]. Qed.

Lemma format_go_brace_free (slot fmt : string) :
  brace_free fmt = true -> PyStr.format_go 0 slot fmt = fmt.
Proof.
  induction fmt as [|c r IH]; cbn [brace_free PyStr.format_go]; [reflexivity|].
  intros B. apply andb_prop in B. destruct B as [B1 B2].
  apply andb_prop in B2. destruct B2 as [_ B2].
  cbn [prefix]. destruct (ascii_dec "{" c) as [E|E].
  - subst c. discriminate B1.
  - now rewrite IH.
Qed.

Lemma format_go_field (slot before after : string) :
  brace_free before = true -> brace_free after = true ->
  PyStr.format_go 0 slot (before ++ "{slot}" ++ after)
  = (before ++ slot ++ after)%string.
Proof.
  intros B A. induction before as [|c r IH].
  - cbn. rewrite (format_go_brace_free slot after A). now destruct after.
  - cbn [brace_free] in B. apply andb_prop in B. destruct B as [B1 B2].
    apply andb_prop in B2. destruct B2 as [_ B2].
    change ((String c r ++ "{slot}" ++ after)%string)
      with (String c (r ++ "{slot}" ++ after)%string).
    change ((String c r ++ slot ++ after)%string)
      with (String c (r ++ slot ++ after)%string).
    cbn [PyStr.format_go prefix].
    destruct (ascii_dec "{" c) as [E|E].
    + subst c. discriminate B1.
    + now rewrite IH.
Qed.

(** X11. The pick plan of a machine is its template with the one
    [{slot}] field replaced by the slot index in decimal, when the text
    around the field has no brace; a template without brace is the plan
    name for every slot. *)
Theorem plan_pick_fills_slot_field :
  forall (m : Machine) (s : Sequencer) (k : Z) (before after : string),
    brace_free before = true ->
    brace_free after = true ->
    (plan_pick_fmt (mc m (cfg s)) = (before ++ "{slot}" ++ after)%string ->
     plan_pick m s k = (before ++ PyStr.of_int k ++ after)%string)
    /\ (plan_pick_fmt (mc m (cfg s)) = before -> plan_pick m s k = before).
Proof.
  intros m s k before after B A. unfold plan_pick, PyStr.format_slot. split.
  - intros ->. now apply format_go_field.
  - intros ->. now apply format_go_brace_free.
Qed.

Lemma plan_pick_fills_slot_field_witness :
  brace_free "PickFromTray_" = true
  /\ brace_free "" = true
  /\ plan_pick M1 fresh 12 = ("PickFromTray_" ++ PyStr.of_int 12 ++ "")%string.
Proof.
  split; [reflexivity|]. split; [reflexivity|].
  exact (proj1 (plan_pick_fills_slot_field M1 fresh 12 "PickFromTray_" ""
                  eq_refl eq_refl) eq_refl).
Defined.

(** X12. A machine that has just been loaded, with no answer pending (its
    done event is not set), is eligible neither for unload nor for load
    after the absorb step of the next pass.  A delivery to it makes its
    unload eligible after the absorb step, whatever the token.  An answer
    that was accepted while the load was still running (done event set and
    a verdict stored when the load ends) makes the unit just loaded
    eligible for unload at once, with no delivery after the load. *)
Theorem delivery_makes_unload_eligible :
  forall (m : Machine) (k : Z) (s : Sequencer) (token : option string),
    tester_commready (st m s) = true ->
    (tester_done_evt (st m s) = false ->
     unload_guard m (sq (absorbed (world_of (loaded_state m k s)))) = false
     /\ load_guard m (sq (absorbed (world_of (loaded_state m k s)))) = false)
    /\ unload_guard m
         (sq (absorbed
                (world_of (fst (external_test_complete (machine_id m) token
                                  (loaded_state m k s))))))
       = true
    /\ load_guard m
         (sq (absorbed
                (world_of (fst (external_test_complete (machine_id m) token
                                  (loaded_state m k s))))))
       = false
    /\ (tester_done_evt (st m s) = true ->
        is_str (tester_result (st m s)) = true ->
        unload_guard m (sq (absorbed (world_of (loaded_state m k s)))) = true).
Proof.
  intros m k s token C.
  rewrite external_test_complete_machine.
  unfold deliver, unload_guard, load_guard, loaded_state, absorbed,
    absorb_world, world_of.
  destruct m; destruct s as [? ? ? ? ? ? ? ? ? ? [d1 ? ? ? ? ? ? ? ?]
                                                [d2 ? ? ? ? ? ? ? ?]];
    cbn in *; rewrite ?C; destruct d1, d2; cbn; rewrite ?C;
    repeat split; intros; try discriminate; try assumption; auto.
Qed.

Lemma delivery_makes_unload_eligible_witness :
  tester_commready (st M1 ready) = true
  /\ unload_guard M1 (sq (absorbed (world_of (loaded_state M1 1 ready)))) = false
  /\ load_guard M1 (sq (absorbed (world_of (loaded_state M1 1 ready)))) = false
  /\ unload_guard M1
       (sq (absorbed
              (world_of (fst (external_test_complete (machine_id M1)
                                (Some "FAIL") (loaded_state M1 1 ready))))))
     = true.
Proof.
  split; [reflexivity|].
  pose proof (delivery_makes_unload_eligible M1 1 ready (Some "FAIL") eq_refl)
    as (A & B & _).
  destruct (A eq_refl) as [A1 A2].
  split; [exact A1|]. split; [exact A2 | exact B].
Defined.

(** ** Starting a run *)

(** X13. With no worker alive, [start_seq_worker] clears a pending stop
    request, starts the worker thread, and makes both listeners alive: a
    listener that is alive is left as it is, one that is not gets a new,
    unset halt event and a new thread. *)
Theorem start_when_idle :
  forall (s : Sequencer) (n : option Z) (m : Machine),
    _th s = false ->
    _th (fst (start_seq_worker n s)) = true
    /\ _stop_flag (fst (start_seq_worker n s)) = false
    /\ In (ThreadStart TWorker) (snd (start_seq_worker n s))
    /\ capacity m (fst (start_seq_worker n s))
       = match n with Some k => k | None => capacity m s end
    /\ serial_th (st m (fst (start_seq_worker n s))) = true
    /\ (serial_th (st m s) = true ->
        st m (fst (start_seq_worker n s)) = st m s)
    /\ (serial_th (st m s) = false ->
        halt_serial (st m (fst (start_seq_worker n s))) = Some false
        /\ In (ThreadStart (TSerial m)) (snd (start_seq_worker n s))).
Proof.
  intros s n m H.
  destruct s as [c a b p th f pd fe sf up
                   [d1 l1 h1 c1 r1 o1 x1 a1 k1] [d2 l2 h2 c2 r2 o2 x2 a2 k2]].
  cbn in H. subst th.
  unfold start_seq_worker, and_then, start_listener.
  destruct n, l1, l2, m; cbn;
    (split; [reflexivity|]); (split; [reflexivity|]); (split; [tauto|]);
    (split; [reflexivity|]); (split; [reflexivity|]);
    (split; [intros E; try discriminate E; reflexivity|]);
    (intros E; first [discriminate E | split; [reflexivity | tauto]]).
Qed.

Lemma start_when_idle_witness :
  _th (fst (stop fresh)) = false
  /\ _stop_flag (fst (stop fresh)) = true
  /\ _th (fst (start_seq_worker (Some 3) (fst (stop fresh)))) = true
  /\ _stop_flag (fst (start_seq_worker (Some 3) (fst (stop fresh)))) = false.
Proof.
  split; [reflexivity|]. split; [reflexivity|].
  pose proof (start_when_idle (fst (stop fresh)) (Some 3) M1 eq_refl) as T.
  split; [exact (proj1 T) | exact (proj1 (proj2 T))].
Defined.

(** ** Properties kept whatever the machines do *)

Section Frame.

Variable P : Sequencer -> Prop.

Hypothesis call_keeps :
  forall (c : Call) (s : Sequencer), P s -> P (fst (apply_call c s)).
Hypothesis clear_done_keeps :
  forall s : Sequencer, P s -> P (set_plan_done_evt false s).
Hypothesis clear_fault_keeps :
  forall s : Sequencer, P s -> P (set_fault_evt false s).
Hypothesis upd_keeps :
  forall (m : Machine) (f : Tester -> Tester) (s : Sequencer),
    P s -> P (upd_st m f s).

Lemma frame_call (c : Call) (s : Sequencer) :
  any_call c -> P s -> P (fst (apply_call c s)).
Proof. intros _. apply call_keeps. Qed.

Lemma frame_run_micro_plan (plan_name : string) (timeout_s : Z) :
  keeps P any_call (_run_micro_plan plan_name timeout_s).
Proof.
  apply keeps_run_micro_plan;
    [exact frame_call | exact clear_done_keeps | exact clear_fault_keeps].
Qed.

Ltac frame_keeps :=
  repeat first
    [ apply keeps_ret | apply keeps_brk | apply keeps_raise | apply keeps_say
    | apply frame_run_micro_plan
    | apply keeps_nap; exact frame_call
    | apply keeps_wait; exact frame_call
    | apply keeps_perform; intros ? ?; cbn [assign fst]; now apply upd_keeps
    | apply keeps_read; intros ? ?
    | apply keeps_bind; [|intros ?]
    | match goal with
      | |- keeps _ _ (if ?b then _ else _) => destruct b
      | |- keeps _ _ (match ?o with Some _ => _ | None => _ end) => destruct o
      end ].

Lemma frame_absorb (m : Machine) : keeps P any_call (absorb m).
Proof. unfold absorb. frame_keeps. Qed.

Lemma frame_unload (m : Machine) (p : bool) : keeps P any_call (unload m p).
Proof. unfold unload. frame_keeps. Qed.

Lemma frame_load (m : Machine) (p : bool) : keeps P any_call (load m p).
Proof. unfold load. frame_keeps. Qed.

Lemma frame_loop_body : keeps P any_call loop_body.
Proof.
  unfold loop_body, after_checks, transitions, finish_pass, machine_done.
  repeat first
    [ apply frame_absorb | apply frame_unload | apply frame_load
    | apply keeps_ret | apply keeps_brk | apply keeps_raise | apply keeps_say
    | apply keeps_nap; exact frame_call
    | apply keeps_wait; exact frame_call
    | apply keeps_read; intros ? ?
    | apply keeps_bind; [|intros ?]
    | match goal with
      | |- keeps _ _ (if ?b then _ else _) => destruct b
      | |- keeps _ _ (match ?o with Some _ => _ | None => _ end) => destruct o
      end ].
Qed.

Hypothesis init_has : forall config : SequencerConfig, P (fst (init config)).
Hypothesis prologue_keeps :
  forall (p1 p2 : Ping) (s : Sequencer), P s -> P (fst (worker_prologue p1 p2 s)).
Hypothesis finally_keeps :
  forall s : Sequencer, P s -> P (fst (worker_finally s)).

Lemma frame_reachable (s : Sequencer) : reachable s -> P s.
Proof.
  induction 1 as [config | c s _ IH
                 | plan_name timeout_s sched w r sched' w' _ IH H
                 | m sched w r sched' w' _ IH H
                 | m p sched w r sched' w' _ IH H
                 | m p sched w r sched' w' _ IH H
                 | sched w r sched' w' _ IH H
                 | p1 p2 sched w r sched' w' _ IH H
                 | p1 p2 sched w r sched' w' _ IH H].
  - apply init_has.
  - now apply call_keeps.
  - exact (proj1 (frame_run_micro_plan _ _ _ _ _ _ _ (quiet_calls_any _) IH H)).
  - exact (proj1 (frame_absorb _ _ _ _ _ _ (quiet_calls_any _) IH H)).
  - exact (proj1 (frame_unload _ _ _ _ _ _ _ (quiet_calls_any _) IH H)).
  - exact (proj1 (frame_load _ _ _ _ _ _ _ (quiet_calls_any _) IH H)).
  - exact (proj1 (frame_loop_body _ _ _ _ _ (quiet_calls_any _) IH H)).
  - exact (proj1 (keeps_worker_try P any_call p1 p2 (prologue_keeps p1 p2)
                    frame_loop_body _ _ _ _ _ (quiet_calls_any _) IH H)).
  - exact (proj1 (keeps_worker P any_call p1 p2 (prologue_keeps p1 p2)
                    finally_keeps frame_loop_body
                    _ _ _ _ _ (quiet_calls_any _) IH H)).
Qed.

End Frame.

Lemma legacy_call_keeps (c : Call) (s : Sequencer) :
  legacy_counters_initial s -> legacy_counters_initial (fst (apply_call c s)).
Proof.
  intros H. destruct c as [n| | | |ev payload| |i v|j]; cbn [apply_call].
  - open_object s. unfold start_seq_worker, and_then, start_listener.
    destruct n; cbn in *; split_ifs; exact H.
  - open_object s. unfold stop, and_then, stop_listener.
    cbn in *; split_ifs; exact H.
  - exact H.
  - exact H.
  - unfold on_backend_event.
    destruct (ev =? BackendEvents.FAULT)%string;
      [|destruct (ev =? BackendEvents.STOPPED)%string]; exact H.
  - rewrite reset_assigns. repeat split.
  - unfold external_test_complete.
    destruct (i =? 1); [|destruct (i =? 2)]; unfold deliver;
      try match goal with |- context [awaiting_result (st ?x s)] =>
            destruct (awaiting_result (st x s)) end;
      exact H.
  - destruct j; exact H.
Qed.

(** X14. [get_state()] never shows progress: in every reachable state it
    reports slot 1, step 0 and no preamble, because the worker only moves
    the per-machine slot indices; only its [running] entry varies. *)
Theorem get_state_never_shows_progress :
  forall s : Sequencer,
    reachable s ->
    get_state s
    = {| slot := 1; step := 0; running := _th s; preamble_done := false |}.
Proof.
  intros s R.
  assert (H : legacy_counters_initial s).
  { apply (frame_reachable legacy_counters_initial); try assumption.
    - exact legacy_call_keeps.
    - intros x Hx. exact Hx.
    - intros x Hx. exact Hx.
    - intros m f x Hx. destruct m; exact Hx.
    - intros config. repeat split.
    - intros p1 p2 x Hx. open_object x. destruct p1, p2; exact Hx.
    - intros x _. destruct (worker_finally_state x M1) as (_ & _ & _ & _ & _ & _ & _ & G).
      unfold get_state, idle_report in G. inversion G. repeat split; assumption. }
  destruct H as (A & B & C). unfold get_state. now rewrite A, B, C.
Qed.

Lemma get_state_never_shows_progress_witness :
  reachable (left_by error_token_run)
  /\ current_slotN (st M1 (left_by error_token_run)) = Some 2
  /\ get_state (left_by error_token_run)
     = {| slot := 1; step := 0; running := _th (left_by error_token_run);
          preamble_done := false |}.
Proof.
  assert (R : reachable (left_by error_token_run)).
  { apply (reach_loop PingOk PingOk error_token_schedule (world_of started)
             (Ok tt) [] (world_left_by error_token_run)).
    - apply (reach_call (CallStart None) fresh). apply reach_init.
    - vm_compute. reflexivity. }
  split; [exact R|]. split; [vm_compute; reflexivity|].
  exact (get_state_never_shows_progress _ R).
Defined.

(** ** A run without communication *)

Lemma no_comm_first_eligible (s : Sequencer) :
  no_comm s -> first_eligible s = None.
Proof.
  intros [C1 C2]. unfold first_eligible, scan_order. cbn [find guard].
  unfold unload_guard, load_guard. now rewrite C1, C2.
Qed.

Lemma absorbed_nothing (w : World) :
  tester_done_evt (st M1 (sq w)) = false ->
  tester_done_evt (st M2 (sq w)) = false ->
  absorbed w = w.
Proof.
  intros D1 D2. unfold absorbed, absorb_world. rewrite D1, D2. reflexivity.
Qed.

(** A pass of a run that can do nothing: it sleeps 20 ms. *)
Lemma idle_pass (sched : list Yield) (w : World) :
  no_comm (sq w) -> slots_exist (sq w) -> all_done (sq w) = false ->
  _user_pause (sq w) = false -> _stop_flag (sq w) = false ->
  tester_done_evt (st M1 (sq w)) = false ->
  tester_done_evt (st M2 (sq w)) = false ->
  loop_body sched w = nap 20 sched w.
Proof.
  intros C K A Hp Hs D1 D2.
  rewrite (loop_body_unpaused _ _ Hp Hs), (after_checks_first_eligible _ _ K).
  rewrite (absorbed_nothing _ D1 D2), pass_by_first_eligible_eq.
  rewrite (no_comm_first_eligible _ C), (finish_pass_eq false _ _ K), A.
  reflexivity.
Qed.

(** X15. When neither tester answered the ping and something is left to
    do, the worker does nothing but sleep: as long as no other thread
    calls in, every pass is one sleep of 20 ms and nothing else (the trace
    grows by one [Sleep 20] per pass, so no plan is requested and nothing
    is logged), the object stays as it is, and the loop does not end by
    itself. *)
Theorem no_comm_run_only_sleeps :
  forall (sched : list Yield) (w : World),
    call_free sched ->
    no_comm (sq w) -> slots_exist (sq w) -> all_done (sq w) = false ->
    _user_pause (sq w) = false -> _stop_flag (sq w) = false ->
    tester_done_evt (st M1 (sq w)) = false ->
    tester_done_evt (st M2 (sq w)) = false ->
    (exists w' : World,
       passes (List.length sched) sched w = Some ([], w')
       /\ sq w' = sq w
       /\ trace w'
          = (trace w ++ repeat (Sleep 20) (List.length sched))%list)
    /\ forall fuel : nat, worker_loop fuel sched w = None.
Proof.
  intros sched. induction sched as [|y rest IH];
    intros w F C K A Hp Hs D1 D2.
  - split; [exists w; cbn [List.length repeat]; rewrite app_nil_r;
            now repeat split|].
    intros [|fuel]; [reflexivity|].
    rewrite (worker_loop_pass _ _ _ Hs), (idle_pass _ _ C K A Hp Hs D1 D2).
    reflexivity.
  - inversion F as [|? ? Fy Frest]; subst.
    assert (E : sq (sleep 20 y w) = sq w) by (now rewrite sleep_sq, Fy).
    assert (T : trace (sleep 20 y w) = (trace w ++ [Sleep 20])%list)
      by (rewrite sleep_trace, Fy; reflexivity).
    destruct (IH (sleep 20 y w) Frest) as ((w' & P1 & P2 & P3) & L);
      try (rewrite E; assumption).
    split.
    + exists w'. cbn [List.length passes].
      rewrite (idle_pass _ _ C K A Hp Hs D1 D2). cbn [nap].
      split; [exact P1|]. split; [congruence|].
      rewrite P3, T, <- app_assoc. reflexivity.
    + intros [|fuel]; [reflexivity|].
      rewrite (worker_loop_pass _ _ _ Hs), (idle_pass _ _ C K A Hp Hs D1 D2).
      cbn [nap]. apply L.
Qed.

Lemma no_comm_run_only_sleeps_witness :
  call_free [yield_at 20 []; yield_at 40 []]
  /\ no_comm (sq (world_of deaf))
  /\ (exists w' : World,
        passes (List.length [yield_at 20 []; yield_at 40 []])
          [yield_at 20 []; yield_at 40 []] (world_of deaf) = Some ([], w')
        /\ sq w' = sq (world_of deaf)
        /\ trace w'
           = (trace (world_of deaf)
              ++ repeat (Sleep 20)
                   (List.length [yield_at 20 []; yield_at 40 []]))%list)
  /\ forall fuel : nat,
       worker_loop fuel [yield_at 20 []; yield_at 40 []] (world_of deaf) = None.
Proof.
  assert (F : call_free [yield_at 20 []; yield_at 40 []])
    by (repeat constructor).
  assert (C : no_comm (sq (world_of deaf))) by (split; reflexivity).
  assert (K : slots_exist (sq (world_of deaf))) by (split; discriminate).
  split; [exact F|]. split; [exact C|].
  exact (no_comm_run_only_sleeps [yield_at 20 []; yield_at 40 []]
           (world_of deaf) F C K eq_refl eq_refl eq_refl eq_refl eq_refl).
Defined.

(** ** The loop never spins *)

Lemma shrinks_ret {A : Type} (a : A) : shrinks (ret a).
Proof. intros sched w r sched' w' H. inversion H; subst. apply Nat.le_refl. Qed.

Lemma shrinks_brk {A : Type} : shrinks (@brk A).
Proof. intros sched w r sched' w' H. inversion H; subst. apply Nat.le_refl. Qed.

Lemma shrinks_raise {A : Type} (e : string) : shrinks (@raise A e).
Proof. intros sched w r sched' w' H. inversion H; subst. apply Nat.le_refl. Qed.

Lemma shrinks_perform (a : Act) : shrinks (perform a).
Proof. intros sched w r sched' w' H. inversion H; subst. apply Nat.le_refl. Qed.

Lemma shrinks_say (msg : string) : shrinks (say msg).
Proof. apply shrinks_perform. Qed.

Lemma shrinks_bind {A B : Type} (c : Run A) (k : A -> Run B) :
  shrinks c -> (forall a, shrinks (k a)) -> shrinks (bind c k).
Proof.
  intros Hc Hk sched w r sched' w' H. unfold bind in H.
  destruct (c sched w) as [[[ra s1] w1]|] eqn:E; [|discriminate].
  pose proof (Hc _ _ _ _ _ E) as L1.
  destruct ra; [pose proof (Hk a _ _ _ _ _ H); lia | |];
    inversion H; subst; exact L1.
Qed.

Lemma shrinks_read {B : Type} (k : Sequencer -> Run B) :
  (forall s, shrinks (k s)) -> shrinks (bind read k).
Proof.
  intros Hk. apply shrinks_bind; [|exact Hk].
  intros sched w r sched' w' H. inversion H; subst. apply Nat.le_refl.
Qed.

Lemma shrinks_nap (ms : Z) : shrinks (nap ms).
Proof.
  intros sched w r sched' w' H. unfold nap in H.
  destruct sched; [discriminate|]. inversion H; subst. cbn. lia.
Qed.

Lemma shrinks_wait : shrinks _wait_if_user_paused.
Proof.
  intros sched. induction sched as [|y rest IH]; intros w r sched' w' H;
    cbn [_wait_if_user_paused] in H;
    destruct (_user_pause (sq w) && negb (_stop_flag (sq w)))%bool;
    try discriminate; try (inversion H; subst; apply Nat.le_refl).
  pose proof (IH _ _ _ _ H). cbn. lia.
Qed.

Lemma consumes_run_micro_plan (plan_name : string) (timeout_s : Z) :
  forall sched w r sched' w',
    _run_micro_plan plan_name timeout_s sched w = Some (r, sched', w') ->
    (List.length sched' < List.length sched)%nat.
Proof.
  intros sched w r sched' w' H.
  destruct sched as [|y rest]; [discriminate H|].
  destruct (y_start y) as [e|speed e|speed] eqn:Y.
  - unfold _run_micro_plan, bind, say, perform, request in H.
    rewrite Y in H. cbn in H. inversion H; subst. cbn. lia.
  - unfold _run_micro_plan, bind, say, perform, request in H.
    rewrite Y in H. cbn in H. inversion H; subst. cbn. lia.
  - rewrite (run_micro_plan_started _ _ _ _ _ _ Y) in H.
    destruct (poll_result _ _ _ _ _ _ _ _ H) as (_ & _ & C). cbn. lia.
Qed.

Lemma shrinks_run_micro_plan (plan_name : string) (timeout_s : Z) :
  shrinks (_run_micro_plan plan_name timeout_s).
Proof.
  intros sched w r sched' w' H.
  pose proof (consumes_run_micro_plan _ _ _ _ _ _ _ H). lia.
Qed.

Ltac shrinks_auto :=
  repeat first
    [ apply shrinks_ret | apply shrinks_brk | apply shrinks_raise
    | apply shrinks_say | apply shrinks_perform
    | apply shrinks_run_micro_plan | apply shrinks_nap | apply shrinks_wait
    | apply shrinks_read; intros ?
    | apply shrinks_bind; [|intros ?]
    | match goal with
      | |- shrinks (if ?b then _ else _) => destruct b
      | |- shrinks (match ?o with Some _ => _ | None => _ end) => destruct o
      end ].

Lemma shrinks_unload (m : Machine) (p : bool) : shrinks (unload m p).
Proof. unfold unload. shrinks_auto. Qed.

Lemma shrinks_load (m : Machine) (p : bool) : shrinks (load m p).
Proof. unfold load. shrinks_auto. Qed.

Lemma shrinks_finish_pass (p : bool) : shrinks (finish_pass p).
Proof. unfold finish_pass, machine_done. shrinks_auto. Qed.

Lemma consumes_bind_l {A B : Type} (c : Run A) (k : A -> Run B) :
  (forall sched w r sched' w',
      c sched w = Some (r, sched', w') ->
      (List.length sched' < List.length sched)%nat) ->
  (forall a, shrinks (k a)) -> consumes (bind c k).
Proof.
  intros Hc Hk sched w b sched' w' H.
  apply bind_Ok_inv in H. destruct H as (a & s1 & w1 & E & H).
  pose proof (Hc _ _ _ _ _ E). pose proof (Hk a _ _ _ _ _ H). lia.
Qed.

Lemma unload_consumes (m : Machine) (sched sched' : list Yield) (w w' : World)
  (b : bool) :
  unload_guard m (sq w) = true ->
  unload m false sched w = Some (Ok b, sched', w') ->
  (List.length sched' < List.length sched)%nat.
Proof.
  intros G H. unfold unload, bind at 1, read in H.
  rewrite unload_condition, G in H.
  revert H. apply consumes_bind_l; [apply consumes_run_micro_plan|].
  intros opened. shrinks_auto.
Qed.

Lemma load_consumes (m : Machine) (sched sched' : list Yield) (w w' : World)
  (b : bool) :
  load_guard m (sq w) = true ->
  load m false sched w = Some (Ok b, sched', w') ->
  (List.length sched' < List.length sched)%nat.
Proof.
  intros G H. destruct (load_condition _ _ G) as (C & k & K & Hk).
  unfold load, bind at 1, read in H. rewrite C, K, Hk in H.
  revert H. apply consumes_bind_l; [apply consumes_run_micro_plan|].
  intros picked. shrinks_auto.
Qed.

Lemma finish_pass_idle_consumes (sched sched' : list Yield) (w w' : World) :
  slots_exist (sq w) ->
  finish_pass false sched w = Some (Ok tt, sched', w') ->
  (List.length sched' < List.length sched)%nat.
Proof.
  intros K H. rewrite (finish_pass_eq _ _ _ K) in H.
  destruct (all_done (sq w)); [discriminate|]. cbn [negb] in H.
  unfold nap in H. destruct sched; [discriminate|].
  inversion H; subst. cbn. lia.
Qed.

Lemma slots_call_keeps (c : Call) (s : Sequencer) :
  any_call c -> slots_exist s -> slots_exist (fst (apply_call c s)).
Proof.
  intros _ [K1 K2]. unfold slots_exist.
  destruct c as [n| | | |ev payload| |i v|j]; cbn [apply_call].
  - open_object s. unfold start_seq_worker, and_then, start_listener.
    destruct n; cbn in *; split_ifs; now split.
  - open_object s. unfold stop, and_then, stop_listener.
    cbn in *; split_ifs; now split.
  - now split.
  - now split.
  - unfold on_backend_event.
    destruct (ev =? BackendEvents.FAULT)%string;
      [|destruct (ev =? BackendEvents.STOPPED)%string]; now split.
  - rewrite reset_assigns. split; discriminate.
  - unfold external_test_complete.
    destruct (i =? 1); [|destruct (i =? 2)]; unfold deliver;
      try match goal with |- context [awaiting_result (st ?x s)] =>
            destruct (awaiting_result (st x s)) end;
      now split.
  - destruct j; now split.
Qed.

Lemma slots_wait : keeps slots_exist any_call _wait_if_user_paused.
Proof.
  apply keeps_wait. exact slots_call_keeps.
Qed.

Lemma pass_lets_other_threads_run_aux (sched sched' : list Yield) (w w' : World) :
  slots_exist (sq w) ->
  loop_body sched w = Some (Ok tt, sched', w') ->
  (List.length sched' < List.length sched)%nat.
Proof.
  intros K H. unfold loop_body in H.
  apply bind_Ok_inv in H. destruct H as ([] & s1 & w1 & Hw & H).
  pose proof (shrinks_wait _ _ _ _ _ Hw) as L1.
  pose proof (proj1 (slots_wait _ _ _ _ _ (quiet_calls_any _) K Hw)) as K1.
  unfold bind at 1, read in H.
  destruct (_stop_flag (sq w1)); [discriminate|].
  rewrite (after_checks_first_eligible _ _ K1), pass_by_first_eligible_eq in H.
  pose proof (absorbed_slots _ K1) as K2.
  destruct (first_eligible (sq (absorbed w1))) as [t|] eqn:F.
  - pose proof (first_eligible_guard _ _ F) as G.
    apply bind_Ok_inv in H. destruct H as (b & s2 & w2 & Ht & H).
    pose proof (shrinks_finish_pass true _ _ _ _ _ H) as L3.
    assert (L2 : (List.length s2 < List.length s1)%nat).
    { destruct t; cbn [guard attempt] in *;
        [eapply unload_consumes | eapply load_consumes]; eassumption. }
    lia.
  - pose proof (finish_pass_idle_consumes _ _ _ _ K2 H). lia.
Qed.


(** X16. The loop never spins: a pass after which the loop goes on has
    consumed at least one yield, that is, the worker has let the other
    threads run at least once during it. *)
Theorem pass_lets_other_threads_run :
  forall (sched sched' : list Yield) (w w' : World),
    slots_exist (sq w) ->
    loop_body sched w = Some (Ok tt, sched', w') ->
    (List.length sched' < List.length sched)%nat.
Proof. exact pass_lets_other_threads_run_aux. Qed.

Lemma pass_lets_other_threads_run_witness :
  slots_exist (sq (world_of deaf))
  /\ loop_body [yield_at 20 []; yield_at 40 []] (world_of deaf)
     = Some (Ok tt, [yield_at 40 []], sleep 20 (yield_at 20 []) (world_of deaf))
  /\ (List.length [yield_at 40 []]
      < List.length [yield_at 20 []; yield_at 40 []])%nat.
Proof.
  assert (K : slots_exist (sq (world_of deaf))) by (split; discriminate).
  assert (H : loop_body [yield_at 20 []; yield_at 40 []] (world_of deaf)
              = Some (Ok tt, [yield_at 40 []],
                      sleep 20 (yield_at 20 []) (world_of deaf)))
    by (vm_compute; reflexivity).
  split; [exact K|]. split; [exact H|].
  exact (pass_lets_other_threads_run _ _ _ _ K H).
Defined.

Ltac slots_keeps :=
  repeat first
    [ apply keeps_ret | apply keeps_brk | apply keeps_raise | apply keeps_say
    | apply keeps_run_micro_plan;
      [exact slots_call_keeps | intros ? ?; assumption | intros ? ?; assumption]
    | apply keeps_nap; exact slots_call_keeps
    | apply slots_wait
    | apply keeps_perform;
      let H1 := fresh in let H2 := fresh in
      intros ? [H1 H2]; cbn [assign fst];
      match goal with
      | |- context [upd_st ?m _ _] =>
          destruct m; split; cbn; first [assumption | discriminate]
      end
    | apply keeps_read; intros ? ?
    | apply keeps_bind; [|intros ?]
    | match goal with
      | |- keeps _ _ (if ?b then _ else _) => destruct b
      | |- keeps _ _ (match ?o with Some _ => _ | None => _ end) => destruct o
      end ].

Lemma slots_absorb (m : Machine) : keeps slots_exist any_call (absorb m).
Proof. unfold absorb. slots_keeps. Qed.

Lemma slots_unload (m : Machine) (p : bool) :
  keeps slots_exist any_call (unload m p).
Proof. unfold unload. slots_keeps. Qed.

Lemma slots_load (m : Machine) (p : bool) :
  keeps slots_exist any_call (load m p).
Proof. unfold load. slots_keeps. Qed.

Lemma slots_loop_body : keeps slots_exist any_call loop_body.
Proof.
  unfold loop_body, after_checks, transitions, finish_pass, machine_done.
  repeat first
    [ apply slots_absorb | apply slots_unload | apply slots_load
    | apply keeps_ret | apply keeps_brk | apply keeps_raise | apply keeps_say
    | apply keeps_nap; exact slots_call_keeps
    | apply slots_wait
    | apply keeps_read; intros ? ?
    | apply keeps_bind; [|intros ?]
    | match goal with
      | |- keeps _ _ (if ?b then _ else _) => destruct b
      | |- keeps _ _ (match ?o with Some _ => _ | None => _ end) => destruct o
      end ].
Qed.

(** The bound on the number of passes is never what stops a run: any
    bound above the length of the schedule gives the same result. *)
Lemma worker_loop_bound_irrelevant (n : nat) :
  forall (sched : list Yield) (w : World) (k : nat),
    slots_exist (sq w) ->
    (List.length sched < n)%nat -> (List.length sched < k)%nat ->
    worker_loop n sched w = worker_loop k sched w.
Proof.
  induction n as [|n IH]; intros sched w k K Ln Lk; [lia|].
  destruct k as [|k]; [lia|]. cbn [worker_loop].
  destruct (_stop_flag (sq w)); [reflexivity|].
  destruct (loop_body sched w) as [[[r s1] w1]|] eqn:E; [|reflexivity].
  destruct r as [[]| |e]; try reflexivity.
  pose proof (pass_lets_other_threads_run_aux sched s1 w w1 K E) as L.
  apply IH; [|lia|lia].
  exact (proj1 (slots_loop_body _ _ _ _ _ (quiet_calls_any _) K E)).
Qed.

Lemma prologue_slots_exist (p1 p2 : Ping) (s : Sequencer) :
  slots_exist (fst (worker_prologue p1 p2 s)).
Proof. open_object s. destruct p1, p2; split; discriminate. Qed.

(** ** A test in flight implies a unit in the fixture *)

Lemma leads_keeps {A : Type} (P : Sequencer -> Prop) (Q : Call -> Prop)
  (c : Run A) : keeps P Q c <-> leads P P Q c.
Proof. split; intros H; exact H. Qed.

Lemma leads_weaken {A : Type} (Pre Pre' Post Post' : Sequencer -> Prop)
  (Q : Call -> Prop) (c : Run A) :
  (forall s, Pre' s -> Pre s) -> (forall s, Post s -> Post' s) ->
  leads Pre Post Q c -> leads Pre' Post' Q c.
Proof.
  intros H1 H2 H sched w r sched' w' Hq HP E.
  destruct (H _ _ _ _ _ Hq (H1 _ HP) E). split; auto.
Qed.

Lemma leads_ret {A : Type} (Pre Post : Sequencer -> Prop) (Q : Call -> Prop)
  (a : A) :
  (forall s, Pre s -> Post s) -> leads Pre Post Q (ret a).
Proof. intros H sched w r sched' w' Hq HP E. inversion E; subst. auto. Qed.

Lemma leads_brk {A : Type} (Pre Post : Sequencer -> Prop) (Q : Call -> Prop) :
  (forall s, Pre s -> Post s) -> leads Pre Post Q (@brk A).
Proof. intros H sched w r sched' w' Hq HP E. inversion E; subst. auto. Qed.

Lemma leads_raise {A : Type} (Pre Post : Sequencer -> Prop) (Q : Call -> Prop)
  (e : string) :
  (forall s, Pre s -> Post s) -> leads Pre Post Q (@raise A e).
Proof. intros H sched w r sched' w' Hq HP E. inversion E; subst. auto. Qed.

Lemma leads_bind {A B : Type} (Pre Mid Post : Sequencer -> Prop)
  (Q : Call -> Prop) (c : Run A) (k : A -> Run B) :
  leads Pre Mid Q c -> (forall s, Mid s -> Post s) ->
  (forall a, leads Mid Post Q (k a)) -> leads Pre Post Q (bind c k).
Proof.
  intros Hc HM Hk sched w r sched' w' Hq HP E. unfold bind in E.
  destruct (c sched w) as [[[ra s1] w1]|] eqn:Ec; [|discriminate].
  destruct (Hc _ _ _ _ _ Hq HP Ec) as [H1 Hq1].
  destruct ra; [exact (Hk a _ _ _ _ _ Hq1 H1 E) | |];
    inversion E; subst; auto.
Qed.

Lemma leads_perform_bind {B : Type} (Pre Mid Post : Sequencer -> Prop)
  (Q : Call -> Prop) (a : Act) (k : unit -> Run B) :
  (forall s, Pre s -> Mid (fst (a s))) ->
  leads Mid Post Q (k tt) -> leads Pre Post Q (bind (perform a) k).
Proof.
  intros Ha Hk sched w r sched' w' Hq HP E. unfold bind, perform in E.
  apply (Hk _ _ _ _ _ Hq) in E; [exact E|]. rewrite act_sq. auto.
Qed.

Lemma leads_read_bind {B : Type} (Pre Post : Sequencer -> Prop)
  (Q : Call -> Prop) (k : Sequencer -> Run B) :
  (forall s, Pre s -> leads Pre Post Q (k s)) -> leads Pre Post Q (bind read k).
Proof.
  intros Hk sched w r sched' w' Hq HP E. unfold bind, read in E.
  exact (Hk _ HP _ _ _ _ _ Hq HP E).
Qed.










(** A [read] whose value the code that follows may rely on. *)
Lemma leads_read_link {B : Type} (Pre Post : Sequencer -> Prop)
  (Q : Call -> Prop) (k : Sequencer -> Run B) :
  (forall s, Pre s -> leads (fun x => x = s) Post Q (k s)) ->
  leads Pre Post Q (bind read k).
Proof.
  intros Hk sched w r sched' w' Hq HP E. unfold bind, read in E.
  exact (Hk _ HP _ _ _ _ _ Hq eq_refl E).
Qed.








(** ** The slot index stays within the tray *)

(** A call that does not change the tray sizes leaves the slot index of a
    machine or rewinds it to 1. *)
Lemma call_on_slot (c : Call) (s : Sequencer) (m : Machine) :
  static_call c ->
  capacity m (fst (apply_call c s)) = capacity m s
  /\ (current_slotN (st m (fst (apply_call c s))) = current_slotN (st m s)
      \/ current_slotN (st m (fst (apply_call c s))) = Some 1).
Proof.
  intros Hc. destruct c as [n| | | |ev payload| |i v|j];
    cbn [apply_call static_call] in *.
  - destruct n; [contradiction|].
    open_object s. unfold start_seq_worker, and_then, start_listener.
    destruct m; cbn; split_ifs; split; auto.
  - open_object s. unfold stop, and_then, stop_listener.
    destruct m; cbn; split_ifs; split; auto.
  - destruct m; split; auto.
  - destruct m; split; auto.
  - unfold on_backend_event.
    destruct (ev =? BackendEvents.FAULT)%string;
      [|destruct (ev =? BackendEvents.STOPPED)%string];
      destruct m; split; auto.
  - rewrite reset_assigns. destruct m; split; auto.
  - unfold external_test_complete.
    destruct (i =? 1); [|destruct (i =? 2)]; unfold deliver;
      try match goal with |- context [awaiting_result (st ?x s)] =>
            destruct (awaiting_result (st x s)) end;
      destruct m; split; auto.
  - destruct m, j; split; auto.
Qed.

Lemma bounded_call_keeps (m : Machine) (c : Call) (s : Sequencer) :
  static_call c -> slot_bounded m s -> slot_bounded m (fst (apply_call c s)).
Proof.
  intros Hc (C & k & K & Hk). destruct (call_on_slot c s m Hc) as [E [S|S]];
    unfold slot_bounded; rewrite E, S.
  - split; [assumption|]. now exists k.
  - split; [assumption|]. exists 1. split; [reflexivity|lia].
Qed.

Lemma within_call_keeps (m : Machine) (c : Call) (s : Sequencer) :
  static_call c -> slot_within m s -> slot_within m (fst (apply_call c s)).
Proof.
  intros Hc (k & K & Hk). destruct (call_on_slot c s m Hc) as [E [S|S]];
    unfold slot_within; rewrite E, S.
  - now exists k.
  - exists 1. split; [reflexivity|lia].
Qed.

Lemma within_bounded (m : Machine) (s : Sequencer) :
  slot_within m s -> slot_bounded m s.
Proof. intros (k & K & Hk). split; [lia|]. exists k. split; [assumption|lia]. Qed.

Lemma bounded_run_micro_plan (m : Machine) (plan_name : string) (timeout_s : Z) :
  keeps (slot_bounded m) static_call (_run_micro_plan plan_name timeout_s).
Proof.
  apply keeps_run_micro_plan.
  - apply bounded_call_keeps.
  - intros s H. destruct m; exact H.
  - intros s H. destruct m; exact H.
Qed.

Lemma within_run_micro_plan (m : Machine) (plan_name : string) (timeout_s : Z) :
  keeps (slot_within m) static_call (_run_micro_plan plan_name timeout_s).
Proof.
  apply keeps_run_micro_plan.
  - apply within_call_keeps.
  - intros s H. destruct m; exact H.
  - intros s H. destruct m; exact H.
Qed.

(** An assignment that does not touch the slot index. *)
Lemma bounded_upd (m k : Machine) (f : Tester -> Tester) (s : Sequencer) :
  (forall t, current_slotN (f t) = current_slotN t) ->
  slot_bounded m s -> slot_bounded m (upd_st k f s).
Proof.
  intros F H. unfold slot_bounded, capacity in *.
  destruct m, k, s; cbn in *; rewrite ?F; exact H.
Qed.

Lemma within_upd (m k : Machine) (f : Tester -> Tester) (s : Sequencer) :
  (forall t, current_slotN (f t) = current_slotN t) ->
  slot_within m s -> slot_within m (upd_st k f s).
Proof.
  intros F H. unfold slot_within, capacity in *.
  destruct m, k, s; cbn in *; rewrite ?F; exact H.
Qed.

Ltac bounded_keeps m :=
  repeat first
    [ apply keeps_ret | apply keeps_brk | apply keeps_raise | apply keeps_say
    | apply bounded_run_micro_plan
    | apply keeps_perform; intros ? ?; cbn [assign fst];
      apply bounded_upd; [reflexivity | assumption]
    | apply keeps_read; intros ? ?
    | apply keeps_bind; [|intros ?]
    | match goal with
      | |- keeps _ _ (if ?b then _ else _) => destruct b
      | |- keeps _ _ (match ?o with Some _ => _ | None => _ end) => destruct o
      end ].

Lemma bounded_absorb (m k : Machine) :
  keeps (slot_bounded m) static_call (absorb k).
Proof. unfold absorb. bounded_keeps m. Qed.

Lemma bounded_unload (m k : Machine) (p : bool) :
  keeps (slot_bounded m) static_call (unload k p).
Proof. unfold unload. bounded_keeps m. Qed.

Lemma bounded_upd_other (m k : Machine) (f : Tester -> Tester) (s : Sequencer) :
  k <> m -> slot_bounded m s -> slot_bounded m (upd_st k f s).
Proof.
  intros N H. destruct k, m; try congruence; destruct s; exact H.
Qed.

Lemma bounded_load_other (m k : Machine) (p : bool) :
  k <> m -> keeps (slot_bounded m) static_call (load k p).
Proof.
  intros N. unfold load.
  repeat first
    [ apply keeps_ret | apply keeps_brk | apply keeps_raise | apply keeps_say
    | apply bounded_run_micro_plan
    | apply keeps_perform; intros ? ?; cbn [assign fst];
      apply bounded_upd_other; [exact N | assumption]
    | apply keeps_read; intros ? ?
    | apply keeps_bind; [|intros ?]
    | match goal with
      | |- keeps _ _ (if ?b then _ else _) => destruct b
      | |- keeps _ _ (match ?o with Some _ => _ | None => _ end) => destruct o
      end ].
Qed.

Lemma bounded_load_same (m : Machine) (p : bool) :
  keeps (slot_bounded m) static_call (load m p).
Proof.
  apply leads_keeps. unfold load. apply leads_read_link. intros s HP.
  destruct (_ && _ && _ && _)%bool;
    [|apply leads_ret; intros x ->; exact HP].
  destruct (current_slotN (st m s)) as [k|] eqn:K;
    [|apply leads_raise; intros x ->; exact HP].
  destruct (k <=? capacity m s) eqn:Hk;
    [|apply leads_ret; intros x ->; exact HP].
  apply (leads_weaken (slot_within m) _ (slot_bounded m)).
  { intros x ->. exists k. split; [exact K|].
    apply Z.leb_le in Hk. destruct HP as (_ & k0 & K0 & Hk0).
    assert (k0 = k) by congruence. lia. }
  { auto. }
  apply (leads_bind (slot_within m) (slot_within m));
    [apply leads_keeps; apply within_run_micro_plan
    | exact (within_bounded m) | intros picked].
  destruct (negb picked); [apply leads_brk; exact (within_bounded m)|].
  apply leads_read_bind. intros s1 _.
  apply (leads_bind (slot_within m) (slot_within m));
    [apply leads_keeps; apply within_run_micro_plan
    | exact (within_bounded m) | intros closed].
  destruct (negb closed); [apply leads_brk; exact (within_bounded m)|].
  apply (leads_perform_bind (slot_within m) (slot_within m)).
  { intros x Hx. cbn [assign fst]. apply within_upd; [reflexivity|assumption]. }
  apply leads_read_link. intros s2 (k2 & K2 & Hk2). rewrite K2.
  apply (leads_perform_bind _ (slot_bounded m)).
  { intros x ->. cbn [assign fst]. unfold slot_bounded, capacity in *.
    destruct m, s2; cbn in *; (split; [lia|]);
      exists (k2 + 1); (split; [reflexivity|lia]). }
  apply (leads_perform_bind (slot_bounded m) (slot_bounded m)).
  { intros x Hx. cbn [assign fst]. apply bounded_upd; [reflexivity|assumption]. }
  apply (leads_perform_bind (slot_bounded m) (slot_bounded m)).
  { intros x Hx. cbn [assign fst]. apply bounded_upd; [reflexivity|assumption]. }
  apply leads_ret. auto.
Qed.

Lemma bounded_load (m k : Machine) (p : bool) :
  keeps (slot_bounded m) static_call (load k p).
Proof.
  destruct (machine_eq_dec k m) as [->|N];
    [apply bounded_load_same | now apply bounded_load_other].
Qed.

Lemma bounded_loop_body (m : Machine) :
  keeps (slot_bounded m) static_call loop_body.
Proof.
  unfold loop_body, after_checks, transitions, finish_pass, machine_done.
  repeat first
    [ apply bounded_absorb | apply bounded_unload | apply bounded_load
    | apply keeps_ret | apply keeps_brk | apply keeps_raise | apply keeps_say
    | apply keeps_nap; apply bounded_call_keeps
    | apply keeps_wait; apply bounded_call_keeps
    | apply keeps_read; intros ? ?
    | apply keeps_bind; [|intros ?]
    | match goal with
      | |- keeps _ _ (if ?b then _ else _) => destruct b
      | |- keeps _ _ (match ?o with Some _ => _ | None => _ end) => destruct o
      end ].
Qed.

Lemma capacity_call_keeps (m : Machine) (c0 : Z) (c : Call) (s : Sequencer) :
  static_call c -> capacity m s = c0 ->
  capacity m (fst (apply_call c s)) = c0.
Proof. intros Hc <-. apply (call_on_slot c s m Hc). Qed.

Lemma capacity_upd (m k : Machine) (f : Tester -> Tester) (s : Sequencer) :
  capacity m (upd_st k f s) = capacity m s.
Proof. destruct k, m, s; reflexivity. Qed.

Ltac capacity_keeps :=
  repeat first
    [ apply keeps_ret | apply keeps_brk | apply keeps_raise
    | apply keeps_say
    | apply keeps_run_micro_plan;
      [apply capacity_call_keeps
      | intros ? ?; assumption | intros ? ?; assumption]
    | apply keeps_nap; apply capacity_call_keeps
    | apply keeps_wait; apply capacity_call_keeps
    | apply keeps_perform; intros ? ?; cbn [assign fst];
      rewrite capacity_upd; assumption
    | apply keeps_read; intros ? ?
    | apply keeps_bind; [|intros ?]
    | match goal with
      | |- keeps _ _ (if ?b then _ else _) => destruct b
      | |- keeps _ _ (match ?o with Some _ => _ | None => _ end) =>
          destruct o
      end ].

Lemma capacity_absorb (m k : Machine) (c0 : Z) :
  keeps (fun s => capacity m s = c0) static_call (absorb k).
Proof. unfold absorb. capacity_keeps. Qed.

Lemma capacity_unload (m k : Machine) (p : bool) (c0 : Z) :
  keeps (fun s => capacity m s = c0) static_call (unload k p).
Proof. unfold unload. capacity_keeps. Qed.

Lemma capacity_load (m k : Machine) (p : bool) (c0 : Z) :
  keeps (fun s => capacity m s = c0) static_call (load k p).
Proof. unfold load. capacity_keeps. Qed.

Lemma capacity_loop_body (m : Machine) (c0 : Z) :
  keeps (fun s => capacity m s = c0) static_call loop_body.
Proof.
  unfold loop_body, after_checks, transitions, finish_pass, machine_done.
  repeat first
    [ apply capacity_absorb | apply capacity_unload | apply capacity_load
    | apply keeps_ret | apply keeps_brk | apply keeps_raise
    | apply keeps_say
    | apply keeps_nap; apply capacity_call_keeps
    | apply keeps_wait; apply capacity_call_keeps
    | apply keeps_read; intros ? ?
    | apply keeps_bind; [|intros ?]
    | match goal with
      | |- keeps _ _ (if ?b then _ else _) => destruct b
      | |- keeps _ _ (match ?o with Some _ => _ | None => _ end) =>
          destruct o
      end ].
Qed.

Lemma prologue_slot (p1 p2 : Ping) (s : Sequencer) (m : Machine) :
  capacity m (fst (worker_prologue p1 p2 s)) = capacity m s
  /\ current_slotN (st m (fst (worker_prologue p1 p2 s)))
     = Some (match current_slotN (st m s) with
             | Some x => x
             | None => 1
             end).
Proof. open_object s. destruct p1, p2, m; split; reflexivity. Qed.

(** X18. In a run that starts with a tray size that is not negative and a
    slot index, if the attribute exists, between 1 and the tray size plus
    one, and during which no call changes the tray sizes, the slot index
    is between 1 and the tray size plus one when the loop is left, and the
    tray size is the one of the start. *)
Theorem slot_index_stays_in_tray :
  forall (m : Machine) (p1 p2 : Ping) (sched sched' : list Yield)
         (w w' : World) (r : Res unit),
    0 <= capacity m (sq w) ->
    (forall k : Z, current_slotN (st m (sq w)) = Some k ->
                   1 <= k <= capacity m (sq w) + 1) ->
    quiet_calls static_call sched ->
    worker_try p1 p2 sched w = Some (r, sched', w') ->
    exists k : Z,
      current_slotN (st m (sq w')) = Some k
      /\ 1 <= k <= capacity m (sq w') + 1
      /\ capacity m (sq w') = capacity m (sq w).
Proof.
  intros m p1 p2 sched sched' w w' r C R Hq H.
  destruct (prologue_slot p1 p2 (sq w) m) as [F1 F2].
  unfold worker_try, bind, perform in H.
  remember (act (worker_prologue p1 p2) w) as w0 eqn:E0.
  assert (S0 : sq w0 = fst (worker_prologue p1 p2 (sq w)))
    by (subst w0; apply act_sq).
  assert (B0 : slot_bounded m (sq w0)).
  { rewrite S0. split; [now rewrite F1|]. eexists. split; [exact F2|].
    rewrite F1. destruct (current_slotN (st m (sq w))) as [k|];
      [now apply R | lia]. }
  assert (C0 : capacity m (sq w0) = capacity m (sq w)) by now rewrite S0.
  destruct (keeps_worker_loop _ _ (bounded_loop_body m) _ _ _ _ _ _ Hq B0 H)
    as [(_ & k & K & Hk) _].
  destruct (keeps_worker_loop _ _
              (capacity_loop_body m (capacity m (sq w))) _ _ _ _ _ _ Hq C0 H)
    as [C1 _].
  exists k. split; [exact K|]. split; [exact Hk | exact C1].
Qed.

Lemma slot_index_stays_in_tray_witness :
  0 <= capacity M1 (sq (world_of started))
  /\ quiet_calls static_call stopped_run_schedule
  /\ exists k : Z,
       current_slotN (st M1 (sq (world_left_by stopped_run_at_exit))) = Some k
       /\ 1 <= k <= capacity M1 (sq (world_left_by stopped_run_at_exit)) + 1
       /\ capacity M1 (sq (world_left_by stopped_run_at_exit))
          = capacity M1 (sq (world_of started)).
Proof.
  assert (C : 0 <= capacity M1 (sq (world_of started)))
    by (vm_compute; discriminate).
  assert (R : forall k : Z,
             current_slotN (st M1 (sq (world_of started))) = Some k ->
             1 <= k <= capacity M1 (sq (world_of started)) + 1)
    by (intros k E; vm_compute in E; discriminate E).
  assert (Q : quiet_calls static_call stopped_run_schedule)
    by (repeat constructor).
  assert (H : worker_try PingOk PingOk stopped_run_schedule (world_of started)
              = Some (Ok tt, [], world_left_by stopped_run_at_exit))
    by (vm_compute; reflexivity).
  split; [exact C|]. split; [exact Q|].
  exact (slot_index_stays_in_tray M1 PingOk PingOk _ _ _ _ _ C R Q H).
Defined.

(** ** Readiness is decided once per run *)

Lemma call_on_commready (c : Call) (s : Sequencer) (m : Machine) :
  tester_commready (st m (fst (apply_call c s))) = tester_commready (st m s).
Proof.
  destruct c as [n| | | |ev payload| |i v|j]; cbn [apply_call].
  - open_object s. unfold start_seq_worker, and_then, start_listener.
    destruct n, m; cbn; split_ifs; reflexivity.
  - open_object s. unfold stop, and_then, stop_listener.
    destruct m; cbn; split_ifs; reflexivity.
  - destruct m; reflexivity.
  - destruct m; reflexivity.
  - unfold on_backend_event.
    destruct (ev =? BackendEvents.FAULT)%string;
      [|destruct (ev =? BackendEvents.STOPPED)%string];
      destruct m; reflexivity.
  - rewrite reset_assigns. destruct m; reflexivity.
  - unfold external_test_complete.
    destruct (i =? 1); [|destruct (i =? 2)]; unfold deliver;
      try match goal with |- context [awaiting_result (st ?x s)] =>
            destruct (awaiting_result (st x s)) end;
      destruct m; reflexivity.
  - destruct m, j; reflexivity.
Qed.

Lemma commready_call_keeps (m : Machine) (b : bool) (c : Call) (s : Sequencer) :
  any_call c -> tester_commready (st m s) = b ->
  tester_commready (st m (fst (apply_call c s))) = b.
Proof. intros _ <-. apply call_on_commready. Qed.

Lemma commready_upd (m k : Machine) (f : Tester -> Tester) (s : Sequencer) :
  (forall t, tester_commready (f t) = tester_commready t) ->
  tester_commready (st m (upd_st k f s)) = tester_commready (st m s).
Proof. intros F. destruct k, m, s; cbn; rewrite ?F; reflexivity. Qed.

Ltac commready_keeps :=
  repeat first
    [ apply keeps_ret | apply keeps_brk | apply keeps_raise
    | apply keeps_say
    | apply keeps_run_micro_plan;
      [apply commready_call_keeps
      | intros ? ?; assumption | intros ? ?; assumption]
    | apply keeps_perform; intros ? ?; cbn [assign fst];
      rewrite commready_upd; [assumption | reflexivity]
    | apply keeps_read; intros ? ?
    | apply keeps_bind; [|intros ?]
    | match goal with
      | |- keeps _ _ (if ?b then _ else _) => destruct b
      | |- keeps _ _ (match ?o with Some _ => _ | None => _ end) =>
          destruct o
      end ].

Lemma commready_absorb (m k : Machine) (b : bool) :
  keeps (fun s => tester_commready (st m s) = b) any_call (absorb k).
Proof. unfold absorb. commready_keeps. Qed.

Lemma commready_unload (m k : Machine) (p b : bool) :
  keeps (fun s => tester_commready (st m s) = b) any_call (unload k p).
Proof. unfold unload. commready_keeps. Qed.

Lemma commready_load (m k : Machine) (p b : bool) :
  keeps (fun s => tester_commready (st m s) = b) any_call (load k p).
Proof. unfold load. commready_keeps. Qed.

Lemma commready_loop_body (m : Machine) (b : bool) :
  keeps (fun s => tester_commready (st m s) = b) any_call loop_body.
Proof.
  unfold loop_body, after_checks, transitions, finish_pass, machine_done.
  repeat first
    [ apply commready_absorb | apply commready_unload | apply commready_load
    | apply keeps_ret | apply keeps_brk | apply keeps_raise
    | apply keeps_say
    | apply keeps_nap; apply commready_call_keeps
    | apply keeps_wait; apply commready_call_keeps
    | apply keeps_read; intros ? ?
    | apply keeps_bind; [|intros ?]
    | match goal with
      | |- keeps _ _ (if ?b then _ else _) => destruct b
      | |- keeps _ _ (match ?o with Some _ => _ | None => _ end) =>
          destruct o
      end ].
Qed.

Lemma prologue_commready (p1 p2 : Ping) (s : Sequencer) (m : Machine) :
  tester_commready (st m (fst (worker_prologue p1 p2 s)))
  = fst (ping_serial m (ping_of m p1 p2)).
Proof. open_object s. destruct p1, p2, m; reflexivity. Qed.

(** X19. Whether a machine is served is decided by the one ping at the start
    of the worker: when the loop is left, [tester_commready] of a machine is
    still the outcome of that ping, whatever the other threads called and
    whatever the loop did in between. *)
Theorem commready_is_fixed_at_start :
  forall (m : Machine) (p1 p2 : Ping) (sched sched' : list Yield)
         (w w' : World) (r : Res unit),
    worker_try p1 p2 sched w = Some (r, sched', w') ->
    tester_commready (st m (sq w')) = fst (ping_serial m (ping_of m p1 p2)).
Proof.
  intros m p1 p2 sched sched' w w' r H.
  unfold worker_try, bind, perform in H.
  refine (proj1 (keeps_worker_loop _ _ (commready_loop_body m _)
                   _ _ _ _ _ _ (quiet_calls_any _) _ H)).
  rewrite act_sq. apply prologue_commready.
Qed.

Lemma commready_is_fixed_at_start_witness :
  worker_try PingOk PingNoPort stopped_run_schedule (world_of started)
  = Some (Ok tt, [],
          world_left_by (worker_try PingOk PingNoPort stopped_run_schedule
                           (world_of started)))
  /\ tester_commready
       (st M2 (sq (world_left_by (worker_try PingOk PingNoPort
                                     stopped_run_schedule (world_of started)))))
     = false.
Proof.
  assert (H : worker_try PingOk PingNoPort stopped_run_schedule (world_of started)
              = Some (Ok tt, [],
                      world_left_by (worker_try PingOk PingNoPort
                                       stopped_run_schedule (world_of started))))
    by (vm_compute; reflexivity).
  split; [exact H|].
  exact (commready_is_fixed_at_start M2 PingOk PingNoPort _ _ _ _ _ H).
Defined.
